(** * KABS quotation tool: the SKU normaliser, catalogue matcher and
      pricing calculator of [services/pricingEngine.ts]

    A shallow embedding of the pricing engine, followed by the properties
    the specification states about it.

    Modelling conventions.
    - A JavaScript string is a Rocq [string].  A character below 128 is
      the UTF-16 code unit with that code; a character outside ASCII stands
      as the bytes of its UTF-8 encoding, which start at 128.  The engine
      names two characters outside ASCII, the en dash and the em dash of
      [normalizeLookup], which are recognised by their encodings.  Case
      mapping ([toUpperCase], [toLowerCase]), the white-space class [\s],
      [trim] and [length] are the ASCII restrictions of the ECMAScript
      ones: they coincide with the host on ASCII texts ([isAscii]), and
      the properties that rest on them are stated for such texts.
    - A JavaScript number is an IEEE 754 binary64 value: Rocq's primitive
      [float], with the primitive (correctly rounded) [+ - * /].
    - An optional property ([extractedPrice?], [specs?]) is an [option].
    - A [Record<string, T>] is an association list holding the own
      properties in [Object.keys] order.  Where the engine reads a property
      under a name it does not control (a tier name in a row, a room name
      in the room specifications, the room factors or the category
      margins, an option id in the selected options), the names every
      object inherits from [Object.prototype] are read as well
      ([inherited]).  What is read then is a function or an object; where
      the engine uses it as a number it behaves as [NaN], which stands for
      it.
    - Each regular expression of the source is a _matcher_: a function
      that, given the text starting at a position, returns the length of
      the match starting there and its replacement.  [replaceFirst] and
      [replaceAll] are [String.prototype.replace] without and with the
      [g] flag; [testRe] is [RegExp.prototype.test] for an unanchored
      pattern. *)

From Stdlib Require Import ZArith Floats String Ascii List Bool Lia.
From Stdlib Require Import DecimalString Sorting.Sorted Sorting.Permutation.
Import ListNotations.

Local Open Scope string_scope.
Local Open Scope bool_scope.

(** ** Host string primitives *)

Module JS.

Definition code (c : ascii) : nat := nat_of_ascii c.

Definition inRange (lo hi : nat) (c : ascii) : bool :=
  Nat.leb lo (code c) && Nat.leb (code c) hi.

(** [\d], [[A-Z]], [[a-z]], [[0-9A-Z]] and [\s]. *)
Definition isDigit (c : ascii) : bool := inRange 48 57 c.
Definition isAZ (c : ascii) : bool := inRange 65 90 c.
Definition isLower (c : ascii) : bool := inRange 97 122 c.
Definition isAlnum (c : ascii) : bool := isDigit c || isAZ c.
Definition isSpace (c : ascii) : bool := inRange 9 13 c || Nat.eqb (code c) 32.

Definition upperChar (c : ascii) : ascii :=
  if isLower c then ascii_of_nat (code c - 32) else c.
Definition lowerChar (c : ascii) : ascii :=
  if isAZ c then ascii_of_nat (code c + 32) else c.

Fixpoint mapChars (f : ascii -> ascii) (s : string) : string :=
  match s with
  | EmptyString => EmptyString
  | String c r => String (f c) (mapChars f r)
  end.

Definition toUpperCase : string -> string := mapChars upperChar.
Definition toLowerCase : string -> string := mapChars lowerChar.

Fixpoint forallChars (p : ascii -> bool) (s : string) : bool :=
  match s with
  | EmptyString => true
  | String c r => p c && forallChars p r
  end.

(** A text of ASCII characters: the texts on which this module is the
    host's. *)
Definition isAscii (s : string) : bool := forallChars (fun c => Nat.ltb (code c) 128) s.

(** Length of the longest prefix whose characters satisfy [p]: what a
    greedy [p*] consumes. *)
Fixpoint spanLen (p : ascii -> bool) (s : string) : nat :=
  match s with
  | String c r => if p c then S (spanLen p r) else 0
  | EmptyString => 0
  end.

Fixpoint take (n : nat) (s : string) : string :=
  match n, s with
  | S k, String c r => String c (take k r)
  | _, _ => EmptyString
  end.

Fixpoint drop (n : nat) (s : string) : string :=
  match n, s with
  | S k, String _ r => drop k r
  | _, _ => s
  end.

Fixpoint startsWith (s w : string) : bool :=
  match w, s with
  | EmptyString, _ => true
  | String a w', String b s' => Ascii.eqb a b && startsWith s' w'
  | String _ _, EmptyString => false
  end.

Fixpoint includes (s w : string) : bool :=
  startsWith s w ||
  match s with
  | EmptyString => false
  | String _ r => includes r w
  end.

Fixpoint trimStart (s : string) : string :=
  match s with
  | String c r => if isSpace c then trimStart r else s
  | EmptyString => EmptyString
  end.

Fixpoint trimEnd (s : string) : string :=
  match s with
  | EmptyString => EmptyString
  | String c r =>
      match trimEnd r with
      | EmptyString => if isSpace c then EmptyString else String c EmptyString
      | r' => String c r'
      end
  end.

Definition trim (s : string) : string := trimEnd (trimStart s).

(** A matcher looks at the text from the current position on and returns
    the length of the match that starts there with the text replacing it.
    No pattern of the source matches the empty string. *)
Definition matcher := string -> option (nat * string).

(** [s.replace(/re/, ...)]: the leftmost match only. *)
Fixpoint replaceFirst (m : matcher) (s : string) : string :=
  match m s with
  | Some (n, rep) => rep ++ drop n s
  | None =>
      match s with
      | EmptyString => EmptyString
      | String c r => String c (replaceFirst m r)
      end
  end.

(** [s.replace(/re/g, ...)]: every match, left to right, the search
    resuming where the previous match ended.  [skip] counts the characters
    of the current match still to be dropped. *)
Fixpoint replaceAll (m : matcher) (skip : nat) (s : string) : string :=
  match s with
  | EmptyString => EmptyString
  | String c r =>
      match skip with
      | S k => replaceAll m k r
      | O =>
          match m s with
          | Some (S k, rep) => rep ++ replaceAll m k r
          | _ => String c (replaceAll m 0 r)
          end
      end
  end.

(** [/re/.test(s)] for a pattern that may match anywhere. *)
Fixpoint testRe (m : matcher) (s : string) : bool :=
  match m s with
  | Some _ => true
  | None =>
      match s with
      | EmptyString => false
      | String _ r => testRe m r
      end
  end.

(** A pattern [(w1|w2|...)$]: the rest of the text is one of the words. *)
Definition mEnd (ws : list string) : matcher :=
  fun s => if existsb (String.eqb s) ws then Some (String.length s, "") else None.

(** A literal pattern, replaced by [rep]. *)
Definition mLit (w rep : string) : matcher :=
  fun s => if startsWith s w then Some (String.length w, rep) else None.

(** [parseInt] of a run of decimal digits, and the decimal text of an
    integer (the template-literal conversion of an integral number). *)
Definition digitVal (c : ascii) : Z := Z.of_nat (code c - 48).

Fixpoint parseDigits (acc : Z) (s : string) : Z :=
  match s with
  | String c r => if isDigit c then parseDigits (10 * acc + digitVal c) r else acc
  | EmptyString => acc
  end.

Definition parseInt (s : string) : Z := parseDigits 0 s.

Definition intToString (z : Z) : string := NilEmpty.string_of_int (Z.to_int z).

End JS.

Import JS.

(** ** The code normaliser ([normalizeNKBACode]) *)

(** [/\s+/]. *)
Definition mSpaces : matcher := fun s =>
  match spanLen isSpace s with
  | O => None
  | n => Some (n, " ")
  end.

(** [/([A-Z])\s+(\d)/], replaced by ['$1$2']. *)
Definition mLetterGapDigit : matcher := fun s =>
  match s with
  | String c r =>
      if isAZ c then
        let n := spanLen isSpace r in
        match n, drop n r with
        | S _, String d _ =>
            if isDigit d then Some (S (n + 1), String c (String d "")) else None
        | _, _ => None
        end
      else None
  | EmptyString => None
  end.

(** [/([A-Z]+)<noise>(\d{2})/] with [<noise>] the literal ["10"] or ["0"],
    replaced by ['$1$2'].  The greedy letter run cannot give a character
    back: the noise starts with a digit. *)
Definition mNoise (noise : string) : matcher := fun s =>
  let n := spanLen isAZ s in
  match n with
  | O => None
  | _ =>
      let r := drop n s in
      if startsWith r noise then
        match drop (String.length noise) r with
        | String d1 (String d2 _) =>
            if isDigit d1 && isDigit d2
            then Some (n + String.length noise + 2, take n s ++ String d1 (String d2 ""))
            else None
        | _ => None
        end
      else None
  end.

(** [/^[A-Z]+10\d{2}/.test] and [/^[A-Z]+0\d{2}/.test]: the same pattern
    tried at the first position only. *)
Definition testAtStart (m : matcher) (s : string) : bool :=
  match m s with Some _ => true | None => false end.

(** [/\s*X\s*\d+\s*DP/]. *)
Definition mDepth : matcher := fun s =>
  let a := spanLen isSpace s in
  match drop a s with
  | String "X" r1 =>
      let b := spanLen isSpace r1 in
      let r2 := drop b r1 in
      let d := spanLen isDigit r2 in
      match d with
      | O => None
      | _ =>
          let r3 := drop d r2 in
          let e := spanLen isSpace r3 in
          if startsWith (drop e r3) "DP" then Some (a + 1 + b + d + e + 2, "") else None
      end
  | _ => None
  end.

(** [/\d*TD/]. *)
Definition mTD : matcher := fun s =>
  let d := spanLen isDigit s in
  if startsWith (drop d s) "TD" then Some (d + 2, "") else None.

(** [/(?<!\d)\./g] and [/\.(?!\d)/g], both replaced by ['']: a dot goes
    unless a digit stands before it, then unless a digit stands after it.
    The look-behind reads the text as it was before this replacement. *)
Fixpoint dropDotsNotAfterDigit (prevDigit : bool) (s : string) : string :=
  match s with
  | EmptyString => EmptyString
  | String c r =>
      if Ascii.eqb c "." && negb prevDigit
      then dropDotsNotAfterDigit false r
      else String c (dropDotsNotAfterDigit (isDigit c) r)
  end.

Definition headIsDigit (s : string) : bool :=
  match s with String d _ => isDigit d | EmptyString => false end.

Fixpoint dropDotsNotBeforeDigit (s : string) : string :=
  match s with
  | EmptyString => EmptyString
  | String c r =>
      if Ascii.eqb c "." && negb (headIsDigit r)
      then dropDotsNotBeforeDigit r
      else String c (dropDotsNotBeforeDigit r)
  end.

(** What may follow the construction tag up to the end of the code:
    [(-?[0-9A-Z]+)?$]. *)
Definition tagTail (t : string) : bool :=
  match t with
  | EmptyString => true
  | String "-" (String c u) => forallChars isAlnum (String c u)
  | _ => forallChars isAlnum t
  end.

(** [/([0-9]+)<tag>(-?[0-9A-Z]+)?$/] for a two-letter [<tag>] ("AH", "VH",
    "PH"), replaced by ['$1']. *)
Definition mConstruction (tag : string) : matcher := fun s =>
  let d := spanLen isDigit s in
  match d with
  | O => None
  | _ =>
      let r := drop d s in
      if startsWith r tag && tagTail (drop (String.length tag) r)
      then Some (String.length s, take d s)
      else None
  end.

(** [/[0-9][LR]$/] and [/[0-9]-[LR]$/]. *)
Definition mDigitSide : matcher := fun s =>
  match s with
  | String d (String c EmptyString) =>
      if isDigit d && (Ascii.eqb c "L" || Ascii.eqb c "R") then Some (2, "") else None
  | _ => None
  end.

Definition mDigitDashSide : matcher := fun s =>
  match s with
  | String d (String "-" (String c EmptyString)) =>
      if isDigit d && (Ascii.eqb c "L" || Ascii.eqb c "R") then Some (3, "") else None
  | _ => None
  end.

Definition normalizeNKBACode (rawCode : string) : string :=
  if String.eqb rawCode "" then "" else
  let code := trim (toUpperCase rawCode) in
  (* 1. OCR symbol errors.  The second pattern of the source starts with
     a lower-case letter outside ASCII, which the upper-casing above has
     turned into its capital: it matches nothing. *)
  let code := mapChars (fun c => if Ascii.eqb c "$" then "B"%char else c) code in
  let code := mapChars (fun c => if Ascii.eqb c "@" then "0"%char else c) code in
  let code := trim (replaceAll mSpaces 0 code) in
  let code := replaceAll mLetterGapDigit 0 code in
  (* 2. "BD1015" -> "BD15", "B015" -> "B15" *)
  let code := if testAtStart (mNoise "10") code then replaceFirst (mNoise "10") code else code in
  let code := if testAtStart (mNoise "0") code then replaceFirst (mNoise "0") code else code in
  (* 3. directional and cosmetic suffixes *)
  let code := replaceFirst (mEnd ["-2B"; "2B"]) code in
  let code := replaceFirst (mEnd ["(L)"; "(R)"]) code in
  let code := replaceAll mDepth 0 code in
  let code := replaceAll mTD 0 code in
  let code := replaceAll (mLit "ROT" "") 0 code in
  let code := dropDotsNotBeforeDigit (dropDotsNotAfterDigit false code) in
  (* construction types *)
  let code := replaceFirst (mConstruction "AH") code in
  let code := replaceFirst (mConstruction "VH") code in
  let code := replaceFirst (mConstruction "PH") code in
  let code := replaceFirst (mEnd ["HD"]) code in
  let code := if startsWith code "DHW" then "DW" ++ drop 3 code else code in
  let code :=
    if testRe mDigitSide code || testRe mDigitDashSide code
    then replaceFirst (mEnd ["-L"; "-R"; "L"; "R"]) code else code in
  let code := replaceFirst (mEnd ["-LH"; "LH"]) code in
  let code := replaceFirst (mEnd ["-RH"; "RH"]) code in
  (* finished ends *)
  let code := replaceFirst (mEnd ["-FEL"; "-FER"; "-FE"; "FEL"; "FER"; "FE"]) code in
  let code := replaceFirst (mEnd ["-FE"; "FE"]) code in
  code.

(** ** Host number primitives *)

Module Num.

Local Open Scope float_scope.

Definition isNaN (x : float) : bool := negb (PrimFloat.eqb x x).

(** Truthiness of a number: everything but [0], [-0] and [NaN]. *)
Definition truthy (x : float) : bool := negb (PrimFloat.eqb x 0 || isNaN x).

(** [a || b] on numbers. *)
Definition orElse (a b : float) : float := if truthy a then a else b.

(** The number with integral value [z], exact for [|z| <= 2^53]. *)
Definition ofZ (z : Z) : float :=
  match z with
  | Z0 => 0
  | Zpos _ => PrimFloat.of_uint63 (Uint63.of_Z z)
  | Zneg _ => - PrimFloat.of_uint63 (Uint63.of_Z (- z))
  end.

(** [floor (m * 2^e * k + 1/2)] for the magnitude [m * 2^e] of a finite
    number: the integer [n] with [n / k] nearest to it, the larger one of
    two. *)
Definition scaledHalfUp (k : Z) (m : positive) (e : Z) : Z :=
  if (0 <=? e)%Z then (Zpos m * 2 ^ e * k)%Z
  else ((2 * Zpos m * k + 2 ^ (- e)) / 2 ^ (1 - e))%Z.

(** [Math.round]: the nearest integral number, the one towards
    [+infinity] of two; an integral, infinite or [NaN] argument is
    returned as it is, and a negative argument that rounds to zero gives
    [-0]. *)
Definition round (x : float) : float :=
  match Prim2SF x with
  | S754_finite s m e =>
      if (0 <=? e)%Z then x
      else
        let n := if s then ((2 ^ (- e) - 2 * Zpos m) / 2 ^ (1 - e))%Z
                 else scaledHalfUp 1 m e in
        if (n =? 0)%Z then (if s then (-0) else 0) else ofZ n
  | _ => x
  end.

(** [Number(x.toFixed(2))].  [toFixed] writes the decimal [n / 100]
    nearest to [|x|] (the larger [n] of two) with the sign of [x]; [Number]
    reads it back as the nearest number, which is the correctly rounded
    quotient [n / 100] while [n] is below [2^53].  From there on
    neighbouring numbers are more than [0.01] apart, so that the decimal
    reads back as [x]; from [1e21] on, and for an infinite or [NaN]
    argument, [toFixed] is [String(x)], which reads back as [x] too. *)
Definition toFixed2 (x : float) : float :=
  match Prim2SF x with
  | S754_finite s m e =>
      let n := scaledHalfUp 100 m e in
      if (n <? 2 ^ 53)%Z
      then (if s then - (ofZ n / 100) else ofZ n / 100)
      else x
  | S754_zero _ => 0
  | _ => x
  end.

(** The digits of [x.toFixed(0)] for a finite [|x| < 1e21]; [None] when
    [toFixed] falls back to [String(x)]. *)
Definition toFixed0 (x : float) : option string :=
  match Prim2SF x with
  | S754_finite s m e =>
      let n := scaledHalfUp 1 m e in
      if (n <? 10 ^ 21)%Z
      then Some ((if s then "-" else "") ++ intToString n)%string
      else None
  | S754_zero _ => Some "0"%string
  | _ => None
  end.

End Num.

(** ** Data model

    [types.ts] is not among the sources; the declarations below are read
    off the uses in [pricingEngine.ts], its test drivers and the data
    model of the specification. *)

(** Modelled from the spec: the declaration of [CabinetType], a union of
    the ten string literals the specification lists. *)
Inductive CabinetType :=
  | Base | Wall | Tall | Vanity | Filler | Panel
  | Accessory | Hardware | Appliance | Modification.

Definition CabinetType_eqb (a b : CabinetType) : bool :=
  match a, b with
  | Base, Base | Wall, Wall | Tall, Tall | Vanity, Vanity | Filler, Filler
  | Panel, Panel | Accessory, Accessory | Hardware, Hardware
  | Appliance, Appliance | Modification, Modification => true
  | _, _ => false
  end.

(** Modelled from the spec: the declaration of the option's [pricingType]
    (fixed | percentage | included). *)
Inductive PricingType := fixed | percentage | included.

Record ItemModification := {
  mod_description : string;
  mod_price : float
}.

Record CabinetItem := {
  id : string;
  originalCode : string;
  normalizedCode : string;
  type : CabinetType;
  description : string;
  width : float;
  height : float;
  depth : float;
  quantity : float;
  room : option string;
  modifications : list ItemModification;
  extractedPrice : option float
}.

Record PricingTier := {
  tier_id : string;
  tier_name : string;
  tier_multiplier : float
}.

Record ManufacturerOption := {
  opt_id : string;
  opt_name : string;
  opt_section : string;
  pricingType : PricingType;
  opt_price : float
}.

(** [Record<string, V>]: the own properties, in [Object.keys] order. *)
Definition dict (V : Type) := list (string * V).

Fixpoint lookup {V : Type} (k : string) (d : dict V) : option V :=
  match d with
  | [] => None
  | (k', v) :: r => if String.eqb k k' then Some v else lookup k r
  end.

Definition keys {V : Type} (d : dict V) : list string := map fst d.

Record Manufacturer := {
  basePricingMultiplier : float;
  tiers : list PricingTier;
  options : list ManufacturerOption;
  catalog : dict (dict float)
}.

(** The properties of [ProjectSpecs] the engine reads; each is optional. *)
Record ProjectSpecs := {
  priceGroup : option string;
  selectedOptions : option (dict bool);
  drawerBox : option string;
  hingeType : option string;
  woodSpecies : option string;
  finishColor : option string;
  glaze : option string;
  finishOption1 : option string;
  finishOption2 : option string;
  printedEndOption : option string;
  wallDoorOption : option string;
  baseDoorOption : option string;
  dynamicSelections : option (dict string)
}.

(** The properties of [ProjectFinancials] the engine reads. *)
Record ProjectFinancials := {
  fin_pricingFactor : option float;
  globalMargin : option float;
  roomFactors : option (dict float);
  categoryMargins : option (dict float)
}.

Record AppliedOption := {
  ao_name : string;
  ao_price : float;
  sourceSection : option string
}.

(** A priced line: the item it was computed from (the [...item] spread)
    and the properties the engine adds or overwrites. *)
Record PricingLineItem := {
  item : CabinetItem;
  li_normalizedCode : string;
  basePrice : float;
  optionsPrice : float;
  tierMultiplier : float;
  unitCost : float;
  finalUnitPrice : float;
  totalPrice : float;
  pricingFactor : float;
  margin : float;
  tierName : string;
  source : string;
  appliedOptions : list AppliedOption
}.

(** Truthiness of a string and [a || b] on strings. *)
Definition nonEmpty (s : string) : bool := negb (String.eqb s "").

(** ** The garbage filter ([isGarbageItem]) *)

Definition badWords : list string :=
  ["PAGE "; "OF PAGE"; "SUB TOTAL"; "SUBTOTAL"; "GRAND TOTAL"; "ORDER TOTAL";
   "TAX"; "SHIPPING"; "JOB NAME"; "PROJECT:"; "QUOTE:"; "DATE:"; "SIGNATURE";
   "CABINET SPECIFICATIONS"; "CONSTRUCTION:"; "DOOR STYLE:"; "LAYOUT"].

(** [\s+] or [\d+] at the head of the text: what is left after it, if it
    matched at least one character. *)
Definition eat (p : ascii -> bool) (s : string) : option string :=
  match spanLen p s with
  | O => None
  | n => Some (drop n s)
  end.

Definition eatLit (w : string) (s : string) : option string :=
  if startsWith s w then Some (drop (String.length w) s) else None.

Definition andThen {A B : Type} (o : option A) (f : A -> option B) : option B :=
  match o with Some a => f a | None => None end.

(** [/PAGE\s+\d+\s+OF\s+\d+/]. *)
Definition mPageOf : matcher := fun s =>
  andThen (eatLit "PAGE" s) (fun s1 =>
  andThen (eat isSpace s1) (fun s2 =>
  andThen (eat isDigit s2) (fun s3 =>
  andThen (eat isSpace s3) (fun s4 =>
  andThen (eatLit "OF" s4) (fun s5 =>
  andThen (eat isSpace s5) (fun s6 =>
  andThen (eat isDigit s6) (fun s7 =>
  Some (String.length s - String.length s7, "")))))))).

Definition applianceWords : list string :=
  ["FRIDGE"; "DISHWASHER"; "RANGE"; "OVEN"; "MICROWAVE"; "SINK"; "FAUCET"; "PAGE"].

(** [/^[A-Z0-9]{2,}/.test]. *)
Definition twoAlnumAtStart (s : string) : bool := Nat.leb 2 (spanLen isAlnum s).

Definition isGarbageItem (it : CabinetItem) : bool :=
  let text := toUpperCase (originalCode it ++ " " ++ description it) in
  let isCabinetCode :=
    twoAlnumAtStart (toUpperCase (originalCode it)) &&
    negb (existsb (fun bad => includes (toUpperCase (originalCode it)) bad) applianceWords) in
  testRe mPageOf text
  || existsb (fun w => includes text w) badWords
  || (Nat.ltb 50 (String.length (originalCode it)) && includes (originalCode it) " ")
  || (String.eqb (originalCode it) "KITCHEN" || String.eqb (description it) "KITCHEN")
  || (includes text "REFRIGERATOR" && negb (includes text "PANEL")
      && negb (includes text "CABINET") && negb isCabinetCode)
  || (includes text "RANGE" && negb (includes text "HOOD")
      && negb (includes text "CABINET") && negb isCabinetCode).

(** ** The key generator ([generateSmartKeys]) *)

Inductive Category := Exact | Similar.

(** The three variables the closure [add] updates. *)
Record Keys := {
  exactKeys : list string;
  similarKeys : list string;
  processed : list string
}.

Definition noKeys : Keys := {| exactKeys := []; similarKeys := []; processed := [] |}.

Definition has (k : string) (l : list string) : bool := existsb (String.eqb k) l.

(** [processed.add(k)] followed by the [push] on the list of the category. *)
Definition push (cat : Category) (k : string) (st : Keys) : Keys :=
  match cat with
  | Exact => {| exactKeys := exactKeys st ++ [k]; similarKeys := similarKeys st;
                processed := k :: processed st |}
  | Similar => {| exactKeys := exactKeys st; similarKeys := similarKeys st ++ [k];
                  processed := k :: processed st |}
  end.

(** [/\s+/g] replaced by ['']. *)
Definition mSpacesGone : matcher := fun s =>
  match spanLen isSpace s with
  | O => None
  | n => Some (n, "")
  end.

Definition removeSpaces (s : string) : string := replaceAll mSpacesGone 0 s.

(** [s.match(/^([A-Z]+)(\d+)/)]: the two groups. *)
Definition lettersDigitsPrefix (s : string) : option (string * string) :=
  let n := spanLen isAZ s in
  let r := drop n s in
  let d := spanLen isDigit r in
  match n, d with
  | S _, S _ => Some (take n s, take d r)
  | _, _ => None
  end.

(** [s.match(/^([A-Z]+)(\d+)$/)]. *)
Definition lettersDigits (s : string) : option (string * string) :=
  match lettersDigitsPrefix s with
  | Some (l, d) =>
      if Nat.eqb (String.length l + String.length d) (String.length s)
      then Some (l, d) else None
  | None => None
  end.

(** [s.match(/^([A-Z]+)(\d{2,3})$/)]. *)
Definition widthMatch (s : string) : option (string * string) :=
  match lettersDigits s with
  | Some (l, d) =>
      if Nat.leb 2 (String.length d) && Nat.leb (String.length d) 3
      then Some (l, d) else None
  | None => None
  end.

(** [s.split(c)[0]] and [s.split(c).slice(1).join(c)]. *)
Fixpoint beforeChar (c : ascii) (s : string) : string :=
  match s with
  | EmptyString => EmptyString
  | String a r => if Ascii.eqb a c then EmptyString else String a (beforeChar c r)
  end.

Fixpoint afterChar (c : ascii) (s : string) : string :=
  match s with
  | EmptyString => EmptyString
  | String a r => if Ascii.eqb a c then r else afterChar c r
  end.

(** [/^\d+$/.test]. *)
Definition allDigits (s : string) : bool := nonEmpty s && forallChars isDigit s.

Definition cosmeticSuffix (suffix : string) : bool :=
  Nat.leb (String.length suffix) 3 || String.eqb suffix "BUTT"
  || String.eqb suffix "2B" || allDigits suffix.

Definition neighborFamilies : list string :=
  ["SB"; "DB"; "B"; "VSB"; "VDB"; "W"; "BBC"; "S"; "VB"; "V"].

(** The closure [add].  It calls itself on the part before the first
    dash, and, when [allowNeighbors] is set, on the neighbour widths with
    [allowNeighbors] cleared; [fuel] bounds the depth of these calls. *)
Fixpoint addF (fuel : nat) (k : string) (category : Category) (allowNeighbors : bool)
    (st : Keys) : Keys :=
  match fuel with
  | O => st
  | S fuel =>
      if negb (nonEmpty k) then st else
      let upper := removeSpaces (toUpperCase k) in
      if has upper (processed st) then st else
      let st := push category upper st in
      (* [Letters][Numbers] -> [Letters]-[Numbers] *)
      let st :=
        match lettersDigits upper with
        | Some (l, d) =>
            let hyphenated := l ++ "-" ++ d in
            if has hyphenated (processed st) then st else push category hyphenated st
        | None => st
        end in
      (* cosmetic suffix after the first dash *)
      let st :=
        if includes upper "-" then
          let base := beforeChar "-" upper in
          let suffix := afterChar "-" upper in
          if cosmeticSuffix suffix then addF fuel base category allowNeighbors st else st
        else st in
      (* neighbour widths *)
      if allowNeighbors then
        match widthMatch upper with
        | Some (prefix, wStr) =>
            if has prefix neighborFamilies then
              let w := parseInt wStr in
              let near (p : string) (n : Z) := addF fuel (p ++ intToString n) Similar false in
              let st := near prefix (w - 3)%Z st in
              let st := near prefix (w + 3)%Z st in
              let st := near prefix (w - 6)%Z st in
              let st := near prefix (w + 6)%Z st in
              let st :=
                if String.eqb prefix "SB" then near "VSB" w (near "B" w st) else st in
              if String.eqb prefix "VSB" then near "VDB" w (near "SB" w st) else st
            else st
        | None => st
        end
      else st
  end.

(** A call from the body of [generateSmartKeys]: the nesting of the calls
    of [add] is at most four deep (key, part before its dash, neighbour
    width, part before the dash of a negative neighbour width). *)
Definition add (k : string) (category : Category) (allowNeighbors : bool) (st : Keys) : Keys :=
  addF 4 k category allowNeighbors st.

(** What the engine takes from its host and the repository does not
    define: the conversion of a number to text in a template literal
    ([Number::toString], the shortest decimal that reads back as the
    number) and the collation order of
    [localeCompare(_, undefined, {numeric: true, sensitivity: 'base'})]. *)
Record Host := {
  numberToString : float -> string;
  localeCompare : string -> string -> comparison
}.

(** [cleanCode.match(/(\d+)/)?.[0]]: the first run of digits, empty when
    there is none. *)
Fixpoint firstDigitRun (s : string) : string :=
  match s with
  | EmptyString => EmptyString
  | String c r => if isDigit c then take (spanLen isDigit s) s else firstDigitRun r
  end.

(** The text without its longest suffix of characters satisfying [p]. *)
Fixpoint stripTrailing (p : ascii -> bool) (s : string) : string :=
  match s with
  | EmptyString => EmptyString
  | String c r =>
      match stripTrailing p r with
      | EmptyString => if p c then EmptyString else String c EmptyString
      | r' => String c r'
      end
  end.

Definition endsWithTwoDigits (s : string) : bool :=
  Nat.leb 2 (String.length s) && forallChars isDigit (drop (String.length s - 2) s).

(** [s.match(/^([0-9A-Z]+)(\d{2})$/)]: the two groups. *)
Definition complexMatch (s : string) : option (string * string) :=
  let n := String.length s in
  if forallChars isAlnum s && Nat.leb 3 n && endsWithTwoDigits s
  then Some (take (n - 2) s, drop (n - 2) s) else None.

(** [s.match(/^([A-Z0-9]+)(\d{2})([A-Z]+)(-\d+)$/)], returning
    [$1$2$4]: the code has one dash, digits after it, and before it letters
    that follow two digits; the letters go. *)
Definition middleLetterMatch (s : string) : option string :=
  let a := beforeChar "-" s in
  let d := afterChar "-" s in
  let q := stripTrailing isAZ a in
  if includes s "-" && allDigits d && forallChars isAlnum a
     && Nat.ltb (String.length q) (String.length a)
     && Nat.leb 3 (String.length q) && endsWithTwoDigits q
  then Some (q ++ "-" ++ d) else None.

Fixpoint countChar (c : ascii) (s : string) : nat :=
  match s with
  | EmptyString => 0
  | String a r => (if Ascii.eqb a c then 1 else 0) + countChar c r
  end.

Fixpoint removeChar (c : ascii) (s : string) : string :=
  match s with
  | EmptyString => EmptyString
  | String a r => if Ascii.eqb a c then removeChar c r else String a (removeChar c r)
  end.

(** [s.replace(w, rep)] with a string pattern: its first occurrence. *)
Definition replaceWord (w rep : string) (s : string) : string := replaceFirst (mLit w rep) s.

Definition standardWidths : list Z := [9; 12; 15; 18; 21; 24; 27; 30; 33; 36; 39; 42; 45; 48]%Z.

Definition when (b : bool) (f : Keys -> Keys) (st : Keys) : Keys := if b then f st else st.

Section KeyGenerator.

Variable host : Host.
Variable it : CabinetItem.

Let cleanCode := normalizeNKBACode (originalCode it).
Let cleanNorm := normalizeNKBACode (normalizedCode it).
Let str := numberToString host.

(* STRATEGY 0: first token *)
Definition strategy0 (st : Keys) : Keys :=
  if includes (originalCode it) " " then
    let firstToken := toUpperCase (trim (beforeChar " " (originalCode it))) in
    when (Nat.ltb 2 (String.length firstToken)) (add firstToken Exact true) st
  else st.

(* STRATEGY 1: explicit clean codes *)
Definition strategy1 (st : Keys) : Keys :=
  let st := add (originalCode it) Exact true st in
  let st := add cleanCode Exact true st in
  let st := when (nonEmpty (normalizedCode it)) (add (normalizedCode it) Exact true) st in
  add cleanNorm Exact true st.

(* STRATEGY 1.5: VDB / VBD transposition *)
Definition strategy1_5 (st : Keys) : Keys :=
  let st := when (includes cleanCode "VDB") (add (replaceWord "VDB" "VBD" cleanCode) Exact true) st in
  when (includes cleanCode "VBD") (add (replaceWord "VBD" "VDB" cleanCode) Exact true) st.

(* STRATEGY 2: a height tacked on, 3DB2136 -> 3DB21 *)
Definition strategy2 (st : Keys) : Keys :=
  match complexMatch cleanCode with
  | Some (prefix, suffix) =>
      let sVal := parseInt suffix in
      when ((30 <=? sVal)%Z && (sVal <=? 42)%Z) (add prefix Exact true) st
  | None => st
  end.

(* STRATEGY 3: vanity / wall confusion *)
Definition strategy3 (st : Keys) : Keys :=
  if startsWith cleanCode "W" || startsWith cleanCode "WD" then
    if startsWith cleanCode "WDH" then
      let remainder := replaceWord "WDH" "" cleanCode in
      let st := add ("VDB" ++ remainder) Similar false st in
      let st := add ("VSB" ++ remainder) Similar false st in
      let st := add ("SB" ++ remainder) Similar false st in
      let st := add ("DB" ++ remainder) Similar false st in
      add ("B" ++ remainder) Similar false st
    else st
  else st.

(* STRATEGY 4: similar cabinet fallback *)
Definition strategy4 (st : Keys) : Keys :=
  let st :=
    match middleLetterMatch cleanCode with
    | Some k => add k Similar true st
    | None => st
    end in
  match lettersDigitsPrefix cleanCode with
  | Some (l, d) => add (l ++ d) Similar true st
  | None => st
  end.

(* STRATEGY 5: internal dashes *)
Definition strategy5 (st : Keys) : Keys :=
  when (Nat.ltb 1 (countChar "-" cleanCode)) (add (removeChar "-" cleanCode) Exact true) st.

(* STRATEGY 6: keys built from the dimensions *)
Definition strategy6 (st : Keys) : Keys :=
  if (0 <? width it)%float then
    let w := str (width it) in
    match type it with
    | Wall =>
        let hVal := str (Num.orElse (height it) 30) in
        let st := add ("W" ++ w ++ hVal) Exact false st in
        when (12 <? depth it)%float (add ("W" ++ w ++ hVal ++ "-24") Exact false) st
    | Base =>
        let st := add ("B" ++ w) Exact false st in
        let st := add ("DB" ++ w) Exact false st in
        let st := add ("SB" ++ w) Exact false st in
        let st := add ("3DB" ++ w) Exact false st in
        add ("B" ++ w ++ "D") Exact false st
    | Tall =>
        let hVal := str (Num.orElse (height it) 84) in
        let st := add ("U" ++ w ++ hVal) Exact false st in
        add ("T" ++ w ++ hVal) Exact false st
    | Filler => add ("F" ++ w) Exact false st
    | Panel =>
        let st := add ("PNL" ++ w) Exact false st in
        add ("BP" ++ w) Exact false st
    | _ => st
    end
  else st.

(* STRATEGY 7: abbreviations *)
Definition strategy7 (st : Keys) : Keys :=
  (* S -> SB *)
  let st :=
    when (startsWith cleanCode "S" && allDigits (drop 1 cleanCode))
         (add (replaceWord "S" "SB" cleanCode) Exact true) st in
  let nums := firstDigitRun cleanCode in
  (* WDH -> WDC *)
  let st :=
    when (startsWith cleanCode "WDH" && nonEmpty nums)
         (fun st => add ("W" ++ nums ++ "30") Similar false
                      (add ("WDC" ++ nums ++ "30") Similar false st)) st in
  (* PDF -> PNL *)
  let st :=
    when (startsWith cleanCode "PDF" && nonEmpty nums)
         (fun st => add ("F" ++ nums) Exact false (add ("PNL" ++ nums) Exact false st)) st in
  (* OUK -> ACC *)
  let st :=
    when (startsWith cleanCode "OUK" && nonEmpty nums)
         (fun st => add ("KIT" ++ nums) Similar false (add ("ACC" ++ nums) Similar false st)) st in
  (* CE -> CM *)
  let st := when (startsWith cleanCode "CE") (add (replaceWord "CE" "CM" cleanCode) Exact false) st in
  (* TEP / BEP / REP *)
  let st :=
    when (startsWith cleanCode "TEP")
         (fun st => add "TEP96" Exact false (add "TEP2484" Exact false st)) st in
  let st := when (startsWith cleanCode "BEP") (add "BEP24" Exact false) st in
  let st :=
    when (startsWith cleanCode "REP")
         (fun st => add "REP96" Exact false (add "REP2496" Exact false st)) st in
  (* fillers *)
  let st :=
    when (startsWith cleanCode "BF")
         (fun st => add "F3" Similar false
                      (add ("F" ++ replaceWord "BF" "" cleanCode) Exact false st)) st in
  let st :=
    when (startsWith cleanCode "WF")
         (fun st => add "F3" Similar false
                      (add ("F" ++ replaceWord "WF" "" cleanCode) Exact false st)) st in
  when (startsWith cleanCode "F" && negb (startsWith cleanCode "FE"))
       (fun st => add ("WF" ++ replaceWord "F" "" cleanCode) Similar false
                    (add ("BF" ++ replaceWord "F" "" cleanCode) Similar false st)) st.

(* STRATEGY 8: the standard widths within two inches *)
Definition strategy8 (st : Keys) : Keys :=
  match lettersDigitsPrefix cleanCode with
  | Some (prefix, digits) =>
      let numPart := parseInt digits in
      if (numPart <? 100)%Z then
        fold_left
          (fun st std =>
             when (Z.abs (numPart - std) <=? 2)%Z (add (prefix ++ intToString std) Similar false) st)
          standardWidths st
      else st
  | None => st
  end.

Definition generateSmartKeys : list string * list string :=
  let st := strategy0 noKeys in
  let st := strategy1 st in
  let st := strategy1_5 st in
  let st := strategy2 st in
  let st := strategy3 st in
  let st := strategy4 st in
  let st := strategy5 st in
  let st := strategy6 st in
  let st := strategy7 st in
  let st := strategy8 st in
  (exactKeys st, similarKeys st).

End KeyGenerator.

(** ** The catalogue matcher ([normalizeLookup], [getPriceFromItem],
       [findCatalogPrice]) *)

(** [/\u2013|\u2014/], replaced by ['-']: the en dash and the em dash,
    whose UTF-8 encodings are the bytes 226 128 147 and 226 128 148. *)
Definition mDash : matcher := fun s =>
  match s with
  | String a (String b (String c _)) =>
      if Nat.eqb (code a) 226 && Nat.eqb (code b) 128
         && (Nat.eqb (code c) 147 || Nat.eqb (code c) 148)
      then Some (3, "-") else None
  | _ => None
  end.

Definition normalizeLookup (sku : string) : string :=
  removeSpaces (replaceAll mDash 0 (toUpperCase (trim sku))).

Record Match := {
  price : float;
  m_source : string;
  matchedSku : string
}.

Definition fuzzyTierMatch (tierId k : string) : bool :=
  includes (toLowerCase k) (toLowerCase tierId)
  || includes (toLowerCase tierId) (toLowerCase k).

Definition genericColumn (k : string) : bool :=
  includes (toLowerCase k) "price" || includes (toLowerCase k) "list".

(** The value of a key that [Object.keys] returned. *)
Definition valueOf (entry : dict float) (k : string) : float :=
  match lookup k entry with Some p => p | None => nan end.

Definition found (p : float) (src sku : string) : option Match :=
  Some {| price := p; m_source := src; matchedSku := sku |}.

(** The properties every object inherits from [Object.prototype]: [o[k]]
    is defined for such a [k] whether [o] has a property [k] of its own or
    not. *)
Definition inheritedNames : list string :=
  ["constructor"; "hasOwnProperty"; "isPrototypeOf"; "propertyIsEnumerable";
   "toLocaleString"; "toString"; "valueOf"; "__proto__";
   "__defineGetter__"; "__defineSetter__"; "__lookupGetter__"; "__lookupSetter__"].

Definition inherited (k : string) : bool := existsb (String.eqb k) inheritedNames.

Definition getPriceFromItem (entry : dict float) (tierId sku method : string) : option Match :=
  (* 1. direct tier match: [item[tierId] !== undefined].  An inherited
     property is a function or an object; the calculator only does
     arithmetic on the price, where either is [NaN], which stands for it. *)
  match lookup tierId entry with
  | Some p => found p ("Catalog (" ++ method ++ " Tier)") sku
  | None =>
  if inherited tierId then found nan ("Catalog (" ++ method ++ " Tier)") sku else
  (* 2. fuzzy tier match *)
  match find (fuzzyTierMatch tierId) (keys entry) with
  | Some (String c k as fuzzyTier) =>
      found (valueOf entry fuzzyTier) ("Catalog (" ++ method ++ " Fuzzy '" ++ fuzzyTier ++ "')") sku
  | _ =>
  (* 3. single column *)
  match keys entry with
  | [k0] => found (valueOf entry k0) ("Catalog (" ++ method ++ " Fallback '" ++ k0 ++ "')") sku
  | ks =>
  (* 4. a "price" or "list" column *)
  match find genericColumn ks with
  | Some (String c k as genericKey) =>
      found (valueOf entry genericKey) ("Catalog (" ++ method ++ " Generic '" ++ genericKey ++ "')") sku
  | _ =>
  (* 5. the first column *)
  match ks with
  | k0 :: _ => found (valueOf entry k0) ("Catalog (" ++ method ++ " Blind Fallback '" ++ k0 ++ "')") sku
  | [] => None
  end end end end end.

(** [/[A-Z]$/]. *)
Definition mLastLetter : matcher := fun s =>
  match s with
  | String c EmptyString => if isAZ c then Some (1, "") else None
  | _ => None
  end.

(** The first of the candidate keys that the catalogue has. *)
Fixpoint firstPresent {V : Type} (d : dict V) (cands : list string) : option (string * V) :=
  match cands with
  | [] => None
  | c :: r =>
      match lookup c d with
      | Some v => Some (c, v)
      | None => firstPresent d r
      end
  end.

(** [s.match(re)] for the wall pattern [^(W\d{2})(\d{2})(<letters>)$],
    where [<letters>] is any run of [A-Z], possibly empty: the three
    groups. *)
Definition wallMatch (s : string) : option (string * string * string) :=
  if startsWith s "W" && Nat.leb 5 (String.length s)
     && forallChars isDigit (take 4 (drop 1 s)) && forallChars isAZ (drop 5 s)
  then Some (take 3 s, take 2 (drop 3 s), drop 5 s) else None.

(** [s.match(/^([A-Z]{1,4}\d{2,5})/)]: one to four letters, then two to
    five of the digits that follow. *)
Definition coreMatch (s : string) : option string :=
  let n := spanLen isAZ s in
  let d := spanLen isDigit (drop n s) in
  if Nat.leb 1 n && Nat.leb n 4 && Nat.leb 2 d
  then Some (take (n + Nat.min d 5) s) else None.

(** The prefixes of length [len - 1] down to [3], longest first, each with
    the part cut off. *)
Fixpoint shortenings (s : string) (n : nat) : list (string * string) :=
  match n with
  | O => []
  | S k => if Nat.ltb 2 k then (take k s, drop k s) :: shortenings s k else []
  end.

Fixpoint firstShortening (d : dict (dict float)) (l : list (string * string))
    : option (string * string * dict float) :=
  match l with
  | [] => None
  | (sub, cut) :: r =>
      match lookup sub d with
      | Some e => Some (sub, cut, e)
      | None => firstShortening d r
      end
  end.

Definition findCatalogPrice (rawSku : string) (cat : dict (dict float)) (tierId : string)
    (strict : bool) : option Match :=
  let cleanSku := normalizeLookup rawSku in
  if negb (nonEmpty cleanSku) || String.eqb cleanSku "UNKNOWN" then None else
  (* 1. exact *)
  match lookup cleanSku cat with
  | Some e => getPriceFromItem e tierId cleanSku "Exact"
  | None =>
  (* 2. without dashes *)
  match lookup (removeChar "-" cleanSku) cat with
  | Some e => getPriceFromItem e tierId cleanSku "Hyphen-Insensitive"
  | None =>
  (* 3. a dash before the final digits, when a letter stands before them *)
  let prefix := stripTrailing isDigit cleanSku in
  let suffix := drop (String.length prefix) cleanSku in
  let inserted :=
    if nonEmpty suffix && testRe mLastLetter prefix
    then lookup (prefix ++ "-" ++ suffix) cat else None in
  match inserted with
  | Some e => getPriceFromItem e tierId cleanSku "Inserted-Hyphen"
  | None =>
  if strict then None else
  (* 4. neighbour heights of a wall cabinet *)
  let neighbour :=
    match wallMatch cleanSku with
    | Some (prefix, hStr, suffix) =>
        let h := parseInt hStr in
        firstPresent cat
          (flat_map (fun nh =>
                       (prefix ++ intToString nh ++ suffix)
                       :: (if nonEmpty suffix then [prefix ++ intToString nh] else []))
                    [h + 1; h - 1; h + 2; h - 2]%Z)
    | None => None
    end in
  match neighbour with
  | Some (candidate, e) =>
      getPriceFromItem e tierId candidate ("Neighbor (Matched " ++ candidate ++ ")")
  | None =>
  (* 5. suffix stripping *)
  match firstShortening cat (shortenings cleanSku (String.length cleanSku)) with
  | Some (sub, strippedPart, e) =>
      getPriceFromItem e tierId sub ("Similar (Stripped " ++ strippedPart ++ ")")
  | None =>
  (* 6. core extraction *)
  match coreMatch cleanSku with
  | Some core =>
      match lookup core cat with
      | Some e => getPriceFromItem e tierId core "Core Extraction"
      | None => None
      end
  | None => None
  end end end end end end.

(** ** The pricing calculator ([calculateProjectPricing]) *)

(** [o || d] for an optional string and for an optional number. *)
Definition strOr (o : option string) (d : string) : string :=
  match o with
  | Some s => if nonEmpty s then s else d
  | None => d
  end.

Definition numOr (o : option float) (d : float) : float :=
  match o with
  | Some x => Num.orElse x d
  | None => d
  end.

(** Specifications with no property set: [{}]. *)
Definition noSpecs : ProjectSpecs :=
  {| priceGroup := None; selectedOptions := None; drawerBox := None; hingeType := None;
     woodSpecies := None; finishColor := None; glaze := None; finishOption1 := None;
     finishOption2 := None; printedEndOption := None; wallDoorOption := None;
     baseDoorOption := None; dynamicSelections := None |}.

(** [{ ...specs, ...room }]: a property of the room wins. *)
Definition orField {A : Type} (r g : option A) : option A :=
  match r with Some v => Some v | None => g end.

Definition mergeSpecs (g : option ProjectSpecs) (r : ProjectSpecs) : ProjectSpecs :=
  let get {A : Type} (f : ProjectSpecs -> option A) : option A :=
    orField (f r) (match g with Some s => f s | None => None end) in
  {| priceGroup := get priceGroup;
     selectedOptions := get selectedOptions;
     drawerBox := get drawerBox;
     hingeType := get hingeType;
     woodSpecies := get woodSpecies;
     finishColor := get finishColor;
     glaze := get glaze;
     finishOption1 := get finishOption1;
     finishOption2 := get finishOption2;
     printedEndOption := get printedEndOption;
     wallDoorOption := get wallDoorOption;
     baseDoorOption := get baseDoorOption;
     dynamicSelections := get dynamicSelections |}.

Definition optionalList {A : Type} (o : option A) : list A :=
  match o with Some a => [a] | None => [] end.

(** The drop-down values of the specs that name an option. *)
Definition potentialOptionNames (s : ProjectSpecs) : list string :=
  filter (fun val => nonEmpty val && negb (String.eqb val "None")
                     && negb (String.eqb val "Standard") && negb (String.eqb val "No"))
    (flat_map optionalList
       [drawerBox s; hingeType s; woodSpecies s; finishColor s; glaze s;
        finishOption1 s; finishOption2 s; printedEndOption s;
        wallDoorOption s; baseDoorOption s]
     ++ match dynamicSelections s with Some d => map snd d | None => [] end)%list.

Definition getOptionsForSpecs (opts : list ManufacturerOption) (s : option ProjectSpecs)
    : list ManufacturerOption :=
  let checked (o : ManufacturerOption) : bool :=
    match s with
    | Some sp =>
        match selectedOptions sp with
        | Some d =>
            match lookup (opt_id o) d with Some b => b | None => inherited (opt_id o) end
        | None => false
        end
    | None => false
    end in
  let checkboxOptions := filter checked opts in
  let names := match s with Some sp => potentialOptionNames sp | None => [] end in
  let dropdownOptions :=
    filter (fun o => existsb (fun name => nonEmpty name &&
                                String.eqb (toLowerCase name) (toLowerCase (opt_name o))) names)
           opts in
  (checkboxOptions
   ++ filter (fun d => negb (existsb (fun c => String.eqb (opt_id c) (opt_id d)) checkboxOptions))
             dropdownOptions)%list.

(** The running [optionsPrice] and [appliedOptionsLog]. *)
Definition Charges := (float * list AppliedOption)%type.

Definition charge (ch : Charges) (name : string) (p : float) (sec : option string) : Charges :=
  ((fst ch + p)%float,
   (snd ch ++ [{| ao_name := name; ao_price := p; sourceSection := sec |}])%list).

(* 1. MODIFICATIONS *)
Definition applyModifications (mods : list ItemModification) (ch : Charges) : Charges :=
  fold_left (fun ch m => charge ch (mod_description m) (Num.orElse (mod_price m) 0)
                                (Some "PDF Extraction"))
            mods ch.

(* 2. MANUFACTURER OPTIONS *)
Definition applies (ty : CabinetType) (opt : ManufacturerOption) : bool :=
  negb (String.eqb (opt_section opt) "E-Drawer" && negb (CabinetType_eqb ty Base))
  && negb (String.eqb (opt_section opt) "F-Hinge" && CabinetType_eqb ty Filler)
  && negb (String.eqb (opt_section opt) "F-Hinge" && CabinetType_eqb ty Panel)
  && negb (includes (toLowerCase (opt_name opt)) "wall" && negb (CabinetType_eqb ty Wall))
  && negb (includes (toLowerCase (opt_name opt)) "base" && negb (CabinetType_eqb ty Base))
  && negb (Nat.ltb 50 (String.length (opt_name opt)) && PrimFloat.eqb (opt_price opt) 0).

Definition applyFixedOption (ty : CabinetType) (ch : Charges) (opt : ManufacturerOption) : Charges :=
  if applies ty opt then
    let addPrice := match pricingType opt with fixed => opt_price opt | _ => 0%float end in
    if (0 <? addPrice)%float
       || (PrimFloat.eqb (opt_price opt) 0 && Nat.ltb (String.length (opt_name opt)) 50)
    then charge ch (opt_name opt) addPrice (Some (opt_section opt))
    else ch
  else ch.

(* 4. PERCENTAGE OPTIONS *)
Definition pctOf (opt : ManufacturerOption) : float :=
  if (1 <? opt_price opt)%float then (opt_price opt / 100)%float else opt_price opt.

(** [x.toFixed(0)]. *)
Definition fixed0 (host : Host) (x : float) : string :=
  match Num.toFixed0 x with
  | Some s => s
  | None => numberToString host x
  end.

Definition applyPercentageOption (host : Host) (basePrice : float) (ch : Charges)
    (opt : ManufacturerOption) : Charges :=
  match pricingType opt with
  | percentage =>
      let pct := pctOf opt in
      let addPrice := (basePrice * pct)%float in
      if Nat.ltb 50 (String.length (opt_name opt)) && PrimFloat.eqb addPrice 0 then ch
      else charge ch (opt_name opt ++ " (" ++ fixed0 host (pct * 100)%float ++ "%)")
                  addPrice (Some (opt_section opt))
  | _ => ch
  end.

(** The first key of the list that the strict matcher finds, with the
    source rewritten by [label]. *)
Fixpoint firstStrict (cat : dict (dict float)) (tierName : string)
    (label : string -> string) (ks : list string) : option Match :=
  match ks with
  | [] => None
  | key :: r =>
      match findCatalogPrice key cat tierName true with
      | Some m => Some {| price := price m; m_source := label key; matchedSku := matchedSku m |}
      | None => firstStrict cat tierName label r
      end
  end.

Definition orTry {A : Type} (o : option A) (next : option A) : option A :=
  match o with Some _ => o | None => next end.

(** Pass 5: a catalogue key that starts with the code and is at most
    three characters longer. *)
Definition globalPrefixMatch (original : string) (cat : dict (dict float)) (tierName : string)
    : option Match :=
  let cleanSku := normalizeLookup original in
  if nonEmpty cleanSku && negb (String.eqb cleanSku "UNKNOWN") then
    match find (fun k => let normK := normalizeLookup k in
                         startsWith normK cleanSku
                         && Nat.leb (String.length normK) (String.length cleanSku + 3))
               (keys cat) with
    | Some (String c k as potentialMatch) =>
        match lookup potentialMatch cat with
        | Some e => getPriceFromItem e tierName potentialMatch
                      ("Catalog (Global Prefix Match '" ++ potentialMatch ++ "')")
        | None => None
        end
    | _ => None
    end
  else None.

(* 3. BASE PRICE LOOKUP: the five passes *)
Definition matchCatalog (host : Host) (it : CabinetItem) (cat : dict (dict float))
    (tierName : string) : option Match :=
  let (exact, similar) := generateSmartKeys host it in
  orTry (findCatalogPrice (originalCode it) cat tierName true)
  (orTry (firstStrict cat tierName (fun key => "Catalog (Exact Match '" ++ key ++ "')") exact)
  (orTry (firstStrict cat tierName (fun key => "Catalog (Similar Match '" ++ key ++ "')") similar)
  (orTry (findCatalogPrice (originalCode it) cat tierName false)
         (globalPrefixMatch (originalCode it) cat tierName)))).

(** [basePrice], [source] and [matchedSku] once the passes are over. *)
Definition resolveBase (it : CabinetItem) (m : option Match) : float * string * string :=
  match m with
  | Some m => (price m, m_source m, matchedSku m)
  | None =>
      match extractedPrice it with
      | Some p =>
          if Num.truthy p && (0 <? p)%float
          then (p, "Extracted from PDF", originalCode it)
          else (0%float, "NOT FOUND", originalCode it)
      | None => (0%float, "NOT FOUND", originalCode it)
      end
  end.

Definition typePriority (t : CabinetType) : Z :=
  match t with
  | Base => 1 | Wall => 2 | Tall => 3 | Panel => 4 | Filler => 5
  | Accessory => 6 | Modification => 7 | _ => 99
  end.

(** The comparator of the final sort, by its sign. *)
Definition compareLines (host : Host) (a b : PricingLineItem) : comparison :=
  match (typePriority (type (item a)) ?= typePriority (type (item b)))%Z with
  | Eq => localeCompare host (originalCode (item a)) (originalCode (item b))
  | c => c
  end.

(** [Array.prototype.sort], which is stable: an element goes before the
    first element it is not greater than. *)
Fixpoint insertBy {A : Type} (cmp : A -> A -> comparison) (x : A) (l : list A) : list A :=
  match l with
  | [] => [x]
  | y :: r =>
      match cmp x y with
      | Gt => y :: insertBy cmp x r
      | _ => x :: l
      end
  end.

Definition sortBy {A : Type} (cmp : A -> A -> comparison) (l : list A) : list A :=
  fold_right (insertBy cmp) [] l.

Section Calculator.

Variable host : Host.
Variable manufacturer : Manufacturer.
Variable tierId : string.
Variable specs : option ProjectSpecs.
Variable financials : option ProjectFinancials.
Variable roomSpecs : option (dict ProjectSpecs).

Definition globalTierName : string :=
  match orTry (find (fun t => String.eqb (tier_id t) tierId) (tiers manufacturer))
              (hd_error (tiers manufacturer)) with
  | Some globalTier => tier_name globalTier
  | None => strOr (match specs with Some s => priceGroup s | None => None end) "Standard"
  end.

Definition globalOptions : list ManufacturerOption :=
  getOptionsForSpecs (options manufacturer) specs.

(** The specs of the room of the item, when [roomSpecs[item.room]] is
    truthy: the room has specs of its own, or its name is inherited from
    [Object.prototype]; what is read then is a function or the prototype,
    which the spread [{ ...specs, ...room }] takes no property from. *)
Definition roomOverride (it : CabinetItem) : option ProjectSpecs :=
  match room it, roomSpecs with
  | Some r, Some rs =>
      if nonEmpty r then
        match lookup r rs with
        | Some s => Some s
        | None => if inherited r then Some noSpecs else None
        end
      else None
  | _, _ => None
  end.

Definition effectiveTierName (it : CabinetItem) : string :=
  match roomOverride it with
  | Some rs => strOr (priceGroup (mergeSpecs specs rs)) globalTierName
  | None => globalTierName
  end.

Definition activeOptions (it : CabinetItem) : list ManufacturerOption :=
  match roomOverride it with
  | Some rs => getOptionsForSpecs (options manufacturer) (Some (mergeSpecs specs rs))
  | None => globalOptions
  end.

Definition globalFactor : float :=
  numOr (match financials with Some f => fin_pricingFactor f | None => None end)
        (Num.orElse (basePricingMultiplier manufacturer) 1).

Definition roomFactor (it : CabinetItem) : float :=
  match room it, financials with
  | Some r, Some f =>
      match roomFactors f with
      | Some d =>
          match lookup r d with
          | Some x => if nonEmpty r && Num.truthy x then x else globalFactor
          | None => if inherited r then nan else globalFactor
          end
      | None => globalFactor
      end
  | _, _ => globalFactor
  end.

Definition marginOf (it : CabinetItem) : float :=
  let margin := numOr (match financials with Some f => globalMargin f | None => None end) 0 in
  match financials with
  | Some f =>
      match categoryMargins f with
      | Some d =>
          match lookup (strOr (Some (effectiveTierName it)) "Standard") d with
          | Some x => if Num.truthy x then x else margin
          | None =>
              if inherited (strOr (Some (effectiveTierName it)) "Standard") then nan
              else margin
          end
      | None => margin
      end
  | None => margin
  end.

Definition marginDecimal (it : CabinetItem) : float :=
  let margin := marginOf it in
  if (1 <? margin)%float then (margin / 100)%float else margin.

(** The base price as matched, before any rounding. *)
Definition baseOf (it : CabinetItem) : float * string * string :=
  resolveBase it (matchCatalog host it (catalog manufacturer) (effectiveTierName it)).

(** [optionsPrice] and [appliedOptionsLog] after steps 1, 2 and 4. *)
Definition chargesOf (it : CabinetItem) : Charges :=
  let ch := applyModifications (modifications it) (0%float, []) in
  let ch := fold_left (applyFixedOption (type it)) (activeOptions it) ch in
  fold_left (applyPercentageOption host (fst (fst (baseOf it)))) (activeOptions it) ch.

Definition rawUnitCost (it : CabinetItem) : float :=
  ((fst (fst (baseOf it)) + fst (chargesOf it)) * roomFactor it)%float.

Definition unitSell (it : CabinetItem) : float :=
  if (1 <=? marginDecimal it)%float then rawUnitCost it
  else (rawUnitCost it / (1 - marginDecimal it))%float.

(** The body of the [forEach] for an item that is not garbage. *)
Definition priceItem (it : CabinetItem) : PricingLineItem :=
  let '(basePrice, source, matchedSku) := baseOf it in
  {| item := it;
     li_normalizedCode := matchedSku;
     basePrice := Num.round basePrice;
     optionsPrice := Num.round (fst (chargesOf it));
     tierMultiplier := 1;
     unitCost := Num.toFixed2 (rawUnitCost it);
     finalUnitPrice := Num.toFixed2 (unitSell it);
     totalPrice := Num.toFixed2 (unitSell it * quantity it)%float;
     pricingFactor := roomFactor it;
     margin := (marginDecimal it * 100)%float;
     tierName := strOr (Some (effectiveTierName it)) "Standard";
     source := source;
     appliedOptions := snd (chargesOf it) |}.

Definition results (items : list CabinetItem) : list PricingLineItem :=
  flat_map (fun it => if isGarbageItem it then [] else [priceItem it]) items.

Definition calculateProjectPricing (items : list CabinetItem) : list PricingLineItem :=
  sortBy (compareLines host) (results items).

End Calculator.

(** ** Closed inputs for the examples *)

(** A host for the closed examples below: a number prints as the decimal
    integer nearest to it (exact for the integral dimensions used here),
    and codes are compared code unit by code unit. *)
Definition sampleHost : Host :=
  {| numberToString := fun x => match Num.toFixed0 x with Some s => s | None => "" end;
     localeCompare := String.compare |}.

Definition standardTier : PricingTier :=
  {| tier_id := "standard"; tier_name := "Standard"; tier_multiplier := 1 |}.

(** The manufacturer of the repository's test drivers, with a given
    catalogue and list of options. *)
Definition testMfg (opts : list ManufacturerOption) (cat : dict (dict float)) : Manufacturer :=
  {| basePricingMultiplier := 1; tiers := [standardTier]; options := opts; catalog := cat |}.

Definition testItem (code : string) (ty : CabinetType) (w qty : float) : CabinetItem :=
  {| id := "1"; originalCode := code; normalizedCode := code; type := ty;
     description := "Cabinet"; width := w; height := 30; depth := 24;
     quantity := qty; room := None; modifications := []; extractedPrice := None |}.

Definition financialsOf (factor margin : option float) : ProjectFinancials :=
  {| fin_pricingFactor := factor; globalMargin := margin;
     roomFactors := None; categoryMargins := None |}.


(** A catalogue with the one row [B15], priced [p] in the column
    "Standard". *)
Definition oneRow (code : string) (p : float) : dict (dict float) :=
  [(code, [("Standard", p)])].

(** Margin 35 (per cent), no pricing factor. *)
Definition margin35 : option ProjectFinancials := Some (financialsOf None (Some 35%float)).

(** The rate the specification gives a percentage option: the stored value
    itself if it is at most 1, a hundredth of it otherwise. *)
Definition specRate (stored : float) : float :=
  if (stored <=? 1)%float then stored else (stored / 100)%float.

(** The test driver's option "Finish: Painted", a percentage option
    storing 15, and a percentage option named after wall cabinets. *)
Definition paintedOption : ManufacturerOption :=
  {| opt_id := "opt-1"; opt_name := "Finish: Painted"; opt_section := "D-Finish";
     pricingType := percentage; opt_price := 15 |}.

Definition wallUpcharge : ManufacturerOption :=
  {| opt_id := "opt-2"; opt_name := "Wall glass door"; opt_section := "E-Drawer";
     pricingType := percentage; opt_price := 10 |}.

Definition specsSelecting (optId : string) : option ProjectSpecs :=
  Some {| priceGroup := None; selectedOptions := Some [(optId, true)]; drawerBox := None;
          hingeType := None; woodSpecies := None; finishColor := None; glaze := None;
          finishOption1 := None; finishOption2 := None; printedEndOption := None;
          wallDoorOption := None; baseDoorOption := None; dynamicSelections := None |}.

(** The entry a percentage option leaves in the log. *)
Definition percentageEntry (host : Host) (basePrice : float) (opt : ManufacturerOption)
    : AppliedOption :=
  {| ao_name := opt_name opt ++ " (" ++ fixed0 host (pctOf opt * 100)%float ++ "%)";
     ao_price := (basePrice * pctOf opt)%float;
     sourceSection := Some (opt_section opt) |}.

(** The test a percentage option has to pass: only a long name with a
    zero surcharge is left out. *)
Definition percentageSkipped (basePrice : float) (opt : ManufacturerOption) : bool :=
  Nat.ltb 50 (String.length (opt_name opt)) && PrimFloat.eqb (basePrice * pctOf opt) 0.

(** Pricing factor 0.45 and margin 35 (per cent). *)
Definition factor45margin35 : option ProjectFinancials :=
  Some (financialsOf (Some (45 / 100)%float) (Some 35%float)).

(** ** Notions used in the statements about the matcher *)

(** The five ways a row yields a price, told by the source they write. *)
Definition rowSources (method : string) (col : string) : list string :=
  ["Catalog (" ++ method ++ " Tier)";
   "Catalog (" ++ method ++ " Fuzzy '" ++ col ++ "')";
   "Catalog (" ++ method ++ " Fallback '" ++ col ++ "')";
   "Catalog (" ++ method ++ " Generic '" ++ col ++ "')";
   "Catalog (" ++ method ++ " Blind Fallback '" ++ col ++ "')"].

(** The price of a match is the value of a column of a row of the
    catalogue. *)
Definition fromCatalog (cat : dict (dict float)) (p : float) : Prop :=
  exists key row col, lookup key cat = Some row /\ lookup col row = Some p.

(** The three methods of the strict matcher. *)
Definition strictMethods : list string := ["Exact"; "Hyphen-Insensitive"; "Inserted-Hyphen"].

(** Passes 1 to 3 of the base price lookup: the strict matcher on the
    original code, then on the exact keys, then on the similar keys. *)
Definition strictPasses (host : Host) (it : CabinetItem) (cat : dict (dict float))
    (tierName : string) : option Match :=
  orTry (findCatalogPrice (originalCode it) cat tierName true)
  (orTry (firstStrict cat tierName (fun key => "Catalog (Exact Match '" ++ key ++ "')")
            (fst (generateSmartKeys host it)))
         (firstStrict cat tierName (fun key => "Catalog (Similar Match '" ++ key ++ "')")
            (snd (generateSmartKeys host it)))).

(** ** Notions used in the statements about the key generator *)

(** The characters of the text that satisfy [p], in order. *)
Fixpoint filterChars (p : ascii -> bool) (s : string) : string :=
  match s with
  | EmptyString => EmptyString
  | String c r => if p c then String c (filterChars p r) else filterChars p r
  end.

(** A text in the form the matcher looks up: no white space, no
    lower-case letter. *)
Definition lookupChar (c : ascii) : bool := negb (isSpace c) && negb (isLower c).
Definition lookupForm (k : string) : bool := forallChars lookupChar k.

(** The state of the closure variables when [generateSmartKeys] returns. *)
Definition smartKeysState (host : Host) (it : CabinetItem) : Keys :=
  strategy8 it (strategy7 it (strategy6 host it (strategy5 it (strategy4 it
    (strategy3 it (strategy2 it (strategy1_5 it (strategy1 it (strategy0 it noKeys))))))))).

Definition allKeys (st : Keys) : list string := (exactKeys st ++ similarKeys st)%list.

(** The keys generated so far are ASCII texts. *)
Definition asciiKeys (st : Keys) : Prop := Forall (fun k => isAscii k = true) (allKeys st).

(** ** Notions used in the statements about the normaliser *)

(** [subseq s t]: [s] is [t] with some characters deleted. *)
Inductive subseq : string -> string -> Prop :=
  | subseq_nil : subseq "" ""
  | subseq_skip (c : ascii) (s t : string) : subseq s t -> subseq s (String c t)
  | subseq_keep (c : ascii) (s t : string) : subseq s t -> subseq (String c s) (String c t).

(** [n] passes of [f]. *)
Fixpoint iterate {A : Type} (n : nat) (f : A -> A) (x : A) : A :=
  match n with
  | O => x
  | S k => f (iterate k f x)
  end.

(** The characters a normalised code is made of: no lower-case letter, no
    "$", no "@", and no white space but the space itself. *)
Definition normalChar (c : ascii) : bool :=
  negb (isLower c) && negb (Ascii.eqb c "$") && negb (Ascii.eqb c "@")
  && (negb (isSpace c) || Ascii.eqb c " ").

(** The normaliser from the removal of the gap between letters and
    digits on: what it does to the text once upper-cased, trimmed, freed
    of the symbol errors and with its white space collapsed. *)
Definition laterSteps (code : string) : string :=
  let code := replaceAll mLetterGapDigit 0 code in
  let code := if testAtStart (mNoise "10") code then replaceFirst (mNoise "10") code else code in
  let code := if testAtStart (mNoise "0") code then replaceFirst (mNoise "0") code else code in
  let code := replaceFirst (mEnd ["-2B"; "2B"]) code in
  let code := replaceFirst (mEnd ["(L)"; "(R)"]) code in
  let code := replaceAll mDepth 0 code in
  let code := replaceAll mTD 0 code in
  let code := replaceAll (mLit "ROT" "") 0 code in
  let code := dropDotsNotBeforeDigit (dropDotsNotAfterDigit false code) in
  let code := replaceFirst (mConstruction "AH") code in
  let code := replaceFirst (mConstruction "VH") code in
  let code := replaceFirst (mConstruction "PH") code in
  let code := replaceFirst (mEnd ["HD"]) code in
  let code := if startsWith code "DHW" then "DW" ++ drop 3 code else code in
  let code :=
    if testRe mDigitSide code || testRe mDigitDashSide code
    then replaceFirst (mEnd ["-L"; "-R"; "L"; "R"]) code else code in
  let code := replaceFirst (mEnd ["-LH"; "LH"]) code in
  let code := replaceFirst (mEnd ["-RH"; "RH"]) code in
  let code := replaceFirst (mEnd ["-FEL"; "-FER"; "-FE"; "FEL"; "FER"; "FE"]) code in
  let code := replaceFirst (mEnd ["-FE"; "FE"]) code in
  code.

(** The two symbol corrections. *)
Definition fixDollar (c : ascii) : ascii := if Ascii.eqb c "$" then "B"%char else c.
Definition fixAt (c : ascii) : ascii := if Ascii.eqb c "@" then "0"%char else c.

(** The first steps of the normaliser. *)
Definition firstSteps (rawCode : string) : string :=
  trim (replaceAll mSpaces 0 (mapChars fixAt (mapChars fixDollar (trim (toUpperCase rawCode))))).

(** What is known of a character after upper-casing and the symbol
    corrections, before the white space is dealt with. *)
Definition plainChar (c : ascii) : bool :=
  negb (isLower c) && negb (Ascii.eqb c "$") && negb (Ascii.eqb c "@").

(** One call of [add], with [rec] standing for the calls it makes. *)
Definition addStep (rec : string -> Category -> bool -> Keys -> Keys)
    (k : string) (category : Category) (allowNeighbors : bool) (st : Keys) : Keys :=
  if negb (nonEmpty k) then st else
  let upper := removeSpaces (toUpperCase k) in
  if has upper (processed st) then st else
  let st := push category upper st in
  let st :=
    match lettersDigits upper with
    | Some (l, d) =>
        let hyphenated := l ++ "-" ++ d in
        if has hyphenated (processed st) then st else push category hyphenated st
    | None => st
    end in
  let st :=
    if includes upper "-" then
      let base := beforeChar "-" upper in
      let suffix := afterChar "-" upper in
      if cosmeticSuffix suffix then rec base category allowNeighbors st else st
    else st in
  if allowNeighbors then
    match widthMatch upper with
    | Some (prefix, wStr) =>
        if has prefix neighborFamilies then
          let w := parseInt wStr in
          let near (p : string) (n : Z) := rec (p ++ intToString n) Similar false in
          let st := near prefix (w - 3)%Z st in
          let st := near prefix (w + 3)%Z st in
          let st := near prefix (w - 6)%Z st in
          let st := near prefix (w + 6)%Z st in
          let st :=
            if String.eqb prefix "SB" then near "VSB" w (near "B" w st) else st in
          if String.eqb prefix "VSB" then near "VDB" w (near "SB" w st) else st
        else st
    | None => st
    end
  else st.

Definition notDash (c : ascii) : bool := negb (Ascii.eqb c "-").

(** The rows of a catalogue whose key is in lookup form. *)
Definition lookupRows {V : Type} (cat : dict V) : dict V :=
  filter (fun kv => lookupForm (fst kv)) cat.

(** ** Notions used in the statements about the log of applied options *)

(** The prices of a log summed from the left, the way [optionsPrice]
    accumulates them. *)
Definition logTotal (log : list AppliedOption) : float :=
  fold_left (fun acc a => (acc + ao_price a)%float) log 0%float.

(** The entry a modification of the item leaves in the log. *)
Definition modificationEntry (m : ItemModification) : AppliedOption :=
  {| ao_name := mod_description m; ao_price := Num.orElse (mod_price m) 0;
     sourceSection := Some "PDF Extraction" |}.

(** The entry an option leaves in the log in step 2. *)
Definition fixedEntry (opt : ManufacturerOption) : AppliedOption :=
  {| ao_name := opt_name opt;
     ao_price := match pricingType opt with fixed => opt_price opt | _ => 0%float end;
     sourceSection := Some (opt_section opt) |}.

(** The invariant of the three loops: the running price is the total of
    the log. *)
Definition balanced (ch : Charges) : Prop := fst ch = logTotal (snd ch).

(** What step 2 leaves in the log comes from options in force that apply
    to the type, and has no negative price. *)
Definition fromFixedLoop (ty : CabinetType) (opts : list ManufacturerOption)
    (a : AppliedOption) : Prop :=
  exists opt, In opt opts /\ applies ty opt = true /\ a = fixedEntry opt
              /\ (0 <=? ao_price a)%float = true.

(** What step 4 leaves in the log comes from percentage options in force. *)
Definition fromPercentageLoop (host : Host) (base : float) (opts : list ManufacturerOption)
    (a : AppliedOption) : Prop :=
  exists opt, In opt opts /\ pricingType opt = percentage /\ a = percentageEntry host base opt.

(** What [find] of pass 5 tests on a key of the catalogue. *)
Definition closeKey (original k : string) : bool :=
  startsWith (normalizeLookup k) (normalizeLookup original)
  && Nat.leb (String.length (normalizeLookup k)) (String.length (normalizeLookup original) + 3).

(** ** The rule-based type classifier of the plan analyser *)

(** [getTypeFromCode] of the plan analyser, which [analyzePlan] applies to
    the normalised code of every extracted item; [None] is [null]. *)
Definition getTypeFromCode (code : string) : option CabinetType :=
  let c := trim (toUpperCase code) in
  if negb (nonEmpty c) then None
  else if startsWith c "VSB" || startsWith c "VDB" || startsWith c "V" then Some Vanity
  else if startsWith c "W" || startsWith c "DC" || startsWith c "WDC" || startsWith c "WBC"
  then Some Wall
  else if startsWith c "B" || startsWith c "SB" || startsWith c "SKB" || startsWith c "DB"
          || startsWith c "LS" || startsWith c "BEC" || startsWith c "BBC" || startsWith c "K"
          || startsWith c "BTK" || startsWith c "SHB" || startsWith c "BC"
          || startsWith c "EZR" || startsWith c "DCB"
  then Some Base
  else if startsWith c "T" || startsWith c "O" || startsWith c "P" then Some Tall
  else if startsWith c "F" || startsWith c "UF" || startsWith c "U" || startsWith c "WF"
          || startsWith c "TF"
  then Some Filler
  else None.

(** The classifier with sixteen of its twenty-eight prefixes. *)
Definition typeByLeadingLetters (code : string) : option CabinetType :=
  let c := trim (toUpperCase code) in
  if startsWith c "V" then Some Vanity
  else if startsWith c "W" || startsWith c "DC" then Some Wall
  else if startsWith c "B" || startsWith c "SB" || startsWith c "SKB" || startsWith c "DB"
          || startsWith c "LS" || startsWith c "K" || startsWith c "SHB" || startsWith c "EZR"
  then Some Base
  else if startsWith c "T" || startsWith c "O" || startsWith c "P" then Some Tall
  else if startsWith c "F" || startsWith c "U" then Some Filler
  else None.
(** ** General facts about the calculator *)

Lemma In_insertBy {A : Type} (cmp : A -> A -> comparison) (x y : A) (l : list A) :
  In y (insertBy cmp x l) <-> y = x \/ In y l.
Proof.
  induction l as [|z r IH]; simpl.
  - intuition.
  - destruct (cmp x z); simpl; rewrite ?IH; intuition.
Qed.

Lemma In_sortBy {A : Type} (cmp : A -> A -> comparison) (y : A) (l : list A) :
  In y (sortBy cmp l) <-> In y l.
Proof.
  induction l as [|x r IH]; simpl.
  - tauto.
  - rewrite In_insertBy, IH. intuition.
Qed.

Lemma length_insertBy {A : Type} (cmp : A -> A -> comparison) (x : A) (l : list A) :
  List.length (insertBy cmp x l) = S (List.length l).
Proof.
  induction l as [|z r IH]; simpl; [reflexivity|].
  destruct (cmp x z); simpl; rewrite ?IH; reflexivity.
Qed.

Lemma length_sortBy {A : Type} (cmp : A -> A -> comparison) (l : list A) :
  List.length (sortBy cmp l) = List.length l.
Proof.
  induction l as [|x r IH]; simpl; [reflexivity|].
  rewrite length_insertBy, IH. reflexivity.
Qed.

Section CalculatorFacts.

Variable host : Host.
Variable manufacturer : Manufacturer.
Variable tierId : string.
Variable specs : option ProjectSpecs.
Variable financials : option ProjectFinancials.
Variable roomSpecs : option (dict ProjectSpecs).

Let price1 := priceItem host manufacturer tierId specs financials roomSpecs.
Let calc := calculateProjectPricing host manufacturer tierId specs financials roomSpecs.

Lemma In_results (items : list CabinetItem) (l : PricingLineItem) :
  In l (results host manufacturer tierId specs financials roomSpecs items) <->
  exists it, In it items /\ isGarbageItem it = false /\ l = price1 it.
Proof.
  unfold results. rewrite in_flat_map. split.
  - intros [it [Hin Hl]]. exists it. destruct (isGarbageItem it); simpl in Hl.
    + contradiction.
    + destruct Hl as [Hl|[]]. auto.
  - intros [it [Hin [Hg Hl]]]. exists it. rewrite Hg. simpl. auto.
Qed.

Lemma In_calculate (items : list CabinetItem) (l : PricingLineItem) :
  In l (calc items) <->
  exists it, In it items /\ isGarbageItem it = false /\ l = price1 it.
Proof.
  unfold calc, calculateProjectPricing. rewrite In_sortBy. apply In_results.
Qed.

Lemma item_priceItem (it : CabinetItem) : item (price1 it) = it.
Proof.
  unfold price1, priceItem. destruct (baseOf _ _ _ _ _ _) as [[b s] k]. reflexivity.
Qed.

Lemma length_results (items : list CabinetItem) :
  List.length (results host manufacturer tierId specs financials roomSpecs items)
  = List.length (filter (fun it => negb (isGarbageItem it)) items).
Proof.
  unfold results. induction items as [|it r IH]; simpl; [reflexivity|].
  destruct (isGarbageItem it); simpl; rewrite IH; reflexivity.
Qed.

End CalculatorFacts.

(** ** Quantity scaling (C2) *)

(** Two numbers differ when the IEEE comparison tells them apart. *)
Lemma float_neq (a b : float) : PrimFloat.eqb a b = false -> PrimFloat.eqb a a = true -> a <> b.
Proof.
  intros Hab Haa E. rewrite <- E in Hab. congruence.
Qed.

(** C2, as stated, fails: a base cabinet listed at 100, sold at a margin of
    35 per cent, ten pieces.  The sell price 153.846... is rounded to
    153.85 for [finalUnitPrice], while [totalPrice] is 1538.46, the rounding
    of ten times the unrounded sell price, and not 1538.50. *)
Lemma total_is_not_rounded_unit_times_quantity :
  exists l,
    calculateProjectPricing sampleHost (testMfg [] (oneRow "B15" 100)) "standard"
      None margin35 None [testItem "B15" Base 15 10] = [l]
    /\ finalUnitPrice l = (15385 / 100)%float
    /\ totalPrice l = (153846 / 100)%float
    /\ Num.toFixed2 (finalUnitPrice l * quantity (item l))%float = (15385 / 10)%float
    /\ totalPrice l <> Num.toFixed2 (finalUnitPrice l * quantity (item l))%float.
Proof.
  eexists. split; [vm_compute; reflexivity|].
  repeat split; try (vm_compute; reflexivity).
  apply float_neq; vm_compute; reflexivity.
Qed.

(** C2 (amended): every line of the output comes from an item of the
    input, and for it [finalUnitPrice] is the sell price rounded to cents
    while [totalPrice] is the _unrounded_ sell price times the quantity,
    rounded to cents. *)
Theorem totalPrice_rounds_unrounded_sell
    (host : Host) (manufacturer : Manufacturer) (tierId : string)
    (specs : option ProjectSpecs) (financials : option ProjectFinancials)
    (roomSpecs : option (dict ProjectSpecs))
    (items : list CabinetItem) (l : PricingLineItem) :
  In l (calculateProjectPricing host manufacturer tierId specs financials roomSpecs items) ->
  let sell := unitSell host manufacturer tierId specs financials roomSpecs (item l) in
  In (item l) items
  /\ finalUnitPrice l = Num.toFixed2 sell
  /\ totalPrice l = Num.toFixed2 (sell * quantity (item l))%float.
Proof.
  intros Hin sell. apply In_calculate in Hin. destruct Hin as [it [Hit [_ Hl]]].
  assert (Hitem : item l = it) by (subst l; apply item_priceItem).
  subst sell. rewrite Hitem. split; [assumption|].
  subst l. unfold priceItem. destruct (baseOf _ _ _ _ _ it) as [[b s] k]. simpl. auto.
Qed.

Lemma totalPrice_rounds_unrounded_sell_witness :
  let l := priceItem sampleHost (testMfg [] (oneRow "B15" 100)) "standard"
             None margin35 None (testItem "B15" Base 15 10) in
  In (item l) [testItem "B15" Base 15 10]
  /\ finalUnitPrice l
     = Num.toFixed2 (unitSell sampleHost (testMfg [] (oneRow "B15" 100)) "standard"
                       None margin35 None (item l))
  /\ totalPrice l
     = Num.toFixed2 (unitSell sampleHost (testMfg [] (oneRow "B15" 100)) "standard"
                       None margin35 None (item l) * quantity (item l))%float.
Proof.
  intro l.
  apply (totalPrice_rounds_unrounded_sell sampleHost (testMfg [] (oneRow "B15" 100))
           "standard" None margin35 None [testItem "B15" Base 15 10] l).
  vm_compute. left. reflexivity.
Defined.

(** ** Percentage options (C3, C10) *)

(** [1 < x] fails exactly when [x <= 1] holds or [x] is [NaN]; in the
    latter case [x / 100] is [x] again. *)
Lemma pct_by_le (x : float) :
  (if (1 <? x)%float then (x / 100)%float else x)
  = (if (x <=? 1)%float then x else (x / 100)%float).
Proof.
  rewrite ltb_spec, leb_spec.
  destruct (Prim2SF x) as [s|s| |s m e] eqn:E;
    change (Prim2SF 1) with (S754_finite false 4503599627370496 (-52)).
  - reflexivity.
  - destruct s; reflexivity.
  - assert (Hx : x = nan).
    { apply Prim2SF_inj. rewrite E. reflexivity. }
    subst x. reflexivity.
  - unfold SFltb, SFleb, SFcompare. destruct s; [reflexivity|].
    rewrite (Z.compare_antisym e (-52)).
    destruct (e ?= -52)%Z; cbv [CompOpp]; try reflexivity.
    change (Pos.compare_cont Eq 4503599627370496 m)
      with (Pos.compare_cont (CompOpp Eq) 4503599627370496 m).
    rewrite <- (Pos.compare_cont_antisym m 4503599627370496 Eq).
    destruct (Pos.compare_cont Eq m 4503599627370496); reflexivity.
Qed.

Lemma pctOf_specRate (opt : ManufacturerOption) : pctOf opt = specRate (opt_price opt).
Proof. unfold pctOf, specRate. apply pct_by_le. Qed.

Lemma percentage_step (host : Host) (base : float) (ch : Charges) (opt : ManufacturerOption) :
  pricingType opt = percentage ->
  applyPercentageOption host base ch opt
  = if percentageSkipped base opt then ch
    else ((fst ch + base * pctOf opt)%float, (snd ch ++ [percentageEntry host base opt])%list).
Proof.
  intros Hp. unfold applyPercentageOption, percentageSkipped. rewrite Hp.
  destruct (_ && _); reflexivity.
Qed.

(** C3: in step 4 the running [optionsPrice] of an item is folded over
    its active options, and a percentage option adds the resolved base
    price times its rate, the rate being the stored value if it is at most
    1 and a hundredth of it otherwise (nothing is added only when that
    product is zero); a stored 15 on a base price of 200 adds 30. *)
Theorem percentage_option_adds_base_times_rate
    (host : Host) (manufacturer : Manufacturer) (tierId : string)
    (specs : option ProjectSpecs) (roomSpecs : option (dict ProjectSpecs))
    (it : CabinetItem) :
  let base := fst (fst (baseOf host manufacturer tierId specs roomSpecs it)) in
  let step := applyPercentageOption host base in
  (exists ch12, chargesOf host manufacturer tierId specs roomSpecs it
                = fold_left step (activeOptions manufacturer specs roomSpecs it) ch12)
  /\ (forall (ch : Charges) (opt : ManufacturerOption),
        pricingType opt = percentage ->
        fst (step ch opt) = (fst ch + base * specRate (opt_price opt))%float
        \/ (fst (step ch opt) = fst ch
            /\ PrimFloat.eqb (base * specRate (opt_price opt)) 0 = true))
  /\ (forall (ch : Charges) (opt : ManufacturerOption),
        pricingType opt = percentage -> opt_price opt = 15%float -> base = 200%float ->
        fst (step ch opt) = (fst ch + 30)%float).
Proof.
  intros base step. split; [|split].
  - eexists. reflexivity.
  - intros ch opt Hp. subst step. rewrite (percentage_step _ _ _ _ Hp).
    unfold percentageSkipped. rewrite <- pctOf_specRate.
    destruct (PrimFloat.eqb (base * pctOf opt) 0) eqn:E.
    + destruct (Nat.ltb 50 _); simpl; auto.
    + rewrite andb_false_r. simpl. auto.
  - intros ch opt Hp H15 Hb. subst step. rewrite (percentage_step _ _ _ _ Hp).
    unfold percentageSkipped, pctOf. rewrite H15, Hb.
    change (200 * (if 1 <? 15 then 15 / 100 else 15))%float with 30%float.
    change (PrimFloat.eqb 30 0) with false. rewrite andb_false_r. reflexivity.
Qed.

Lemma percentage_option_adds_base_times_rate_witness :
  (fst (applyPercentageOption sampleHost
          (fst (fst (baseOf sampleHost (testMfg [paintedOption] (oneRow "B15" 200)) "standard"
                       (specsSelecting "opt-1") None (testItem "B15" Base 15 1))))
          (0%float, []) paintedOption)
   = (0 + 30)%float)
  /\ pricingType paintedOption = percentage /\ opt_price paintedOption = 15%float.
Proof.
  split; [|split; reflexivity].
  apply (proj2 (proj2 (percentage_option_adds_base_times_rate sampleHost
           (testMfg [paintedOption] (oneRow "B15" 200)) "standard"
           (specsSelecting "opt-1") None (testItem "B15" Base 15 1))));
    vm_compute; reflexivity.
Defined.

Lemma percentage_log_grows (host : Host) (base : float) (opts : list ManufacturerOption)
    (ch : Charges) (e : AppliedOption) :
  In e (snd ch) -> In e (snd (fold_left (applyPercentageOption host base) opts ch)).
Proof.
  revert ch. induction opts as [|o r IH]; intros ch He; simpl; [assumption|].
  apply IH. unfold applyPercentageOption.
  destruct (pricingType o); try assumption.
  destruct (_ && _); [assumption|]. simpl. apply in_or_app. auto.
Qed.

Lemma percentage_log_has (host : Host) (base : float) (opts : list ManufacturerOption)
    (ch : Charges) (opt : ManufacturerOption) :
  In opt opts -> pricingType opt = percentage -> percentageSkipped base opt = false ->
  In (percentageEntry host base opt)
     (snd (fold_left (applyPercentageOption host base) opts ch)).
Proof.
  revert ch. induction opts as [|o r IH]; intros ch Hin Hp Hs; simpl; [destruct Hin|].
  destruct Hin as [->|Hin]; [|apply IH; assumption].
  apply percentage_log_grows. rewrite (percentage_step _ _ _ _ Hp), Hs. simpl.
  apply in_or_app. right. left. reflexivity.
Qed.

(** C10: a percentage option that is active for an item is applied to it
    whatever the type of the item, the applicability rules being consulted
    for the fixed charges of step 2 only: its entry, priced at the base
    price times its rate, is in the log of the line, unless its name is
    longer than 50 characters and the surcharge is zero, in which case the
    step leaves price and log as they are.  An option that fails the
    applicability rules adds nothing in step 2. *)
Theorem percentage_options_bypass_applicability
    (host : Host) (manufacturer : Manufacturer) (tierId : string)
    (specs : option ProjectSpecs) (financials : option ProjectFinancials)
    (roomSpecs : option (dict ProjectSpecs))
    (it : CabinetItem) (opt : ManufacturerOption) :
  In opt (activeOptions manufacturer specs roomSpecs it) ->
  pricingType opt = percentage ->
  let base := fst (fst (baseOf host manufacturer tierId specs roomSpecs it)) in
  (percentageSkipped base opt = false ->
     In (percentageEntry host base opt)
        (appliedOptions (priceItem host manufacturer tierId specs financials roomSpecs it)))
  /\ (forall ch, applyPercentageOption host base ch opt
                 = if percentageSkipped base opt then ch
                   else ((fst ch + base * pctOf opt)%float,
                         (snd ch ++ [percentageEntry host base opt])%list))
  /\ (forall ch, applies (type it) opt = false -> applyFixedOption (type it) ch opt = ch).
Proof.
  intros Hin Hp base. split; [|split].
  - intros Hs.
    assert (Hlog : appliedOptions (priceItem host manufacturer tierId specs financials roomSpecs it)
                   = snd (chargesOf host manufacturer tierId specs roomSpecs it)).
    { unfold priceItem. destruct (baseOf _ _ _ _ _ it) as [[b s] k]. reflexivity. }
    rewrite Hlog. unfold chargesOf. apply percentage_log_has; assumption.
  - intros ch. apply percentage_step. assumption.
  - intros ch Ha. unfold applyFixedOption. rewrite Ha. reflexivity.
Qed.

(** A percentage option of the drawer section, named after wall cabinets,
    on a base cabinet: the applicability rules reject it, and it is applied
    all the same. *)
Lemma percentage_options_bypass_applicability_witness :
  let m := testMfg [wallUpcharge] (oneRow "B15" 200) in
  let it := testItem "B15" Base 15 1 in
  applies (type it) wallUpcharge = false
  /\ In (percentageEntry sampleHost 200 wallUpcharge)
        (appliedOptions (priceItem sampleHost m "standard" (specsSelecting "opt-2") None None it)).
Proof.
  intros m it. split; [reflexivity|].
  refine (proj1 (percentage_options_bypass_applicability sampleHost m "standard"
                   (specsSelecting "opt-2") None None it wallUpcharge _ _) _).
  - vm_compute. left. reflexivity.
  - reflexivity.
  - vm_compute. reflexivity.
Defined.

(** ** Cost and sell price (C4) *)

(** C4: the margin is brought to a fraction (a value above 1 is divided by
    100); the sell price is the cost when that fraction is at least 1 and
    the cost divided by one minus the fraction otherwise, cost and sell
    price being rounded to cents in the line.  With a factor of 0.45, a
    margin of 35 and base plus options of 1000, the cost is 450 and the
    line shows a unit price of 692.31. *)
Theorem sell_price_from_margin
    (host : Host) (manufacturer : Manufacturer) (tierId : string)
    (specs : option ProjectSpecs) (financials : option ProjectFinancials)
    (roomSpecs : option (dict ProjectSpecs)) (it : CabinetItem) :
  let m := marginOf manufacturer tierId specs financials roomSpecs it in
  let md := marginDecimal manufacturer tierId specs financials roomSpecs it in
  let list_price := (fst (fst (baseOf host manufacturer tierId specs roomSpecs it))
                     + fst (chargesOf host manufacturer tierId specs roomSpecs it))%float in
  let factor := roomFactor manufacturer financials it in
  let cost := rawUnitCost host manufacturer tierId specs financials roomSpecs it in
  let sell := unitSell host manufacturer tierId specs financials roomSpecs it in
  let l := priceItem host manufacturer tierId specs financials roomSpecs it in
  md = (if (1 <? m)%float then (m / 100)%float else m)
  /\ cost = (list_price * factor)%float
  /\ unitCost l = Num.toFixed2 cost
  /\ finalUnitPrice l = Num.toFixed2 sell
  /\ ((1 <=? md)%float = true -> sell = cost /\ finalUnitPrice l = unitCost l)
  /\ ((1 <=? md)%float = false -> sell = (cost / (1 - md))%float)
  /\ (list_price = 1000%float -> factor = (45 / 100)%float -> m = 35%float ->
      cost = 450%float /\ unitCost l = 450%float
      /\ finalUnitPrice l = (69231 / 100)%float).
Proof.
  intros m md list_price factor cost sell l.
  assert (Hcost : unitCost l = Num.toFixed2 cost).
  { subst l. unfold priceItem. destruct (baseOf _ _ _ _ _ it) as [[b s] k]. reflexivity. }
  assert (Hsell : finalUnitPrice l = Num.toFixed2 sell).
  { subst l. unfold priceItem. destruct (baseOf _ _ _ _ _ it) as [[b s] k]. reflexivity. }
  split; [reflexivity|]. split; [reflexivity|].
  split; [exact Hcost|]. split; [exact Hsell|].
  assert (Hcalc : (1000 * (45 / 100))%float = 450%float) by (vm_compute; reflexivity).
  split; [|split].
  - intros Hge.
    assert (Hs : sell = cost) by (subst sell; unfold unitSell; fold md; rewrite Hge; reflexivity).
    split; [exact Hs|]. rewrite Hcost, Hsell, Hs. reflexivity.
  - intros Hlt. subst sell. unfold unitSell. fold md cost. rewrite Hlt. reflexivity.
  - intros Hl Hf Hm.
    assert (Hc : cost = 450%float).
    { subst cost. unfold rawUnitCost. fold list_price factor. rewrite Hl, Hf. exact Hcalc. }
    split; [exact Hc|]. split.
    + rewrite Hcost, Hc. vm_compute. reflexivity.
    + rewrite Hsell. subst sell. unfold unitSell, marginDecimal. fold m cost.
      rewrite Hm, Hc. vm_compute. reflexivity.
Qed.

Lemma sell_price_from_margin_witness :
  let l := priceItem sampleHost (testMfg [] (oneRow "B15" 1000)) "standard" None
             factor45margin35 None (testItem "B15" Base 15 1) in
  unitCost l = 450%float /\ finalUnitPrice l = (69231 / 100)%float.
Proof.
  intro l.
  destruct (sell_price_from_margin sampleHost (testMfg [] (oneRow "B15" 1000)) "standard"
              None factor45margin35 None (testItem "B15" Base 15 1))
    as (_ & _ & _ & _ & _ & _ & H).
  destruct H as (_ & Hc & Hs); try (vm_compute; reflexivity).
  split; [exact Hc | exact Hs].
Defined.

(** ** Unmatched items (C5) *)

Lemma positive_is_truthy (p : float) : (0 <? p)%float = true -> Num.truthy p = true.
Proof.
  unfold Num.truthy, Num.isNaN. intros H. rewrite FloatAxioms.ltb_spec in H. rewrite !FloatAxioms.eqb_spec.
  change (Prim2SF 0) with (S754_zero false) in *.
  destruct (Prim2SF p) as [s|s| |s m e]; try discriminate H.
  - destruct s; [discriminate H|reflexivity].
  - destruct s; [discriminate H|].
    unfold SFeqb, SFcompare. rewrite Z.compare_refl, Pos.compare_cont_refl. reflexivity.
Qed.

(** The matcher returns nothing exactly when each of the five passes
    does. *)
Lemma matchCatalog_None (host : Host) (it : CabinetItem) (cat : dict (dict float))
    (tierName : string) :
  matchCatalog host it cat tierName = None <->
  findCatalogPrice (originalCode it) cat tierName true = None
  /\ firstStrict cat tierName (fun key => "Catalog (Exact Match '" ++ key ++ "')")
       (fst (generateSmartKeys host it)) = None
  /\ firstStrict cat tierName (fun key => "Catalog (Similar Match '" ++ key ++ "')")
       (snd (generateSmartKeys host it)) = None
  /\ findCatalogPrice (originalCode it) cat tierName false = None
  /\ globalPrefixMatch (originalCode it) cat tierName = None.
Proof.
  unfold matchCatalog. destruct (generateSmartKeys host it) as [ex si]. simpl.
  destruct (findCatalogPrice (originalCode it) cat tierName true);
    [simpl; split; [discriminate | intros [H _]; discriminate]|].
  destruct (firstStrict cat tierName _ ex);
    [simpl; split; [discriminate | intros (_ & H & _); discriminate]|].
  destruct (firstStrict cat tierName _ si);
    [simpl; split; [discriminate | intros (_ & _ & H & _); discriminate]|].
  destruct (findCatalogPrice (originalCode it) cat tierName false);
    [simpl; split; [discriminate | intros (_ & _ & _ & H & _); discriminate]|].
  simpl. tauto.
Qed.

(** C5: an item that is not garbage and that none of the five passes
    matches still gets its line.  If it carries an extracted price above
    zero, that price is the base price and the source is "Extracted from
    PDF"; otherwise the base price is 0 and the source is "NOT FOUND".  The
    line shows the base price rounded to a whole unit, as step 11 does for
    every line. *)
Theorem unmatched_item_still_priced
    (host : Host) (manufacturer : Manufacturer) (tierId : string)
    (specs : option ProjectSpecs) (financials : option ProjectFinancials)
    (roomSpecs : option (dict ProjectSpecs))
    (items : list CabinetItem) (it : CabinetItem) :
  In it items ->
  isGarbageItem it = false ->
  matchCatalog host it (catalog manufacturer)
    (effectiveTierName manufacturer tierId specs roomSpecs it) = None ->
  let l := priceItem host manufacturer tierId specs financials roomSpecs it in
  let base := fst (fst (baseOf host manufacturer tierId specs roomSpecs it)) in
  In l (calculateProjectPricing host manufacturer tierId specs financials roomSpecs items)
  /\ item l = it
  /\ match extractedPrice it with
     | Some p =>
         if (0 <? p)%float
         then base = p /\ source l = "Extracted from PDF" /\ basePrice l = Num.round p
         else base = 0%float /\ source l = "NOT FOUND" /\ basePrice l = 0%float
     | None => base = 0%float /\ source l = "NOT FOUND" /\ basePrice l = 0%float
     end.
Proof.
  intros Hin Hg Hm l base. split; [|split].
  - apply In_calculate. exists it. auto.
  - apply item_priceItem.
  - subst l base. unfold priceItem, baseOf. rewrite Hm. unfold resolveBase.
    destruct (extractedPrice it) as [p|]; [|simpl; auto].
    destruct (0 <? p)%float eqn:Hp.
    + rewrite (positive_is_truthy p Hp). simpl. auto.
    + rewrite andb_false_r. simpl. auto.
Qed.

Lemma unmatched_item_still_priced_witness :
  let priced (it : CabinetItem) :=
    priceItem sampleHost (testMfg [] (oneRow "B15" 200)) "standard" None None None it in
  let extracted :=
    {| id := "2"; originalCode := "ZZ9"; normalizedCode := "ZZ9"; type := Accessory;
       description := "Molding"; width := 0; height := 0; depth := 0; quantity := 1;
       room := None; modifications := []; extractedPrice := Some (151 / 2)%float |} in
  (source (priced (testItem "ZZ9" Accessory 0 1)) = "NOT FOUND"
   /\ basePrice (priced (testItem "ZZ9" Accessory 0 1)) = 0%float)
  /\ (source (priced extracted) = "Extracted from PDF"
      /\ basePrice (priced extracted) = Num.round (151 / 2)).
Proof.
  intros priced extracted. split.
  - destruct (unmatched_item_still_priced sampleHost (testMfg [] (oneRow "B15" 200))
                "standard" None None None [testItem "ZZ9" Accessory 0 1]
                (testItem "ZZ9" Accessory 0 1)) as (_ & _ & H);
      [left; reflexivity | vm_compute; reflexivity | vm_compute; reflexivity |].
    exact (proj2 H).
  - destruct (unmatched_item_still_priced sampleHost (testMfg [] (oneRow "B15" 200))
                "standard" None None None [extracted] extracted) as (_ & _ & H);
      [left; reflexivity | vm_compute; reflexivity | vm_compute; reflexivity |].
    exact (proj2 H).
Defined.

(** C5, as worded, does not hold: the base price of the line is the
    extracted price rounded to a whole unit.  An unmatched item extracted
    with the price 75.5 gets the line base price 76. *)
Lemma basePrice_is_the_rounded_extracted_price :
  exists l,
    calculateProjectPricing sampleHost (testMfg [] (oneRow "B15" 200)) "standard"
      None None None
      [{| id := "2"; originalCode := "ZZ9"; normalizedCode := "ZZ9"; type := Accessory;
          description := "Molding"; width := 0; height := 0; depth := 0; quantity := 1;
          room := None; modifications := []; extractedPrice := Some (151 / 2)%float |}] = [l]
    /\ matchCatalog sampleHost (item l) (oneRow "B15" 200) "Standard" = None
    /\ extractedPrice (item l) = Some (151 / 2)%float
    /\ source l = "Extracted from PDF"
    /\ basePrice l = 76%float
    /\ basePrice l <> (151 / 2)%float.
Proof.
  eexists. split; [vm_compute; reflexivity|].
  repeat split; try (vm_compute; reflexivity).
  apply float_neq; vm_compute; reflexivity.
Qed.

(** ** The code shown on a line (C8) *)

(** C8, as stated, fails: the wall cabinet "W3625" is matched to the
    neighbouring height "W3624" of the catalogue, and the line carries
    that SKU as its [normalizedCode], while the normaliser leaves "W3625"
    as it is. *)
Lemma normalizedCode_is_the_matched_sku :
  exists l,
    calculateProjectPricing sampleHost (testMfg [] (oneRow "W3624" 100)) "standard"
      None None None [testItem "W3625" Wall 0 1] = [l]
    /\ li_normalizedCode l = "W3624"
    /\ normalizeNKBACode (originalCode (item l)) = "W3625"
    /\ li_normalizedCode l <> normalizeNKBACode (originalCode (item l)).
Proof.
  eexists. split; [vm_compute; reflexivity|].
  repeat split; try (vm_compute; reflexivity).
  vm_compute. discriminate.
Qed.

(** C8 (amended): the [normalizedCode] of a line is the SKU the catalogue
    matcher reports for the pass that succeeded, and the original code of
    the item when no pass succeeds. *)
Theorem normalizedCode_of_line
    (host : Host) (manufacturer : Manufacturer) (tierId : string)
    (specs : option ProjectSpecs) (financials : option ProjectFinancials)
    (roomSpecs : option (dict ProjectSpecs))
    (items : list CabinetItem) (l : PricingLineItem) :
  In l (calculateProjectPricing host manufacturer tierId specs financials roomSpecs items) ->
  In (item l) items
  /\ li_normalizedCode l
     = match matchCatalog host (item l) (catalog manufacturer)
               (effectiveTierName manufacturer tierId specs roomSpecs (item l)) with
       | Some m => matchedSku m
       | None => originalCode (item l)
       end.
Proof.
  intros Hin. apply In_calculate in Hin. destruct Hin as [it [Hit [_ Hl]]].
  assert (Hitem : item l = it) by (subst l; apply item_priceItem).
  rewrite Hitem. split; [assumption|].
  subst l. unfold priceItem, baseOf, resolveBase.
  destruct (matchCatalog _ _ _ _) as [m|]; [reflexivity|].
  destruct (extractedPrice it) as [p|]; [|reflexivity].
  destruct (_ && _); reflexivity.
Qed.

Lemma normalizedCode_of_line_witness :
  li_normalizedCode (priceItem sampleHost (testMfg [] (oneRow "W3624" 100)) "standard"
                       None None None (testItem "W3625" Wall 0 1)) = "W3624".
Proof.
  assert (Hin : In (priceItem sampleHost (testMfg [] (oneRow "W3624" 100)) "standard"
                      None None None (testItem "W3625" Wall 0 1))
                   (calculateProjectPricing sampleHost (testMfg [] (oneRow "W3624" 100))
                      "standard" None None None [testItem "W3625" Wall 0 1]))
    by (vm_compute; left; reflexivity).
  apply normalizedCode_of_line in Hin. destruct Hin as [_ Heq].
  rewrite Heq. vm_compute. reflexivity.
Defined.
(** ** Garbage filtering (C9) *)

Lemma startsWith_app (w r : string) : startsWith (w ++ r) w = true.
Proof.
  induction w as [|c w IH]; simpl; [destruct r; reflexivity|].
  rewrite Ascii.eqb_refl. exact IH.
Qed.

Lemma includes_startsWith (s w : string) : startsWith s w = true -> includes s w = true.
Proof.
  intros H. destruct s as [|a s].
  - change (includes "" w) with (startsWith "" w || false). rewrite H. reflexivity.
  - change (includes (String a s) w) with (startsWith (String a s) w || includes s w).
    rewrite H. reflexivity.
Qed.

Lemma includes_app (a w b : string) : includes (a ++ w ++ b) w = true.
Proof.
  induction a as [|c a IH]; simpl.
  - apply includes_startsWith, startsWith_app.
  - rewrite IH. apply orb_true_r.
Qed.

Lemma mapChars_app (f : ascii -> ascii) (a b : string) :
  mapChars f (a ++ b) = mapChars f a ++ mapChars f b.
Proof.
  induction a as [|c a IH]; simpl; [reflexivity|]. rewrite IH. reflexivity.
Qed.

Lemma append_assoc (a b c : string) : (a ++ b) ++ c = a ++ b ++ c.
Proof.
  induction a as [|x a IH]; simpl; [reflexivity|]. rewrite IH. reflexivity.
Qed.

Lemma badWord_is_garbage (it : CabinetItem) (w : string) :
  In w badWords ->
  includes (toUpperCase (originalCode it ++ " " ++ description it)) w = true ->
  isGarbageItem it = true.
Proof.
  intros Hw Hi. unfold isGarbageItem.
  assert (E : existsb (fun w => includes (toUpperCase (originalCode it ++ " " ++ description it)) w)
                badWords = true).
  { apply existsb_exists. exists w. auto. }
  rewrite E. rewrite orb_true_r. reflexivity.
Qed.

Lemma results_filter (host : Host) (manufacturer : Manufacturer) (tierId : string)
    (specs : option ProjectSpecs) (financials : option ProjectFinancials)
    (roomSpecs : option (dict ProjectSpecs)) (items : list CabinetItem) :
  results host manufacturer tierId specs financials roomSpecs
    (filter (fun it => negb (isGarbageItem it)) items)
  = results host manufacturer tierId specs financials roomSpecs items.
Proof.
  unfold results. induction items as [|it r IH]; simpl; [reflexivity|].
  destruct (isGarbageItem it) eqn:E; simpl; [exact IH|].
  rewrite E. simpl. rewrite IH. reflexivity.
Qed.

(** C9: an item the garbage filter flags leaves no line: every line of the
    output belongs to an item of the input that the filter lets through,
    the output is what pricing the unflagged items alone gives, and it has
    as many lines as there are unflagged items, hence no more than there
    are items.  An item whose code is "SUBTOTAL", or whose description
    contains "Grand Total", is flagged. *)
Theorem garbage_items_leave_no_line
    (host : Host) (manufacturer : Manufacturer) (tierId : string)
    (specs : option ProjectSpecs) (financials : option ProjectFinancials)
    (roomSpecs : option (dict ProjectSpecs)) (items : list CabinetItem) :
  let calc := calculateProjectPricing host manufacturer tierId specs financials roomSpecs in
  let kept := filter (fun it => negb (isGarbageItem it)) items in
  (forall l, In l (calc items) -> In (item l) items /\ isGarbageItem (item l) = false)
  /\ calc items = calc kept
  /\ List.length (calc items) = List.length kept
  /\ List.length (calc items) <= List.length items
  /\ (forall it, originalCode it = "SUBTOTAL" -> isGarbageItem it = true)
  /\ (forall it a b, description it = a ++ "Grand Total" ++ b -> isGarbageItem it = true).
Proof.
  intros calc kept.
  assert (Hlen : List.length (calc items) = List.length kept).
  { subst calc kept. unfold calculateProjectPricing.
    rewrite length_sortBy. apply length_results. }
  repeat split.
  - apply In_calculate in H. destruct H as [it [Hit [_ Hl]]].
    subst l. rewrite item_priceItem. assumption.
  - apply In_calculate in H. destruct H as [it [_ [Hg Hl]]].
    subst l. rewrite item_priceItem. assumption.
  - subst calc kept. unfold calculateProjectPricing. rewrite results_filter. reflexivity.
  - exact Hlen.
  - rewrite Hlen. subst kept. apply filter_length_le.
  - intros it Hc. apply (badWord_is_garbage it "SUBTOTAL").
    + simpl. auto 10.
    + rewrite Hc. apply (includes_app "" "SUBTOTAL").
  - intros it a b Hd. apply (badWord_is_garbage it "GRAND TOTAL").
    + simpl. auto 10.
    + rewrite Hd. unfold toUpperCase. rewrite <- !append_assoc.
      rewrite mapChars_app. rewrite (mapChars_app _ _ "Grand Total").
      rewrite append_assoc. apply includes_app.
Qed.

Lemma garbage_items_leave_no_line_witness :
  let subtotal :=
    {| id := "9"; originalCode := "SUBTOTAL"; normalizedCode := ""; type := Accessory;
       description := "1,250.00"; width := 0; height := 0; depth := 0; quantity := 1;
       room := None; modifications := []; extractedPrice := None |} in
  let grand :=
    {| id := "10"; originalCode := "B15"; normalizedCode := "B15"; type := Base;
       description := "Grand Total due"; width := 15; height := 30; depth := 24; quantity := 1;
       room := None; modifications := []; extractedPrice := None |} in
  isGarbageItem subtotal = true /\ isGarbageItem grand = true
  /\ List.length (calculateProjectPricing sampleHost (testMfg [] (oneRow "B15" 200)) "standard"
                    None None None [subtotal; testItem "B15" Base 15 1; grand]) = 1.
Proof.
  intros subtotal grand.
  destruct (garbage_items_leave_no_line sampleHost (testMfg [] (oneRow "B15" 200)) "standard"
              None None None [subtotal; testItem "B15" Base 15 1; grand])
    as (_ & _ & Hlen & _ & Hs & Hg).
  split; [|split].
  - apply Hs. reflexivity.
  - apply (Hg grand "" " due"). reflexivity.
  - rewrite Hlen. vm_compute. reflexivity.
Defined.

(** ** The catalogue matcher: what a match is made of *)

Lemma lookup_of_key {V : Type} (k : string) (d : dict V) :
  In k (keys d) -> exists v, lookup k d = Some v.
Proof.
  induction d as [|[k' v'] r IH]; simpl; [intros []|].
  intros [E|Hin].
  - subst k'. rewrite String.eqb_refl. eauto.
  - destruct (String.eqb k k'); eauto.
Qed.

Lemma lookup_is_key {V : Type} (k : string) (d : dict V) (v : V) :
  lookup k d = Some v -> In k (keys d).
Proof.
  induction d as [|[k' v'] r IH]; simpl; [discriminate|].
  destruct (String.eqb k k') eqn:E; [|auto].
  intros _. left. symmetry. apply String.eqb_eq. exact E.
Qed.

Lemma valueOf_key (entry : dict float) (k : string) :
  In k (keys entry) -> lookup k entry = Some (valueOf entry k).
Proof.
  intros Hin. destruct (lookup_of_key k entry Hin) as [v Hv].
  unfold valueOf. rewrite Hv. reflexivity.
Qed.

Lemma getPriceFromItem_Some (entry : dict float) (tierId sku method : string) (m : Match) :
  inherited tierId = false ->
  getPriceFromItem entry tierId sku method = Some m ->
  matchedSku m = sku
  /\ exists col, lookup col entry = Some (price m) /\ In (m_source m) (rowSources method col).
Proof.
  intros Hi. unfold getPriceFromItem, found, rowSources. rewrite Hi.
  destruct (lookup tierId entry) as [p|] eqn:Ht.
  { intros E. injection E as <-. simpl. split; [reflexivity|]. exists tierId. auto. }
  destruct (find (fuzzyTierMatch tierId) (keys entry)) as [[|c k]|] eqn:Hf.
  2:{ intros E. injection E as <-. simpl. split; [reflexivity|]. exists (String c k).
      split; [|auto]. apply valueOf_key. apply (find_some _ _ Hf). }
  all: destruct (keys entry) as [|k0 [|k1 ks]] eqn:Hk; try discriminate.
  all: try (intros E; injection E as <-; simpl; split; [reflexivity|]; exists k0;
            split; [apply valueOf_key; rewrite Hk; simpl; auto | auto 6]; fail).
  all: destruct (find genericColumn (k0 :: k1 :: ks)) as [[|c' k']|] eqn:Hg.
  all: intros E; injection E as <-; simpl; (split; [reflexivity|]).
  all: try (exists k0; split; [apply valueOf_key; rewrite Hk; simpl; auto | auto 6]; fail).
  all: exists (String c' k'); (split; [|auto 6]); apply valueOf_key; rewrite Hk;
       apply (find_some _ _ Hg).
Qed.

(** Whatever the row reader returns carries the SKU passed in and a source
    made by one of its five steps, for an inherited tier name too. *)
Lemma getPriceFromItem_shape (entry : dict float) (tierId sku method : string) (m : Match) :
  getPriceFromItem entry tierId sku method = Some m ->
  matchedSku m = sku /\ exists col, In (m_source m) (rowSources method col).
Proof.
  destruct (inherited tierId) eqn:Hi.
  - unfold getPriceFromItem, found. rewrite Hi.
    destruct (lookup tierId entry); intros E; injection E as <-; simpl;
      (split; [reflexivity|]); exists tierId; left; reflexivity.
  - intros H. destruct (getPriceFromItem_Some _ _ _ _ _ Hi H) as [Hs [col [_ Hc]]]. eauto.
Qed.

(** A row with a column always yields a price. *)
Lemma getPriceFromItem_None_empty (entry : dict float) (tierId sku method : string) :
  getPriceFromItem entry tierId sku method = None -> entry = [].
Proof.
  destruct entry as [|[k0 v0] r]; [reflexivity|].
  intros H. exfalso. revert H. unfold getPriceFromItem, found.
  destruct (lookup tierId _); [discriminate|].
  destruct (inherited tierId); [discriminate|].
  destruct (find (fuzzyTierMatch tierId) _) as [[|c k]|]; try discriminate.
  all: destruct r as [|[k1 v1] r]; simpl keys; cbv iota; try discriminate.
  all: destruct (find genericColumn _) as [[|c' k']|]; discriminate.
Qed.

Lemma getPriceFromItem_None (entry : dict float) (tierId sku method : string) :
  inherited tierId = false ->
  (getPriceFromItem entry tierId sku method = None <-> entry = []).
Proof.
  intros Hi. split; [apply getPriceFromItem_None_empty|].
  intros ->. unfold getPriceFromItem. rewrite Hi. reflexivity.
Qed.

(** X1: for a tier name that is not a property every object inherits (such
    as "constructor"), a row of the catalogue yields no price exactly when
    it has no column.  A price it yields is the value of one of its
    columns, the source naming the method and, but for a direct hit, that
    column; the matched SKU is the one passed in.  When the requested tier
    is a column of the row, its value is the price and the source ends in
    "Tier". *)
Theorem row_price_comes_from_a_column
    (entry : dict float) (tierId sku method : string) :
  inherited tierId = false ->
  (getPriceFromItem entry tierId sku method = None <-> entry = [])
  /\ (forall m, getPriceFromItem entry tierId sku method = Some m ->
        matchedSku m = sku
        /\ exists col, lookup col entry = Some (price m)
                       /\ In (m_source m) (rowSources method col))
  /\ (forall p, lookup tierId entry = Some p ->
        getPriceFromItem entry tierId sku method
        = Some {| price := p; m_source := "Catalog (" ++ method ++ " Tier)";
                  matchedSku := sku |}).
Proof.
  intros Hi. split; [apply getPriceFromItem_None; exact Hi|]. split.
  - intros m. apply getPriceFromItem_Some. exact Hi.
  - intros p Hp. unfold getPriceFromItem. rewrite Hp. reflexivity.
Qed.

Lemma row_price_comes_from_a_column_witness :
  exists m,
    getPriceFromItem [("Maple", 410%float); ("List Price", 395%float)] "Oak" "B15" "Exact" = Some m
    /\ matchedSku m = "B15"
    /\ exists col, lookup col [("Maple", 410%float); ("List Price", 395%float)] = Some (price m)
                   /\ In (m_source m) (rowSources "Exact" col).
Proof.
  eexists. split; [vm_compute; reflexivity|].
  apply (proj1 (proj2 (row_price_comes_from_a_column
                         [("Maple", 410%float); ("List Price", 395%float)] "Oak" "B15" "Exact"
                         eq_refl))).
  vm_compute. reflexivity.
Defined.

Lemma firstPresent_Some {V : Type} (d : dict V) (cands : list string) (c : string) (v : V) :
  firstPresent d cands = Some (c, v) -> In c cands /\ lookup c d = Some v.
Proof.
  induction cands as [|a r IH]; simpl; [discriminate|].
  destruct (lookup a d) eqn:E.
  - intros H. injection H as <- <-. auto.
  - intros H. destruct (IH H). auto.
Qed.

Lemma firstShortening_Some (d : dict (dict float)) (l : list (string * string))
    (sub cut : string) (e : dict float) :
  firstShortening d l = Some (sub, cut, e) -> In (sub, cut) l /\ lookup sub d = Some e.
Proof.
  induction l as [|[a b] r IH]; simpl; [discriminate|].
  destruct (lookup a d) eqn:E.
  - intros H. injection H as <- <- <-. auto.
  - intros H. destruct (IH H). auto.
Qed.

Lemma row_fromCatalog (cat : dict (dict float)) (key : string) (row : dict float)
    (tierId sku method : string) (m : Match) :
  inherited tierId = false ->
  lookup key cat = Some row ->
  getPriceFromItem row tierId sku method = Some m ->
  fromCatalog cat (price m).
Proof.
  intros Hi Hk Hm. destruct (getPriceFromItem_Some _ _ _ _ _ Hi Hm) as [_ [col [Hc _]]].
  exists key, row, col. auto.
Qed.

Lemma findCatalogPrice_fromCatalog (sku : string) (cat : dict (dict float)) (tierId : string)
    (strict : bool) (m : Match) :
  inherited tierId = false ->
  findCatalogPrice sku cat tierId strict = Some m -> fromCatalog cat (price m).
Proof.
  intros Hi. unfold findCatalogPrice. cbv zeta.
  destruct (negb _ || _); [discriminate|].
  destruct (lookup (normalizeLookup sku) cat) eqn:E1; [apply row_fromCatalog with (1 := Hi) (2 := E1)|].
  destruct (lookup (removeChar "-" _) cat) eqn:E2; [apply row_fromCatalog with (1 := Hi) (2 := E2)|].
  match goal with
  | |- context [if ?c then lookup ?k cat else None] =>
      destruct c; [destruct (lookup k cat) eqn:E3; [apply row_fromCatalog with (1 := Hi) (2 := E3)|]|]
  end.
  all: destruct strict; [discriminate|].
  all: destruct (wallMatch _) as [[[p h] sfx]|];
       [destruct (firstPresent cat _) as [[cand e]|] eqn:E4;
        [apply firstPresent_Some in E4; destruct E4 as [_ E4];
         apply row_fromCatalog with (1 := Hi) (2 := E4)|]|].
  all: destruct (firstShortening cat _) as [[[sub cut] e]|] eqn:E5;
       [apply firstShortening_Some in E5; destruct E5 as [_ E5];
        apply row_fromCatalog with (1 := Hi) (2 := E5)|].
  all: destruct (coreMatch _) as [core|]; [|discriminate].
  all: destruct (lookup core cat) eqn:E6; [apply row_fromCatalog with (1 := Hi) (2 := E6)|discriminate].
Qed.

Lemma findCatalogPrice_strict_loose (sku : string) (cat : dict (dict float)) (tierId : string)
    (m : Match) :
  findCatalogPrice sku cat tierId true = Some m ->
  findCatalogPrice sku cat tierId false = Some m.
Proof.
  unfold findCatalogPrice. cbv zeta.
  destruct (negb _ || _); [discriminate|].
  destruct (lookup (normalizeLookup sku) cat); [auto|].
  destruct (lookup (removeChar "-" _) cat); [auto|].
  match goal with
  | |- context [if ?c then lookup ?k cat else None] =>
      destruct c; [destruct (lookup k cat); [auto|]|]
  end; discriminate.
Qed.

Lemma findCatalogPrice_strict_method (sku : string) (cat : dict (dict float)) (tierId : string)
    (m : Match) :
  findCatalogPrice sku cat tierId true = Some m ->
  matchedSku m = normalizeLookup sku
  /\ exists method col, In method strictMethods /\ In (m_source m) (rowSources method col).
Proof.
  unfold findCatalogPrice. cbv zeta.
  destruct (negb _ || _); [discriminate|].
  destruct (lookup (normalizeLookup sku) cat).
  { intros H. apply getPriceFromItem_shape in H. destruct H as [Hs [col Hc]].
    split; [exact Hs|]. exists "Exact", col. simpl. auto. }
  destruct (lookup (removeChar "-" _) cat).
  { intros H. apply getPriceFromItem_shape in H. destruct H as [Hs [col Hc]].
    split; [exact Hs|]. exists "Hyphen-Insensitive", col. simpl. auto. }
  match goal with
  | |- context [if ?c then lookup ?k cat else None] =>
      destruct c; [destruct (lookup k cat)|]
  end; try discriminate.
  intros H. apply getPriceFromItem_shape in H. destruct H as [Hs [col Hc]].
  split; [exact Hs|]. exists "Inserted-Hyphen", col. simpl. auto.
Qed.

(** X2: whatever the strict matcher finds, the loose matcher finds too,
    with the same price, source and SKU: the loose strategies (neighbour
    heights, suffix stripping, core extraction) are tried only after the
    strict ones have failed.  A strict match is labelled with one of the
    three strict methods, and its matched SKU is the code looked up (upper
    case, spaces removed), not a key of the catalogue. *)
Theorem strict_match_is_kept_by_loose
    (sku : string) (cat : dict (dict float)) (tierId : string) (m : Match) :
  findCatalogPrice sku cat tierId true = Some m ->
  findCatalogPrice sku cat tierId false = Some m
  /\ matchedSku m = normalizeLookup sku
  /\ exists method col, In method strictMethods /\ In (m_source m) (rowSources method col).
Proof.
  intros H. split; [apply findCatalogPrice_strict_loose; exact H|].
  apply findCatalogPrice_strict_method with (1 := H).
Qed.

Lemma strict_match_is_kept_by_loose_witness :
  exists m,
    findCatalogPrice "sb-33" (oneRow "SB33" 310) "Standard" false = Some m
    /\ matchedSku m = "SB-33" /\ m_source m = "Catalog (Hyphen-Insensitive Tier)".
Proof.
  eexists. split.
  - apply (strict_match_is_kept_by_loose "sb-33" (oneRow "SB33" 310) "Standard").
    vm_compute. reflexivity.
  - split; reflexivity.
Defined.

(** X3: for a tier name that is not a property every object inherits, the
    price of every match the matcher returns, strict or loose, is the
    value of a column of a row of the catalogue. *)
Theorem matcher_price_is_in_catalog
    (sku : string) (cat : dict (dict float)) (tierId : string) (strict : bool) (m : Match) :
  inherited tierId = false ->
  findCatalogPrice sku cat tierId strict = Some m ->
  exists key row col, lookup key cat = Some row /\ lookup col row = Some (price m).
Proof.
  apply findCatalogPrice_fromCatalog.
Qed.

Lemma matcher_price_is_in_catalog_witness :
  exists key row col,
    lookup key (oneRow "W3624" 100) = Some row /\ lookup col row = Some 100%float.
Proof.
  apply (matcher_price_is_in_catalog "W3625" (oneRow "W3624" 100) "Standard" false
           {| price := 100; m_source := "Catalog (Neighbor (Matched W3624) Tier)";
              matchedSku := "W3624" |}).
  - reflexivity.
  - vm_compute. reflexivity.
Defined.

(** ** The five passes *)

Lemma firstStrict_Some (cat : dict (dict float)) (tierName : string) (label : string -> string)
    (ks : list string) (m : Match) :
  firstStrict cat tierName label ks = Some m ->
  exists key m0, In key ks /\ findCatalogPrice key cat tierName true = Some m0
                 /\ price m = price m0 /\ matchedSku m = matchedSku m0
                 /\ m_source m = label key.
Proof.
  induction ks as [|k r IH]; simpl; [discriminate|].
  destruct (findCatalogPrice k cat tierName true) as [m0|] eqn:E.
  - intros H. injection H as <-. exists k, m0. simpl. auto.
  - intros H. destruct (IH H) as [key [m0 [Hin Hrest]]]. exists key, m0. auto.
Qed.

Lemma globalPrefixMatch_fromCatalog (original : string) (cat : dict (dict float))
    (tierName : string) (m : Match) :
  inherited tierName = false ->
  globalPrefixMatch original cat tierName = Some m -> fromCatalog cat (price m).
Proof.
  intros Hi. unfold globalPrefixMatch. cbv zeta.
  destruct (nonEmpty _ && _); [|discriminate].
  destruct (find _ (keys cat)) as [[|c k]|]; try discriminate.
  destruct (lookup (String c k) cat) eqn:E; [|discriminate].
  apply row_fromCatalog with (1 := Hi) (2 := E).
Qed.

Lemma matchCatalog_fromCatalog (host : Host) (it : CabinetItem) (cat : dict (dict float))
    (tierName : string) (m : Match) :
  inherited tierName = false ->
  matchCatalog host it cat tierName = Some m -> fromCatalog cat (price m).
Proof.
  intros Hi. unfold matchCatalog. destruct (generateSmartKeys host it) as [ex si].
  destruct (findCatalogPrice (originalCode it) cat tierName true) eqn:E1; simpl.
  { intros H. injection H as <-. apply findCatalogPrice_fromCatalog with (1 := Hi) (2 := E1). }
  destruct (firstStrict cat tierName _ ex) eqn:E2; simpl.
  { intros H. injection H as <-. apply firstStrict_Some in E2.
    destruct E2 as (key & mk & _ & Hf & Hp & _). rewrite Hp.
    apply findCatalogPrice_fromCatalog with (1 := Hi) (2 := Hf). }
  destruct (firstStrict cat tierName _ si) eqn:E3; simpl.
  { intros H. injection H as <-. apply firstStrict_Some in E3.
    destruct E3 as (key & mk & _ & Hf & Hp & _). rewrite Hp.
    apply findCatalogPrice_fromCatalog with (1 := Hi) (2 := Hf). }
  destruct (findCatalogPrice (originalCode it) cat tierName false) eqn:E4; simpl.
  { intros H. injection H as <-. apply findCatalogPrice_fromCatalog with (1 := Hi) (2 := E4). }
  apply globalPrefixMatch_fromCatalog. exact Hi.
Qed.

(** X4: when the tier in force for an item is not named like a property
    every object inherits, the base price of the line of the item is,
    before its rounding to a whole unit, the value of a column of a row of
    the manufacturer's catalogue, or the price extracted with the item
    (above zero, the source then being "Extracted from PDF"), or zero with
    the source "NOT FOUND": the engine never makes a base price up. *)
Theorem base_price_provenance
    (host : Host) (manufacturer : Manufacturer) (tierId : string)
    (specs : option ProjectSpecs) (financials : option ProjectFinancials)
    (roomSpecs : option (dict ProjectSpecs))
    (items : list CabinetItem) (l : PricingLineItem) :
  In l (calculateProjectPricing host manufacturer tierId specs financials roomSpecs items) ->
  inherited (effectiveTierName manufacturer tierId specs roomSpecs (item l)) = false ->
  exists b,
    basePrice l = Num.round b
    /\ ((exists key row col, lookup key (catalog manufacturer) = Some row
                             /\ lookup col row = Some b)
        \/ (extractedPrice (item l) = Some b /\ (0 <? b)%float = true
            /\ source l = "Extracted from PDF")
        \/ (b = 0%float /\ source l = "NOT FOUND")).
Proof.
  intros Hin. apply In_calculate in Hin. destruct Hin as [it [_ [_ Hl]]].
  assert (Hitem : item l = it) by (subst l; apply item_priceItem).
  rewrite Hitem. intros Hi. subst l. unfold priceItem, baseOf, resolveBase.
  destruct (matchCatalog _ _ _ _) as [m|] eqn:E.
  - exists (price m). simpl. split; [reflexivity|]. left.
    apply matchCatalog_fromCatalog with (1 := Hi) (2 := E).
  - destruct (extractedPrice it) as [p|].
    + destruct (Num.truthy p && (0 <? p)%float) eqn:Hp; simpl.
      * exists p. split; [reflexivity|]. right. left.
        apply andb_true_iff in Hp. destruct Hp. auto.
      * exists 0%float. split; [reflexivity|]. right. right. auto.
    + exists 0%float. simpl. split; [reflexivity|]. right. right. auto.
Qed.

Lemma base_price_provenance_witness :
  exists b key row col,
    basePrice (priceItem sampleHost (testMfg [] (oneRow "W3624" 100)) "standard"
                 None None None (testItem "W3625" Wall 0 1)) = Num.round b
    /\ lookup key (oneRow "W3624" 100) = Some row /\ lookup col row = Some b.
Proof.
  destruct (base_price_provenance sampleHost (testMfg [] (oneRow "W3624" 100)) "standard"
              None None None [testItem "W3625" Wall 0 1]
              (priceItem sampleHost (testMfg [] (oneRow "W3624" 100)) "standard"
                 None None None (testItem "W3625" Wall 0 1)))
    as [b [Hb [H|[H|H]]]].
  - vm_compute. left. reflexivity.
  - vm_compute. reflexivity.
  - destruct H as (key & row & col & Hk & Hc). exists b, key, row, col. auto.
  - destruct H as [H _]. vm_compute in H. discriminate H.
  - destruct H as [_ H]. vm_compute in H. discriminate H.
Defined.

Lemma firstPresent_nil {V : Type} (cands : list string) : firstPresent (@nil (string * V)) cands = None.
Proof. induction cands; simpl; auto. Qed.

Lemma firstShortening_nil (l : list (string * string)) : firstShortening [] l = None.
Proof. induction l as [|[a b] r IH]; simpl; auto. Qed.

Lemma findCatalogPrice_nil (sku tierId : string) (strict : bool) :
  findCatalogPrice sku [] tierId strict = None.
Proof.
  unfold findCatalogPrice. cbv zeta. simpl lookup.
  destruct (negb _ || _); [reflexivity|].
  rewrite firstShortening_nil.
  destruct (nonEmpty _ && testRe _ _); destruct strict; try reflexivity.
  all: destruct (wallMatch _) as [[[p h] sfx]|]; rewrite ?firstPresent_nil;
       destruct (coreMatch _); reflexivity.
Qed.

Lemma firstStrict_nil (tierName : string) (label : string -> string) (ks : list string) :
  firstStrict [] tierName label ks = None.
Proof.
  induction ks as [|k r IH]; simpl; [reflexivity|].
  rewrite findCatalogPrice_nil. exact IH.
Qed.

Lemma matchCatalog_nil (host : Host) (it : CabinetItem) (tierName : string) :
  matchCatalog host it [] tierName = None.
Proof.
  apply matchCatalog_None. rewrite !findCatalogPrice_nil, !firstStrict_nil.
  repeat split. unfold globalPrefixMatch. cbv zeta. simpl.
  destruct (nonEmpty _ && _); reflexivity.
Qed.

(** X5: with an empty catalogue (or none: the engine reads a missing
    catalogue as empty) no pass matches anything, whatever keys are
    generated: every line of the output keeps the original code as its
    [normalizedCode] and has the source "NOT FOUND", or "Extracted from
    PDF" when the item came with a price. *)
Theorem empty_catalog_matches_nothing
    (host : Host) (manufacturer : Manufacturer) (tierId : string)
    (specs : option ProjectSpecs) (financials : option ProjectFinancials)
    (roomSpecs : option (dict ProjectSpecs))
    (items : list CabinetItem) (l : PricingLineItem) :
  catalog manufacturer = [] ->
  In l (calculateProjectPricing host manufacturer tierId specs financials roomSpecs items) ->
  li_normalizedCode l = originalCode (item l)
  /\ (source l = "NOT FOUND" /\ basePrice l = 0%float
      \/ source l = "Extracted from PDF").
Proof.
  intros Hc Hin. apply In_calculate in Hin. destruct Hin as [it [_ [_ Hl]]].
  assert (Hitem : item l = it) by (subst l; apply item_priceItem).
  rewrite Hitem. subst l. unfold priceItem, baseOf, resolveBase.
  rewrite Hc, matchCatalog_nil.
  destruct (extractedPrice it) as [p|]; [|simpl; auto].
  destruct (Num.truthy p && (0 <? p)%float); simpl; auto.
Qed.

Lemma empty_catalog_matches_nothing_witness :
  source (priceItem sampleHost (testMfg [] []) "standard" None None None
            (testItem "B15" Base 15 1)) = "NOT FOUND".
Proof.
  destruct (empty_catalog_matches_nothing sampleHost (testMfg [] []) "standard"
              None None None [testItem "B15" Base 15 1]
              (priceItem sampleHost (testMfg [] []) "standard" None None None
                 (testItem "B15" Base 15 1))) as [_ [[H _]|H]].
  - reflexivity.
  - vm_compute. left. reflexivity.
  - exact H.
  - vm_compute in H. discriminate H.
Defined.

(** ** An exact hit *)

(** X6: if the lookup form of the ASCII original code of an item (the
    code trimmed, upper-cased, its spaces removed) is a key of the
    catalogue (other than "UNKNOWN") whose row has a column, and the tier
    in force is not named like a property every object inherits, the first
    pass matches it: the line carries that key
    as [normalizedCode], a source "Catalog (Exact ...)", and as base price
    the value of a column of that row, rounded to a whole unit; when the
    tier in force names a column of the row, it is that column. *)
Theorem exact_hit
    (host : Host) (manufacturer : Manufacturer) (tierId : string)
    (specs : option ProjectSpecs) (financials : option ProjectFinancials)
    (roomSpecs : option (dict ProjectSpecs)) (it : CabinetItem) (row : dict float) :
  let k := normalizeLookup (originalCode it) in
  let tier := effectiveTierName manufacturer tierId specs roomSpecs it in
  let l := priceItem host manufacturer tierId specs financials roomSpecs it in
  isAscii (originalCode it) = true -> inherited tier = false ->
  k <> "" -> k <> "UNKNOWN" ->
  lookup k (catalog manufacturer) = Some row -> row <> [] ->
  li_normalizedCode l = k
  /\ (exists col p, lookup col row = Some p /\ basePrice l = Num.round p
                    /\ In (source l) (rowSources "Exact" col))
  /\ (forall p, lookup tier row = Some p ->
        basePrice l = Num.round p /\ source l = "Catalog (Exact Tier)").
Proof.
  intros k tier l _ Hi Hne Hunk Hrow Hcols.
  assert (Hfind : findCatalogPrice (originalCode it) (catalog manufacturer) tier true
                  = getPriceFromItem row tier k "Exact").
  { unfold findCatalogPrice. cbv zeta. fold k.
    assert (E1 : nonEmpty k = true).
    { unfold nonEmpty. destruct (String.eqb k "") eqn:E; [|reflexivity].
      apply String.eqb_eq in E. contradiction. }
    assert (E2 : String.eqb k "UNKNOWN" = false) by (apply String.eqb_neq; exact Hunk).
    rewrite E1, E2, Hrow. reflexivity. }
  destruct (getPriceFromItem row tier k "Exact") as [m|] eqn:Hm.
  2:{ apply getPriceFromItem_None_empty in Hm. contradiction. }
  assert (Hmatch : matchCatalog host it (catalog manufacturer) tier = Some m).
  { unfold matchCatalog. destruct (generateSmartKeys host it) as [ex si].
    rewrite Hfind. reflexivity. }
  assert (Hl : li_normalizedCode l = matchedSku m /\ basePrice l = Num.round (price m)
               /\ source l = m_source m).
  { subst l. unfold priceItem, baseOf. fold tier. rewrite Hmatch. simpl. auto. }
  destruct Hl as (Hn & Hb & Hs).
  destruct (getPriceFromItem_Some _ _ _ _ _ Hi Hm) as [Hsku [col [Hcol Hsrc]]].
  split; [rewrite Hn; exact Hsku|]. split.
  - exists col, (price m). rewrite Hs. auto.
  - intros p Hp. unfold getPriceFromItem in Hm. rewrite Hp in Hm.
    injection Hm as <-. simpl in Hb, Hs. auto.
Qed.

Lemma exact_hit_witness :
  let l := priceItem sampleHost (testMfg [] (oneRow "B15" 200)) "standard" None None None
             (testItem " b 15 " Base 15 1) in
  li_normalizedCode l = "B15" /\ basePrice l = Num.round 200
  /\ source l = "Catalog (Exact Tier)".
Proof.
  intro l.
  destruct (exact_hit sampleHost (testMfg [] (oneRow "B15" 200)) "standard" None None None
              (testItem " b 15 " Base 15 1) [("Standard", 200%float)])
    as (Hn & _ & Ht); try (vm_compute; discriminate); try reflexivity.
  split; [exact Hn|]. apply (Ht 200%float). reflexivity.
Defined.

(** ** The order of the output *)

Lemma insertBy_Permutation {A : Type} (cmp : A -> A -> comparison) (x : A) (l : list A) :
  Permutation (insertBy cmp x l) (x :: l).
Proof.
  induction l as [|y r IH]; simpl; [apply Permutation_refl|].
  destruct (cmp x y); try apply Permutation_refl.
  apply Permutation_trans with (y :: x :: r).
  - apply perm_skip. exact IH.
  - apply perm_swap.
Qed.

Lemma sortBy_Permutation {A : Type} (cmp : A -> A -> comparison) (l : list A) :
  Permutation (sortBy cmp l) l.
Proof.
  induction l as [|x r IH]; simpl; [apply perm_nil|].
  apply Permutation_trans with (x :: sortBy cmp r).
  - apply insertBy_Permutation.
  - apply perm_skip. exact IH.
Qed.

Section SortedBy.

Variable A : Type.
Variable cmp : A -> A -> comparison.
Variable R : A -> A -> Prop.
Hypothesis R_trans : forall a b c, R a b -> R b c -> R a c.
Hypothesis cmp_Gt : forall x y, cmp x y = Gt -> R y x.
Hypothesis cmp_le : forall x y, cmp x y <> Gt -> R x y.

Lemma insertBy_sorted (x : A) (l : list A) :
  StronglySorted R l -> StronglySorted R (insertBy cmp x l).
Proof.
  induction l as [|y r IH]; intros Hs; simpl.
  - constructor; constructor.
  - inversion Hs as [|? ? Hr Hy]; subst.
    destruct (cmp x y) eqn:E.
    + constructor; [exact Hs|]. constructor.
      * apply cmp_le. rewrite E. discriminate.
      * apply Forall_impl with (2 := Hy). intros z. apply R_trans.
        apply cmp_le. rewrite E. discriminate.
    + constructor; [exact Hs|]. constructor.
      * apply cmp_le. rewrite E. discriminate.
      * apply Forall_impl with (2 := Hy). intros z. apply R_trans.
        apply cmp_le. rewrite E. discriminate.
    + constructor; [apply IH; exact Hr|].
      apply Forall_forall. intros z Hz. apply In_insertBy in Hz.
      destruct Hz as [->|Hz]; [apply cmp_Gt; exact E|].
      rewrite Forall_forall in Hy. apply Hy. exact Hz.
Qed.

Lemma sortBy_sorted (l : list A) : StronglySorted R (sortBy cmp l).
Proof.
  induction l as [|x r IH]; simpl; [constructor|].
  apply insertBy_sorted. exact IH.
Qed.

End SortedBy.

Lemma results_map_filter (host : Host) (manufacturer : Manufacturer) (tierId : string)
    (specs : option ProjectSpecs) (financials : option ProjectFinancials)
    (roomSpecs : option (dict ProjectSpecs)) (items : list CabinetItem) :
  results host manufacturer tierId specs financials roomSpecs items
  = map (priceItem host manufacturer tierId specs financials roomSpecs)
        (filter (fun it => negb (isGarbageItem it)) items).
Proof.
  unfold results. induction items as [|it r IH]; simpl; [reflexivity|].
  destruct (isGarbageItem it); simpl; rewrite IH; reflexivity.
Qed.

(** X7: the output is a rearrangement of the lines of the items the
    garbage filter lets through, one line each, and it is ordered by the
    type-priority table (Base, Wall, Tall, Panel, Filler, Accessory,
    Modification, then the other types): no line comes before a line of
    higher priority.  This holds whatever order the host's [localeCompare]
    gives the codes. *)
Theorem output_is_sorted_by_type
    (host : Host) (manufacturer : Manufacturer) (tierId : string)
    (specs : option ProjectSpecs) (financials : option ProjectFinancials)
    (roomSpecs : option (dict ProjectSpecs)) (items : list CabinetItem) :
  let out := calculateProjectPricing host manufacturer tierId specs financials roomSpecs items in
  Permutation out
    (map (priceItem host manufacturer tierId specs financials roomSpecs)
         (filter (fun it => negb (isGarbageItem it)) items))
  /\ StronglySorted
       (fun a b => (typePriority (type (item a)) <= typePriority (type (item b)))%Z) out.
Proof.
  intros out. subst out. unfold calculateProjectPricing. split.
  - rewrite <- results_map_filter. apply sortBy_Permutation.
  - apply sortBy_sorted.
    + intros a b c. apply Z.le_trans.
    + intros x y. unfold compareLines.
      destruct (typePriority (type (item x)) ?= typePriority (type (item y)))%Z eqn:E.
      * intros _. apply Z.compare_eq in E. rewrite E. apply Z.le_refl.
      * discriminate.
      * intros _. apply Z.compare_gt_iff in E. apply Z.lt_le_incl. exact E.
    + intros x y. unfold compareLines.
      destruct (typePriority (type (item x)) ?= typePriority (type (item y)))%Z eqn:E.
      * intros _. apply Z.compare_eq in E. rewrite E. apply Z.le_refl.
      * intros _. apply Z.compare_lt_iff in E. apply Z.lt_le_incl. exact E.
      * intros H. contradiction H. reflexivity.
Qed.

(** ** The options in force *)

Lemma distinct_ids_filter (keep : ManufacturerOption -> bool) (opts : list ManufacturerOption) :
  NoDup (map opt_id opts) -> NoDup (map opt_id (filter keep opts)).
Proof.
  induction opts as [|o r IH]; simpl; intros Hnd; [exact Hnd|].
  inversion Hnd as [|? ? Hfresh Hrest]; subst.
  destruct (keep o); simpl; [|auto].
  constructor; [|auto].
  intros Hin. apply Hfresh. apply in_map_iff in Hin. destruct Hin as [x [Hx Hf]].
  apply filter_In in Hf. apply in_map_iff. exists x. tauto.
Qed.

(** X8: the options in force for a set of specs are options of the
    manufacturer; without specs there is none; an option picked both by
    its check box and by a drop-down value is taken once: if the
    identifiers of the manufacturer's options are distinct, so are those of
    the options in force. *)
Theorem options_in_force
    (opts : list ManufacturerOption) (s : option ProjectSpecs) :
  (forall o, In o (getOptionsForSpecs opts s) -> In o opts)
  /\ getOptionsForSpecs opts None = []
  /\ (NoDup (map opt_id opts) -> NoDup (map opt_id (getOptionsForSpecs opts s))).
Proof.
  split; [|split].
  - intros o. unfold getOptionsForSpecs. cbv zeta. rewrite in_app_iff.
    intros [H|H].
    + apply filter_In in H. tauto.
    + apply filter_In in H. destruct H as [H _]. apply filter_In in H. tauto.
  - unfold getOptionsForSpecs. cbv zeta. simpl.
    induction opts as [|o r IH]; simpl; [reflexivity|]. exact IH.
  - intros Hnd. unfold getOptionsForSpecs. cbv zeta. rewrite map_app.
    apply NoDup_app.
    + apply distinct_ids_filter. exact Hnd.
    + apply distinct_ids_filter. apply distinct_ids_filter. exact Hnd.
    + intros i Hc Hd. apply in_map_iff in Hc. destruct Hc as [c [Hci Hc]].
      apply in_map_iff in Hd. destruct Hd as [d [Hdi Hd]].
      apply filter_In in Hd. destruct Hd as [_ Hd].
      apply negb_true_iff in Hd.
      match type of Hd with
      | existsb ?f ?l = false => assert (Ht : existsb f l = true)
      end.
      { apply existsb_exists. exists c. split; [exact Hc|].
        rewrite Hci, Hdi. apply String.eqb_refl. }
      rewrite Ht in Hd. discriminate.
Qed.

Lemma options_in_force_witness :
  NoDup (map opt_id (getOptionsForSpecs [paintedOption; wallUpcharge]
                       (Some {| priceGroup := None;
                                selectedOptions := Some [("opt-1", true)];
                                drawerBox := None; hingeType := None; woodSpecies := None;
                                finishColor := Some "finish: painted"; glaze := None;
                                finishOption1 := None; finishOption2 := None;
                                printedEndOption := None; wallDoorOption := None;
                                baseDoorOption := None; dynamicSelections := None |}))).
Proof.
  apply (proj2 (proj2 (options_in_force [paintedOption; wallUpcharge] _))).
  simpl. constructor.
  - intros [H|[]]. discriminate H.
  - constructor; [intros []|constructor].
Defined.

(** ** Lookup form *)

Lemma replaceAll_spaces (s : string) (k : nat) :
  k <= spanLen isSpace s ->
  replaceAll mSpacesGone k s = filterChars (fun c => negb (isSpace c)) s.
Proof.
  revert k. induction s as [|c r IH]; intros k Hk; simpl; [reflexivity|].
  simpl in Hk. destruct k as [|k].
  - unfold mSpacesGone. simpl. destruct (isSpace c) eqn:E; simpl.
    + apply IH. apply Nat.le_refl.
    + rewrite IH by apply Nat.le_0_l. reflexivity.
  - destruct (isSpace c) eqn:E; simpl.
    + apply IH. lia.
    + lia.
Qed.

Lemma removeSpaces_filter (s : string) :
  removeSpaces s = filterChars (fun c => negb (isSpace c)) s.
Proof. apply replaceAll_spaces. apply Nat.le_0_l. Qed.

Lemma ascii_cases (P : ascii -> Prop) :
  (forall n, n < 256 -> P (ascii_of_nat n)) -> forall c, P c.
Proof.
  intros H c. rewrite <- (ascii_nat_embedding c). apply H. apply nat_ascii_bounded.
Qed.

Lemma upperChar_props (c : ascii) :
  isLower (upperChar c) = false /\ isSpace (upperChar c) = isSpace c
  /\ Ascii.eqb (upperChar c) "-" = Ascii.eqb c "-".
Proof.
  destruct c as [[] [] [] [] [] [] [] []]; vm_compute; auto.
Qed.

Lemma forallChars_filter (p q : ascii -> bool) (s : string) :
  forallChars p s = true -> forallChars p (filterChars q s) = true.
Proof.
  induction s as [|c r IH]; simpl; [auto|].
  intros H. apply andb_true_iff in H. destruct H as [Hc Hr].
  destruct (q c); simpl; [rewrite Hc|]; auto.
Qed.

Lemma lookupForm_upper (k : string) : lookupForm (removeSpaces (toUpperCase k)) = true.
Proof.
  rewrite removeSpaces_filter. unfold lookupForm, toUpperCase.
  induction k as [|c r IH]; simpl; [reflexivity|].
  destruct (upperChar_props c) as (Hl & Hs & _).
  destruct (isSpace (upperChar c)) eqn:E; simpl; [exact IH|].
  unfold lookupChar at 1. rewrite E, Hl. simpl. exact IH.
Qed.

Lemma trimStart_id (s : string) : forallChars (fun c => negb (isSpace c)) s = true -> trimStart s = s.
Proof.
  destruct s as [|c r]; simpl; [reflexivity|].
  intros H. apply andb_true_iff in H. destruct H as [Hc _].
  apply negb_true_iff in Hc. rewrite Hc. reflexivity.
Qed.

Lemma trimEnd_id (s : string) : forallChars (fun c => negb (isSpace c)) s = true -> trimEnd s = s.
Proof.
  induction s as [|c r IH]; simpl; [reflexivity|].
  intros H. apply andb_true_iff in H. destruct H as [Hc Hr].
  apply negb_true_iff in Hc. rewrite (IH Hr), Hc. destruct r; reflexivity.
Qed.

Lemma lookupForm_parts (k : string) :
  lookupForm k = true ->
  forallChars (fun c => negb (isSpace c)) k = true
  /\ forallChars (fun c => negb (isLower c)) k = true.
Proof.
  unfold lookupForm. induction k as [|c r IH]; simpl; [auto|].
  intros H. apply andb_true_iff in H. destruct H as [Hc Hr].
  unfold lookupChar in Hc. apply andb_true_iff in Hc. destruct Hc as [H1 H2].
  destruct (IH Hr) as [I1 I2]. rewrite H1, H2, I1, I2. auto.
Qed.

Lemma toUpperCase_id (k : string) :
  forallChars (fun c => negb (isLower c)) k = true -> toUpperCase k = k.
Proof.
  unfold toUpperCase. induction k as [|c r IH]; simpl; [reflexivity|].
  intros H. apply andb_true_iff in H. destruct H as [Hc Hr].
  apply negb_true_iff in Hc. rewrite (IH Hr). unfold upperChar. rewrite Hc. reflexivity.
Qed.

Lemma filterChars_id (p : ascii -> bool) (k : string) :
  forallChars p k = true -> filterChars p k = k.
Proof.
  induction k as [|c r IH]; simpl; [reflexivity|].
  intros H. apply andb_true_iff in H. destruct H as [Hc Hr].
  rewrite Hc, (IH Hr). reflexivity.
Qed.

Lemma forallChars_impl (p q : ascii -> bool) (s : string) :
  (forall c, p c = true -> q c = true) -> forallChars p s = true -> forallChars q s = true.
Proof.
  intros Hpq. induction s as [|c r IH]; simpl; [auto|].
  intros H. apply andb_true_iff in H. destruct H as [Hc Hr].
  rewrite (Hpq c Hc), (IH Hr). reflexivity.
Qed.

Lemma trimStart_chars (p : ascii -> bool) (s : string) :
  forallChars p s = true -> forallChars p (trimStart s) = true.
Proof.
  induction s as [|c r IH]; simpl; [auto|].
  intros H. destruct (isSpace c); [|exact H].
  apply andb_true_iff in H. destruct H as [_ Hr]. auto.
Qed.

Lemma trimEnd_chars (p : ascii -> bool) (s : string) :
  forallChars p s = true -> forallChars p (trimEnd s) = true.
Proof.
  induction s as [|c r IH]; simpl; [auto|].
  intros H. apply andb_true_iff in H. destruct H as [Hc Hr].
  specialize (IH Hr). destruct (trimEnd r) as [|c' r'].
  - destruct (isSpace c); simpl; [reflexivity|]. rewrite Hc. reflexivity.
  - simpl. rewrite Hc. exact IH.
Qed.

(** The dash step: it leaves an ASCII text alone, and what it writes is a
    hyphen. *)
Lemma mDash_rep (s : string) (n : nat) (rep : string) :
  mDash s = Some (n, rep) -> n = 3 /\ rep = "-".
Proof.
  unfold mDash. destruct s as [|a [|b [|c r]]]; try discriminate.
  destruct (_ && _); [|discriminate].
  intros E. injection E as <- <-. auto.
Qed.

Lemma mDash_head (a : ascii) (r : string) :
  Nat.ltb (code a) 128 = true -> mDash (String a r) = None.
Proof.
  intros H. apply Nat.ltb_lt in H. unfold mDash.
  destruct r as [|b [|c r']]; try reflexivity.
  destruct (Nat.eqb (code a) 226) eqn:E; [|reflexivity].
  apply Nat.eqb_eq in E. rewrite E in H. exfalso. revert H. apply Nat.lt_asymm.
  apply Nat.ltb_lt. reflexivity.
Qed.

Lemma dashes_ascii (s : string) : isAscii s = true -> replaceAll mDash 0 s = s.
Proof.
  unfold isAscii. induction s as [|a r IH]; [reflexivity|].
  intros H. cbn [forallChars] in H. apply andb_true_iff in H. destruct H as [Ha Hr].
  cbn [replaceAll]. rewrite (mDash_head a r Ha), (IH Hr). reflexivity.
Qed.

Lemma dashes_chars (p : ascii -> bool) (s : string) (k : nat) :
  p "-"%char = true -> forallChars p s = true ->
  forallChars p (replaceAll mDash k s) = true.
Proof.
  intros Hd. revert k. induction s as [|a r IH]; intros k H; [reflexivity|].
  cbn [forallChars] in H. apply andb_true_iff in H. destruct H as [Ha Hr].
  destruct k as [|k]; cbn [replaceAll]; [|apply IH; exact Hr].
  destruct (mDash (String a r)) as [[[|n] rep]|] eqn:E.
  - cbn [forallChars]. rewrite Ha. apply IH. exact Hr.
  - destruct (mDash_rep _ _ _ E) as [_ ->].
    change ("-" ++ replaceAll mDash n r) with (String "-" (replaceAll mDash n r)).
    cbn [forallChars]. rewrite Hd. apply IH. exact Hr.
  - cbn [forallChars]. rewrite Ha. apply IH. exact Hr.
Qed.

Lemma upperChar_ascii (c : ascii) :
  Nat.ltb (code c) 128 = true -> Nat.ltb (code (upperChar c)) 128 = true.
Proof.
  destruct c as [[] [] [] [] [] [] [] []]; vm_compute; auto.
Qed.

Lemma isAscii_toUpperCase (s : string) : isAscii s = true -> isAscii (toUpperCase s) = true.
Proof.
  unfold isAscii, toUpperCase. induction s as [|c r IH]; [reflexivity|].
  cbn [forallChars mapChars]. intros H. apply andb_true_iff in H. destruct H as [Hc Hr].
  rewrite (upperChar_ascii c Hc), (IH Hr). reflexivity.
Qed.

Lemma isAscii_trim (s : string) : isAscii s = true -> isAscii (trim s) = true.
Proof.
  intros H. unfold isAscii, trim. apply trimEnd_chars, trimStart_chars. exact H.
Qed.

Lemma isAscii_removeSpaces (s : string) : isAscii s = true -> isAscii (removeSpaces s) = true.
Proof.
  intros H. rewrite removeSpaces_filter. apply forallChars_filter. exact H.
Qed.

Lemma upper_no_lower (s : string) :
  forallChars (fun c => negb (isLower c)) (toUpperCase s) = true.
Proof.
  unfold toUpperCase. induction s as [|c r IH]; [reflexivity|].
  cbn [mapChars forallChars]. destruct (upperChar_props c) as (Hl & _).
  rewrite Hl, IH. reflexivity.
Qed.

Lemma lookupForm_removeSpaces (s : string) :
  forallChars (fun c => negb (isLower c)) s = true -> lookupForm (removeSpaces s) = true.
Proof.
  rewrite removeSpaces_filter. unfold lookupForm.
  induction s as [|c r IH]; [reflexivity|].
  cbn [forallChars filterChars]. intros H. apply andb_true_iff in H. destruct H as [Hc Hr].
  destruct (isSpace c) eqn:E; cbn [negb]; [exact (IH Hr)|].
  cbn [forallChars]. unfold lookupChar at 1. rewrite E, Hc. exact (IH Hr).
Qed.

Lemma normalizeLookup_id (k : string) :
  isAscii k = true -> lookupForm k = true -> normalizeLookup k = k.
Proof.
  intros Ha H. destruct (lookupForm_parts k H) as [Hs Hl].
  unfold normalizeLookup, trim.
  rewrite (trimStart_id k Hs), (trimEnd_id k Hs), (toUpperCase_id k Hl), (dashes_ascii k Ha).
  rewrite removeSpaces_filter. apply filterChars_id. exact Hs.
Qed.

Lemma lookupForm_normalizeLookup (s : string) : lookupForm (normalizeLookup s) = true.
Proof.
  unfold normalizeLookup. apply lookupForm_removeSpaces.
  apply dashes_chars; [reflexivity|apply upper_no_lower].
Qed.

Lemma isAscii_normalizeLookup (s : string) :
  isAscii s = true -> isAscii (normalizeLookup s) = true.
Proof.
  intros H. unfold normalizeLookup. apply isAscii_removeSpaces.
  rewrite dashes_ascii; apply isAscii_toUpperCase, isAscii_trim; exact H.
Qed.

(** X9: on an ASCII text the lookup normalisation is idempotent, and it
    leaves a text without white space and lower-case letters as it is; its
    result never contains white space or a lower-case letter, so that a
    catalogue key with a space or a lower-case letter in it is never the
    code looked up.  (A text with an en dash or an em dash is changed: the
    dash becomes a hyphen.) *)
Theorem normalizeLookup_idempotent (s : string) :
  isAscii s = true ->
  normalizeLookup (normalizeLookup s) = normalizeLookup s
  /\ lookupForm (normalizeLookup s) = true
  /\ (lookupForm s = true -> normalizeLookup s = s).
Proof.
  intros Ha. split; [|split].
  - apply normalizeLookup_id; [apply isAscii_normalizeLookup; exact Ha|].
    apply lookupForm_normalizeLookup.
  - apply lookupForm_normalizeLookup.
  - apply normalizeLookup_id. exact Ha.
Qed.

Lemma normalizeLookup_idempotent_witness : normalizeLookup "VDB24-3" = "VDB24-3".
Proof.
  apply (proj2 (proj2 (normalizeLookup_idempotent "VDB24-3" eq_refl))). reflexivity.
Defined.

(** ** Invariants of the key generator *)

Section KeyInvariant.

(** [P] is a property of the closure variables that every guarded [push]
    keeps, [Q] what is known of the key pushed. *)
Variable P : Keys -> Prop.
Variable Q : string -> Prop.
Hypothesis Q_upper : forall k, Q (removeSpaces (toUpperCase k)).
Hypothesis Q_hyphen : forall u l d, lettersDigits u = Some (l, d) -> Q u -> Q (l ++ "-" ++ d).
Hypothesis P_push :
  forall c k st, has k (processed st) = false -> Q k -> P st -> P (push c k st).

Ltac keyStep IH :=
  repeat match goal with
  | |- P _ => assumption
  | |- P (addF _ _ _ _ _) => apply IH
  | |- P (push _ _ _) => apply P_push; [assumption | auto | ]
  | |- P (if ?b then _ else _) => destruct b eqn:?
  | |- P (match ?x with Some _ => _ | None => _ end) => destruct x as [[? ?]|] eqn:?
  end;
  try match goal with
      | H : lettersDigits _ = Some (?l, ?d) |- Q (?l ++ _) =>
          exact (Q_hyphen _ _ _ H (Q_upper _))
      end.

Lemma addF_inv (fuel : nat) :
  forall k c a st, P st -> P (addF fuel k c a st).
Proof.
  induction fuel as [|fuel IH]; intros k c a st Hst; simpl; [exact Hst|].
  keyStep IH.
Qed.

(** What follows the first [push] of a call keeps [P] as well. *)
Lemma addF_after_push (fuel : nat) (k : string) (c : Category) (a : bool) (st : Keys) :
  nonEmpty k = true ->
  has (removeSpaces (toUpperCase k)) (processed st) = false ->
  P (push c (removeSpaces (toUpperCase k)) st) ->
  P (addF (S fuel) k c a st).
Proof.
  intros Hk Hh Hp. simpl. rewrite Hk, Hh. simpl.
  pose proof (addF_inv fuel) as IH. keyStep IH.
Qed.

Lemma add_inv (k : string) (c : Category) (a : bool) (st : Keys) :
  P st -> P (add k c a st).
Proof. apply addF_inv. Qed.

Lemma fold_inv {X : Type} (f : Keys -> X -> Keys) (l : list X) :
  (forall st x, P st -> P (f st x)) -> forall st, P st -> P (fold_left f l st).
Proof.
  intros Hf. induction l as [|x r IH]; simpl; auto.
Qed.

Ltac strategyStep :=
  cbv zeta;
  repeat match goal with
  | |- P _ => assumption
  | |- P (add _ _ _ _) => apply add_inv
  | |- P (fold_left _ _ _) => apply fold_inv; [intros ? ? ?|]
  | |- P (when _ _ _) => unfold when
  | |- P (match ?x with _ => _ end) => destruct x
  | p : (_ * _)%type |- _ => destruct p
  end.

Variable host : Host.
Variable it : CabinetItem.

Lemma strategy0_inv st : P st -> P (strategy0 it st).
Proof. intros H. unfold strategy0. strategyStep. Qed.

Lemma strategy1_inv st : P st -> P (strategy1 it st).
Proof. intros H. unfold strategy1. strategyStep. Qed.

Lemma strategy1_5_inv st : P st -> P (strategy1_5 it st).
Proof. intros H. unfold strategy1_5. strategyStep. Qed.

Lemma strategy2_inv st : P st -> P (strategy2 it st).
Proof. intros H. unfold strategy2. strategyStep. Qed.

Lemma strategy3_inv st : P st -> P (strategy3 it st).
Proof. intros H. unfold strategy3. strategyStep. Qed.

Lemma strategy4_inv st : P st -> P (strategy4 it st).
Proof. intros H. unfold strategy4. strategyStep. Qed.

Lemma strategy5_inv st : P st -> P (strategy5 it st).
Proof. intros H. unfold strategy5. strategyStep. Qed.

Lemma strategy6_inv st : P st -> P (strategy6 host it st).
Proof. intros H. unfold strategy6. strategyStep. Qed.

Lemma strategy7_inv st : P st -> P (strategy7 it st).
Proof. intros H. unfold strategy7. strategyStep. Qed.

Lemma strategy8_inv st : P st -> P (strategy8 it st).
Proof. intros H. unfold strategy8. strategyStep. Qed.

(** From the end of strategy 1 to the end of the generator. *)
Lemma later_strategies_inv st :
  P st ->
  P (strategy8 it (strategy7 it (strategy6 host it (strategy5 it (strategy4 it
       (strategy3 it (strategy2 it (strategy1_5 it st)))))))).
Proof.
  intros H. apply strategy8_inv, strategy7_inv, strategy6_inv, strategy5_inv,
    strategy4_inv, strategy3_inv, strategy2_inv, strategy1_5_inv. exact H.
Qed.

Lemma smartKeysState_inv : P noKeys -> P (smartKeysState host it).
Proof.
  intros H. unfold smartKeysState.
  apply later_strategies_inv, strategy1_inv, strategy0_inv. exact H.
Qed.

End KeyInvariant.

Lemma generateSmartKeys_state (host : Host) (it : CabinetItem) :
  generateSmartKeys host it
  = (exactKeys (smartKeysState host it), similarKeys (smartKeysState host it)).
Proof. reflexivity. Qed.

Lemma has_In (k : string) (l : list string) : has k l = true <-> In k l.
Proof.
  unfold has. rewrite existsb_exists. split.
  - intros [x [Hx E]]. apply String.eqb_eq in E. subst. exact Hx.
  - intros H. exists k. split; [exact H|apply String.eqb_refl].
Qed.

Lemma allKeys_push (c : Category) (k : string) (st : Keys) (x : string) :
  In x (allKeys (push c k st)) <-> x = k \/ In x (allKeys st).
Proof.
  unfold allKeys. destruct c; simpl; rewrite !in_app_iff; simpl; intuition.
Qed.

Lemma allKeys_push_perm (c : Category) (k : string) (st : Keys) :
  Permutation (k :: allKeys st) (allKeys (push c k st)).
Proof.
  unfold allKeys. destruct c; simpl.
  - rewrite <- app_assoc. simpl.
    apply Permutation_trans with (exactKeys st ++ k :: similarKeys st)%list.
    + apply Permutation_middle.
    + apply Permutation_refl.
  - rewrite app_assoc. apply Permutation_cons_append.
Qed.

(** X10: the two lists of keys the generator returns have no key in
    common and no key twice: a code is never probed twice within passes 2
    and 3. *)
Theorem smart_keys_are_distinct (host : Host) (it : CabinetItem) :
  NoDup (fst (generateSmartKeys host it) ++ snd (generateSmartKeys host it)).
Proof.
  rewrite generateSmartKeys_state. simpl.
  change (NoDup (allKeys (smartKeysState host it))).
  refine (proj1 (smartKeysState_inv
                   (fun st => NoDup (allKeys st)
                              /\ forall k, In k (allKeys st) -> has k (processed st) = true)
                   (fun _ => True) _ _ _ host it _)).
  - intros. exact I.
  - intros. exact I.
  - intros c k st Hk _ [Hnd Hmark]. split.
    + apply Permutation_NoDup with (1 := allKeys_push_perm c k st).
      constructor; [|exact Hnd].
      intros Hin. apply Hmark in Hin. rewrite Hin in Hk. discriminate.
    + intros x Hx. apply allKeys_push in Hx.
      assert (Hp : processed (push c k st) = k :: processed st) by (destruct c; reflexivity).
      rewrite Hp. unfold has. simpl. destruct Hx as [->|Hx].
      * rewrite String.eqb_refl. reflexivity.
      * apply Hmark in Hx. unfold has in Hx. rewrite Hx. apply orb_true_r.
  - split; [constructor|]. intros k [].
Qed.

Lemma forallChars_app (p : ascii -> bool) (a b : string) :
  forallChars p (a ++ b) = forallChars p a && forallChars p b.
Proof.
  induction a as [|c r IH]; simpl; [reflexivity|]. rewrite IH. apply andb_assoc.
Qed.

Lemma forallChars_take (p : ascii -> bool) (n : nat) (s : string) :
  forallChars p s = true -> forallChars p (take n s) = true.
Proof.
  revert s. induction n as [|n IH]; intros [|c r]; simpl; auto.
  intros H. apply andb_true_iff in H. destruct H as [Hc Hr].
  rewrite Hc, (IH r Hr). reflexivity.
Qed.

Lemma forallChars_drop (p : ascii -> bool) (n : nat) (s : string) :
  forallChars p s = true -> forallChars p (drop n s) = true.
Proof.
  revert s. induction n as [|n IH]; intros [|c r]; simpl; auto.
  intros H. apply andb_true_iff in H. destruct H as [Hc Hr]. auto.
Qed.

Lemma lettersDigits_parts (u l d : string) :
  lettersDigits u = Some (l, d) ->
  exists n m, l = take n u /\ d = take m (drop n u).
Proof.
  unfold lettersDigits, lettersDigitsPrefix.
  destruct (spanLen isAZ u) as [|n]; [discriminate|].
  destruct (spanLen isDigit (drop (S n) u)) as [|m]; [discriminate|].
  destruct (Nat.eqb _ _); [|discriminate].
  intros H. exists (S n), (S m). injection H as H1 H2. split; symmetry; assumption.
Qed.

Lemma lookupForm_hyphenated (u l d : string) :
  lettersDigits u = Some (l, d) -> lookupForm u = true -> lookupForm (l ++ "-" ++ d) = true.
Proof.
  intros H Hu. destruct (lettersDigits_parts u l d H) as (n & m & -> & ->).
  unfold lookupForm in *. rewrite !forallChars_app.
  rewrite (forallChars_take _ n u Hu).
  rewrite (forallChars_take _ m _ (forallChars_drop _ n u Hu)). reflexivity.
Qed.

(** ** A code whose normal form is in the catalogue *)

Lemma addF_seen (fuel : nat) (k : string) (c : Category) (a : bool) (st : Keys) :
  has (removeSpaces (toUpperCase k)) (processed st) = true -> addF (S fuel) k c a st = st.
Proof.
  intros H. simpl. destruct (negb (nonEmpty k)); [reflexivity|]. rewrite H. reflexivity.
Qed.

Lemma add_marks (raw : string) (c : Category) (a : bool) (st : Keys) :
  nonEmpty raw = true ->
  has (removeSpaces (toUpperCase raw)) (processed (add raw c a st)) = true.
Proof.
  intros Hraw. unfold add.
  destruct (has (removeSpaces (toUpperCase raw)) (processed st)) eqn:E.
  - rewrite (addF_seen 3 raw c a st E). exact E.
  - apply (addF_after_push
             (fun st => has (removeSpaces (toUpperCase raw)) (processed st) = true)
             (fun _ => True)); auto.
    + intros c' k st' _ _ H. destruct c'; simpl; unfold has in *; simpl; rewrite H;
        apply orb_true_r.
    + destruct c; unfold has; simpl; rewrite String.eqb_refl; reflexivity.
Qed.

Lemma marked_push (u : string) (c : Category) (k : string) (st : Keys) :
  has u (processed st) = true -> has u (processed (push c k st)) = true.
Proof.
  intros H. destruct c; unfold has in *; simpl; rewrite H; apply orb_true_r.
Qed.

Lemma cleanCode_is_a_key (host : Host) (it : CabinetItem) :
  nonEmpty (normalizeNKBACode (originalCode it)) = true ->
  In (removeSpaces (toUpperCase (normalizeNKBACode (originalCode it))))
     (allKeys (smartKeysState host it)).
Proof.
  intros Hne.
  set (u := removeSpaces (toUpperCase (normalizeNKBACode (originalCode it)))).
  assert (Hmirror : forall k, has k (processed (smartKeysState host it)) = true ->
                              In k (allKeys (smartKeysState host it))).
  { apply (smartKeysState_inv
             (fun st => forall k, has k (processed st) = true -> In k (allKeys st))
             (fun _ => True)); auto.
    - intros c k st _ _ Hst x Hx. apply allKeys_push.
      assert (Hp : processed (push c k st) = k :: processed st) by (destruct c; reflexivity).
      rewrite Hp in Hx. unfold has in Hx. simpl in Hx. apply orb_true_iff in Hx.
      destruct Hx as [Hx|Hx]; [left; apply String.eqb_eq; exact Hx|right; apply Hst; exact Hx].
    - intros k Hk. discriminate Hk. }
  apply Hmirror. unfold smartKeysState.
  apply (later_strategies_inv (fun st => has u (processed st) = true) (fun _ => True)); auto.
  { intros c k st _ _. apply marked_push. }
  unfold strategy1. cbv zeta.
  apply (add_inv (fun st => has u (processed st) = true) (fun _ => True)); auto.
  { intros c k st _ _. apply marked_push. }
  unfold when. destruct (nonEmpty (normalizedCode it)).
  - apply (add_inv (fun st => has u (processed st) = true) (fun _ => True)); auto.
    { intros c k st _ _. apply marked_push. }
    apply add_marks. exact Hne.
  - apply add_marks. exact Hne.
Qed.

Lemma firstStrict_hit (cat : dict (dict float)) (tierName : string) (label : string -> string)
    (ks : list string) (u : string) (m : Match) :
  In u ks -> findCatalogPrice u cat tierName true = Some m ->
  exists m', firstStrict cat tierName label ks = Some m'.
Proof.
  induction ks as [|k r IH]; simpl; [intros []|].
  intros [->|Hin] Hf.
  - rewrite Hf. eauto.
  - destruct (findCatalogPrice k cat tierName true); eauto.
Qed.

Lemma source_of_row (method col src : string) :
  In src (rowSources method col) -> startsWith src "Catalog (" = true.
Proof.
  unfold rowSources. simpl.
  intros [<-|[<-|[<-|[<-|[<-|[]]]]]]; apply (startsWith_app "Catalog (").
Qed.

Lemma getPriceFromItem_source (row : dict float) (tierId sku method : string) (m : Match) :
  getPriceFromItem row tierId sku method = Some m -> startsWith (m_source m) "Catalog (" = true.
Proof.
  intros H. apply getPriceFromItem_shape in H. destruct H as [_ [col Hs]].
  apply source_of_row with (1 := Hs).
Qed.

Lemma findCatalogPrice_source (sku : string) (cat : dict (dict float)) (tierId : string)
    (strict : bool) (m : Match) :
  findCatalogPrice sku cat tierId strict = Some m -> startsWith (m_source m) "Catalog (" = true.
Proof.
  unfold findCatalogPrice. cbv zeta.
  destruct (negb _ || _); [discriminate|].
  destruct (lookup (normalizeLookup sku) cat); [apply getPriceFromItem_source|].
  destruct (lookup (removeChar "-" _) cat); [apply getPriceFromItem_source|].
  match goal with
  | |- context [if ?c then lookup ?k cat else None] =>
      destruct c; [destruct (lookup k cat); [apply getPriceFromItem_source|]|]
  end.
  all: destruct strict; [discriminate|].
  all: destruct (wallMatch _) as [[[p h] sfx]|];
       [destruct (firstPresent cat _) as [[cand e]|]; [apply getPriceFromItem_source|]|].
  all: destruct (firstShortening cat _) as [[[sub cut] e]|]; [apply getPriceFromItem_source|].
  all: destruct (coreMatch _) as [core|]; [|discriminate].
  all: destruct (lookup core cat); [apply getPriceFromItem_source|discriminate].
Qed.

Lemma matchCatalog_source (host : Host) (it : CabinetItem) (cat : dict (dict float))
    (tierName : string) (m : Match) :
  matchCatalog host it cat tierName = Some m -> startsWith (m_source m) "Catalog (" = true.
Proof.
  unfold matchCatalog. destruct (generateSmartKeys host it) as [ex si].
  destruct (findCatalogPrice (originalCode it) cat tierName true) eqn:E1; simpl.
  { intros H. injection H as <-. apply findCatalogPrice_source with (1 := E1). }
  destruct (firstStrict cat tierName _ ex) eqn:E2; simpl.
  { intros H. injection H as <-. apply firstStrict_Some in E2.
    destruct E2 as (key & mk & _ & _ & _ & _ & Hs). rewrite Hs.
    apply (startsWith_app "Catalog ("). }
  destruct (firstStrict cat tierName _ si) eqn:E3; simpl.
  { intros H. injection H as <-. apply firstStrict_Some in E3.
    destruct E3 as (key & mk & _ & _ & _ & _ & Hs). rewrite Hs.
    apply (startsWith_app "Catalog ("). }
  destruct (findCatalogPrice (originalCode it) cat tierName false) eqn:E4; simpl.
  { intros H. injection H as <-. apply findCatalogPrice_source with (1 := E4). }
  unfold globalPrefixMatch. cbv zeta.
  destruct (nonEmpty _ && _); [|discriminate].
  destruct (find _ (keys cat)) as [[|c k]|]; try discriminate.
  destruct (lookup (String c k) cat); [|discriminate].
  apply getPriceFromItem_source.
Qed.

Lemma priceItem_of_match (host : Host) (manufacturer : Manufacturer) (tierId : string)
    (specs : option ProjectSpecs) (financials : option ProjectFinancials)
    (roomSpecs : option (dict ProjectSpecs)) (it : CabinetItem) (m : Match) :
  matchCatalog host it (catalog manufacturer)
    (effectiveTierName manufacturer tierId specs roomSpecs it) = Some m ->
  let l := priceItem host manufacturer tierId specs financials roomSpecs it in
  li_normalizedCode l = matchedSku m /\ basePrice l = Num.round (price m)
  /\ source l = m_source m.
Proof.
  intros Hm l. subst l. unfold priceItem, baseOf. rewrite Hm. simpl. auto.
Qed.

(** X12: the source of every line of the output is populated: it is "NOT
    FOUND", "Extracted from PDF", or a text starting with "Catalog (", and
    never the initial "Unknown".  It is "NOT FOUND" only when no pass
    matched, the base price then being zero. *)
Theorem source_is_populated
    (host : Host) (manufacturer : Manufacturer) (tierId : string)
    (specs : option ProjectSpecs) (financials : option ProjectFinancials)
    (roomSpecs : option (dict ProjectSpecs))
    (items : list CabinetItem) (l : PricingLineItem) :
  In l (calculateProjectPricing host manufacturer tierId specs financials roomSpecs items) ->
  (source l = "NOT FOUND" \/ source l = "Extracted from PDF"
   \/ startsWith (source l) "Catalog (" = true)
  /\ source l <> "Unknown"
  /\ (source l = "NOT FOUND" ->
      matchCatalog host (item l) (catalog manufacturer)
        (effectiveTierName manufacturer tierId specs roomSpecs (item l)) = None
      /\ basePrice l = 0%float).
Proof.
  intros Hin. apply In_calculate in Hin. destruct Hin as [it [_ [_ Hl]]].
  assert (Hitem : item l = it) by (subst l; apply item_priceItem).
  rewrite Hitem.
  destruct (matchCatalog host it (catalog manufacturer)
              (effectiveTierName manufacturer tierId specs roomSpecs it)) as [m|] eqn:E.
  - destruct (priceItem_of_match host manufacturer tierId specs financials roomSpecs it m E)
      as (_ & _ & Hs).
    pose proof (matchCatalog_source _ _ _ _ _ E) as Hc.
    subst l. rewrite Hs. split; [auto|]. split.
    + intros H. rewrite H in Hc. discriminate Hc.
    + intros H. rewrite H in Hc. discriminate Hc.
  - subst l. unfold priceItem, baseOf, resolveBase. rewrite E.
    destruct (extractedPrice it) as [p|].
    + destruct (Num.truthy p && (0 <? p)%float); simpl.
      * split; [auto|]. split; discriminate.
      * split; [auto|]. split; [discriminate|auto].
    + simpl. split; [auto|]. split; [discriminate|auto].
Qed.

Lemma source_is_populated_witness :
  startsWith (source (priceItem sampleHost (testMfg [] (oneRow "B15" 200)) "standard"
                        None None None (testItem "B15L" Base 15 1))) "Catalog (" = true.
Proof.
  destruct (source_is_populated sampleHost (testMfg [] (oneRow "B15" 200)) "standard"
              None None None [testItem "B15L" Base 15 1]
              (priceItem sampleHost (testMfg [] (oneRow "B15" 200)) "standard"
                 None None None (testItem "B15L" Base 15 1))) as [[H|[H|H]] _].
  - vm_compute. left. reflexivity.
  - vm_compute in H. discriminate H.
  - vm_compute in H. discriminate H.
  - exact H.
Defined.

(** ** The normaliser only deletes *)

Lemma subseq_refl (s : string) : subseq s s.
Proof. induction s; constructor; assumption. Qed.

Lemma subseq_empty (s : string) : subseq "" s.
Proof. induction s; constructor; assumption. Qed.

Lemma subseq_trans (a b c : string) : subseq a b -> subseq b c -> subseq a c.
Proof.
  intros Hab Hbc. revert a Hab. induction Hbc as [|x s t H IH|x s t H IH]; intros a Hab.
  - exact Hab.
  - constructor. apply IH. exact Hab.
  - inversion Hab; subst.
    + apply subseq_skip. apply IH. assumption.
    + apply subseq_keep. apply IH. assumption.
Qed.

Lemma subseq_length (s t : string) : subseq s t -> String.length s <= String.length t.
Proof. induction 1; simpl; lia. Qed.

Lemma subseq_same_length (s t : string) :
  subseq s t -> String.length s = String.length t -> s = t.
Proof.
  induction 1 as [|c s t H IH|c s t H IH]; simpl; intros E.
  - reflexivity.
  - apply subseq_length in H. lia.
  - f_equal. apply IH. lia.
Qed.

Lemma subseq_chars (p : ascii -> bool) (s t : string) :
  subseq s t -> forallChars p t = true -> forallChars p s = true.
Proof.
  induction 1 as [|c s t H IH|c s t H IH]; simpl; intros Hp.
  - reflexivity.
  - apply andb_true_iff in Hp. destruct Hp. auto.
  - apply andb_true_iff in Hp. destruct Hp as [Hc Ht]. rewrite Hc. simpl. auto.
Qed.

Lemma subseq_app (a a' b b' : string) :
  subseq a a' -> subseq b b' -> subseq (a ++ b) (a' ++ b').
Proof.
  intros Ha Hb. induction Ha; simpl.
  - exact Hb.
  - apply subseq_skip. assumption.
  - apply subseq_keep. assumption.
Qed.

Lemma take_drop (n : nat) (s : string) : take n s ++ drop n s = s.
Proof.
  revert s. induction n as [|n IH]; intros [|c r]; simpl; try reflexivity.
  rewrite IH. reflexivity.
Qed.

Lemma subseq_drop (n : nat) (s : string) : subseq (drop n s) s.
Proof.
  revert s. induction n as [|n IH]; intros [|c r]; simpl; try apply subseq_refl.
  apply subseq_skip. apply IH.
Qed.

Lemma subseq_take (n : nat) (s : string) : subseq (take n s) s.
Proof.
  revert s. induction n as [|n IH]; intros [|c r]; simpl; try apply subseq_empty.
  apply subseq_keep. apply IH.
Qed.

Lemma subseq_trimStart (s : string) : subseq (trimStart s) s.
Proof.
  induction s as [|c r IH]; simpl; [constructor|].
  destruct (isSpace c); [apply subseq_skip; exact IH|apply subseq_refl].
Qed.

Lemma subseq_trimEnd (s : string) : subseq (trimEnd s) s.
Proof.
  induction s as [|c r IH]; simpl; [constructor|].
  destruct (trimEnd r) as [|c' r'].
  - destruct (isSpace c); [apply subseq_empty|]. apply subseq_keep. apply subseq_empty.
  - apply subseq_keep. exact IH.
Qed.

Lemma subseq_trim (s : string) : subseq (trim s) s.
Proof.
  unfold trim. apply subseq_trans with (trimStart s);
    [apply subseq_trimEnd|apply subseq_trimStart].
Qed.

(** A matcher that only deletes: what it puts in is part of what it takes
    out.  [G] restricts the texts it is run on and holds of every suffix of
    such a text. *)
Section DeletingMatcher.

Variable G : string -> Prop.
Hypothesis G_tail : forall c r, G (String c r) -> G r.
Variable m : matcher.
Hypothesis m_deletes : forall s n rep, G s -> m s = Some (n, rep) -> subseq rep (take n s).

Lemma replaceFirst_subseq (s : string) : G s -> subseq (replaceFirst m s) s.
Proof.
  induction s as [|c r IH]; intros Hg.
  - simpl. destruct (m "") as [[n rep]|] eqn:E; [|constructor].
    pose proof (m_deletes _ _ _ Hg E) as H.
    apply subseq_trans with (take n "" ++ drop n ""); [|rewrite take_drop; apply subseq_refl].
    apply subseq_app; [exact H|apply subseq_refl].
  - simpl. destruct (m (String c r)) as [[n rep]|] eqn:E.
    + pose proof (m_deletes _ _ _ Hg E) as H.
      apply subseq_trans with (take n (String c r) ++ drop n (String c r));
        [|rewrite take_drop; apply subseq_refl].
      apply subseq_app; [exact H|apply subseq_refl].
    + apply subseq_keep. apply IH. apply G_tail with (1 := Hg).
Qed.

Lemma replaceAll_subseq (s : string) : forall k, G s -> subseq (replaceAll m k s) (drop k s).
Proof.
  induction s as [|c r IH]; intros k Hg.
  - destruct k; apply subseq_nil.
  - pose proof (G_tail _ _ Hg) as Hr. destruct k as [|k]; simpl.
    + destruct (m (String c r)) as [[[|j] rep]|] eqn:E.
      * apply subseq_keep. apply (IH 0 Hr).
      * pose proof (m_deletes _ _ _ Hg E) as H.
        apply subseq_trans with (take (S j) (String c r) ++ drop (S j) (String c r));
          [|rewrite take_drop; apply subseq_refl].
        apply subseq_app; [exact H|]. simpl drop. apply IH. exact Hr.
      * apply subseq_keep. apply (IH 0 Hr).
    + apply IH. exact Hr.
Qed.

End DeletingMatcher.

Lemma normalize_steps (x : string) :
  normalizeNKBACode x = if String.eqb x "" then "" else laterSteps (firstSteps x).
Proof. reflexivity. Qed.

Lemma take_add (n k : nat) (s : string) : take (n + k) s = take n s ++ take k (drop n s).
Proof.
  revert s. induction n as [|n IH]; intros s; simpl.
  - destruct s; reflexivity.
  - destruct s as [|c r]; simpl.
    + destruct k; reflexivity.
    + rewrite IH. reflexivity.
Qed.

Lemma subseq_prefixed (a s : string) : subseq s (a ++ s).
Proof.
  induction a as [|c a IH]; simpl; [apply subseq_refl|]. apply subseq_skip. exact IH.
Qed.

Lemma drop_head_take (n : nat) (r : string) (d : ascii) (t : string) :
  drop n r = String d t -> take (S n) r = take n r ++ String d "".
Proof.
  intros H. replace (S n) with (n + 1) by lia. rewrite take_add, H. reflexivity.
Qed.

Lemma mLetterGapDigit_deletes (s : string) (n : nat) (rep : string) :
  mLetterGapDigit s = Some (n, rep) -> subseq rep (take n s).
Proof.
  unfold mLetterGapDigit. destruct s as [|c r]; [discriminate|].
  destruct (isAZ c); [|discriminate].
  destruct (spanLen isSpace r) as [|k] eqn:Ek; [discriminate|].
  destruct (drop (S k) r) as [|d t] eqn:Ed; [discriminate|].
  destruct (isDigit d); [|discriminate].
  intros H. injection H as <- <-.
  replace (S (S (k + 1))) with (1 + S (S k)) by lia. rewrite (take_add 1 (S (S k))).
  change (take 1 (String c r)) with (String c "").
  change (drop 1 (String c r)) with r.
  rewrite (drop_head_take (S k) r d t Ed).
  apply (subseq_app (String c "") (String c "") (String d "") _ (subseq_refl _)).
  apply subseq_prefixed.
Qed.

Lemma mNoise_deletes (noise s : string) (n : nat) (rep : string) :
  mNoise noise s = Some (n, rep) -> subseq rep (take n s).
Proof.
  unfold mNoise. destruct (spanLen isAZ s) as [|k] eqn:Ek; [discriminate|].
  destruct (startsWith (drop (S k) s) noise); [|discriminate].
  destruct (drop (String.length noise) (drop (S k) s)) as [|d1 [|d2 t]] eqn:Ed; try discriminate.
  destruct (isDigit d1 && isDigit d2); [|discriminate].
  intros H.
  assert (Hn : n = S k + (String.length noise + 2)) by (injection H; intros; lia).
  assert (Hr : rep = take (S k) s ++ String d1 (String d2 ""))
    by (injection H; intros; symmetry; assumption).
  rewrite Hn, Hr. rewrite (take_add (S k)). apply subseq_app; [apply subseq_refl|].
  rewrite take_add, Ed. apply subseq_prefixed.
Qed.

Lemma take_all (s : string) : take (String.length s) s = s.
Proof. induction s as [|c r IH]; simpl; [reflexivity|]. rewrite IH. reflexivity. Qed.

Lemma mConstruction_deletes (tag s : string) (n : nat) (rep : string) :
  mConstruction tag s = Some (n, rep) -> subseq rep (take n s).
Proof.
  unfold mConstruction. destruct (spanLen isDigit s) as [|k]; [discriminate|].
  destruct (_ && _); [|discriminate].
  intros H.
  assert (Hn : n = String.length s) by (injection H; intros; symmetry; assumption).
  assert (Hr : rep = take (S k) s) by (injection H; intros; symmetry; assumption).
  rewrite Hn, Hr, take_all. apply subseq_take.
Qed.

Lemma deletes_nothing_in (m : matcher) :
  (forall s n rep, m s = Some (n, rep) -> rep = "") ->
  forall s n rep, True -> m s = Some (n, rep) -> subseq rep (take n s).
Proof.
  intros Hm s n rep _ E. rewrite (Hm _ _ _ E). apply subseq_empty.
Qed.

Lemma mEnd_empty (ws : list string) (s : string) (n : nat) (rep : string) :
  mEnd ws s = Some (n, rep) -> rep = "".
Proof. unfold mEnd. destruct (existsb _ ws); [|discriminate]. intros H. injection H as _ <-. reflexivity. Qed.

Lemma mDepth_empty (s : string) (n : nat) (rep : string) :
  mDepth s = Some (n, rep) -> rep = "".
Proof.
  unfold mDepth. destruct (drop _ s) as [|c r1]; [discriminate|].
  destruct (Ascii.ascii_dec c "X") as [->|Hc].
  - destruct (spanLen isDigit _); [discriminate|].
    destruct (startsWith _ "DP"); [|discriminate].
    intros H. injection H as _ <-. reflexivity.
  - destruct c as [[] [] [] [] [] [] [] []]; try discriminate. contradiction Hc. reflexivity.
Qed.

Lemma mTD_empty (s : string) (n : nat) (rep : string) : mTD s = Some (n, rep) -> rep = "".
Proof.
  unfold mTD. destruct (startsWith _ "TD"); [|discriminate].
  intros H. injection H as _ <-. reflexivity.
Qed.

Lemma mLit_empty (w s : string) (n : nat) (rep : string) :
  mLit w "" s = Some (n, rep) -> rep = "".
Proof.
  unfold mLit. destruct (startsWith s w); [|discriminate].
  intros H. injection H as _ <-. reflexivity.
Qed.

Lemma subseq_dropDotsNotAfterDigit (s : string) (b : bool) :
  subseq (dropDotsNotAfterDigit b s) s.
Proof.
  revert b. induction s as [|c r IH]; intros b; simpl; [apply subseq_nil|].
  destruct (Ascii.eqb c "." && negb b); [apply subseq_skip|apply subseq_keep]; apply IH.
Qed.

Lemma subseq_dropDotsNotBeforeDigit (s : string) : subseq (dropDotsNotBeforeDigit s) s.
Proof.
  induction s as [|c r IH]; simpl; [apply subseq_nil|].
  destruct (Ascii.eqb c "." && negb (headIsDigit r)); [apply subseq_skip|apply subseq_keep];
    apply IH.
Qed.

Lemma startsWith_split (w s : string) :
  startsWith s w = true -> s = w ++ drop (String.length w) s.
Proof.
  revert s. induction w as [|a w IH]; intros s; simpl.
  - destruct s; reflexivity.
  - destruct s as [|b r]; [discriminate|]. intros H.
    apply andb_true_iff in H. destruct H as [Hab Hr].
    apply Ascii.eqb_eq in Hab. subst b. simpl. rewrite <- (IH r Hr). reflexivity.
Qed.

Lemma subseq_dishwasher (s : string) :
  startsWith s "DHW" = true -> subseq ("DW" ++ drop 3 s) s.
Proof.
  intros H. apply startsWith_split in H. simpl String.length in H.
  rewrite H at 2. simpl.
  apply subseq_keep. apply subseq_skip. apply subseq_keep. apply subseq_refl.
Qed.


Lemma step_end (ws : list string) (x : string) : subseq (replaceFirst (mEnd ws) x) x.
Proof.
  apply (replaceFirst_subseq (fun _ => True)); auto.
  apply deletes_nothing_in. apply mEnd_empty.
Qed.

Lemma step_noise (noise x : string) :
  subseq (if testAtStart (mNoise noise) x then replaceFirst (mNoise noise) x else x) x.
Proof.
  destruct (testAtStart (mNoise noise) x); [|apply subseq_refl].
  apply (replaceFirst_subseq (fun _ => True)); auto.
  intros s n rep _. apply mNoise_deletes.
Qed.

Lemma step_gap (x : string) : subseq (replaceAll mLetterGapDigit 0 x) x.
Proof.
  apply (replaceAll_subseq (fun _ => True) (fun _ _ _ => I) mLetterGapDigit) with (k := 0); auto.
  intros s n rep _. apply mLetterGapDigit_deletes.
Qed.

Lemma step_erase (m : matcher) (x : string) :
  (forall s n rep, m s = Some (n, rep) -> rep = "") -> subseq (replaceAll m 0 x) x.
Proof.
  intros Hm.
  apply (replaceAll_subseq (fun _ => True) (fun _ _ _ => I) m) with (k := 0); auto.
  apply deletes_nothing_in. exact Hm.
Qed.

Lemma step_dots (x : string) :
  subseq (dropDotsNotBeforeDigit (dropDotsNotAfterDigit false x)) x.
Proof.
  apply subseq_trans with (dropDotsNotAfterDigit false x).
  - apply subseq_dropDotsNotBeforeDigit.
  - apply subseq_dropDotsNotAfterDigit.
Qed.

Lemma step_construction (tag x : string) : subseq (replaceFirst (mConstruction tag) x) x.
Proof.
  apply (replaceFirst_subseq (fun _ => True)); auto.
  intros s n rep _. apply mConstruction_deletes.
Qed.

Lemma step_dishwasher (x : string) :
  subseq (if startsWith x "DHW" then "DW" ++ drop 3 x else x) x.
Proof.
  destruct (startsWith x "DHW") eqn:E; [apply subseq_dishwasher; exact E|apply subseq_refl].
Qed.

Lemma step_side (b : bool) (ws : list string) (x : string) :
  subseq (if b then replaceFirst (mEnd ws) x else x) x.
Proof.
  destruct b; [apply step_end|apply subseq_refl].
Qed.

Lemma laterSteps_subseq (s : string) : subseq (laterSteps s) s.
Proof.
  unfold laterSteps. cbv zeta.
  repeat (eapply subseq_trans;
          [first [ apply step_end | apply step_noise | apply step_gap
                 | apply (step_erase mDepth); apply mDepth_empty
                 | apply (step_erase mTD); apply mTD_empty
                 | apply (step_erase (mLit "ROT" "")); apply mLit_empty
                 | apply step_dots | apply step_construction
                 | apply step_dishwasher | apply step_side ] | ]).
  apply subseq_refl.
Qed.

(** ** The first steps *)

Lemma length_mapChars (f : ascii -> ascii) (s : string) :
  String.length (mapChars f s) = String.length s.
Proof. induction s as [|c r IH]; simpl; [reflexivity|]. rewrite IH. reflexivity. Qed.

Lemma collapse_length (s : string) :
  forall k, k <= spanLen isSpace s ->
  String.length (replaceAll mSpaces k s) + k <= String.length s.
Proof.
  induction s as [|c r IH]; intros k Hk; simpl in *.
  - lia.
  - destruct k as [|k].
    + unfold mSpaces. simpl. destruct (isSpace c); simpl; fold mSpaces.
      * specialize (IH (spanLen isSpace r) (Nat.le_refl _)). lia.
      * specialize (IH 0 (Nat.le_0_l _)). lia.
    + destruct (isSpace c); [|lia]. specialize (IH k). lia.
Qed.

Lemma fixes_plain (c : ascii) : plainChar (fixAt (fixDollar (upperChar c))) = true.
Proof. destruct c as [[] [] [] [] [] [] [] []]; reflexivity. Qed.

Lemma forallChars_mapChars (p : ascii -> bool) (f : ascii -> ascii) (s : string) :
  (forall c, p (f c) = true) -> forallChars p (mapChars f s) = true.
Proof.
  intros H. induction s as [|c r IH]; simpl; [reflexivity|]. rewrite H, IH. reflexivity.
Qed.

Lemma mapChars_mapChars (f g : ascii -> ascii) (s : string) :
  mapChars f (mapChars g s) = mapChars (fun c => f (g c)) s.
Proof. induction s as [|c r IH]; simpl; [reflexivity|]. rewrite IH. reflexivity. Qed.

Lemma upper_trimStart (s : string) :
  mapChars upperChar (trimStart s) = trimStart (mapChars upperChar s).
Proof.
  induction s as [|c r IH]; simpl; [reflexivity|].
  destruct (upperChar_props c) as (_ & Hs & _). rewrite Hs.
  destruct (isSpace c); [exact IH|reflexivity].
Qed.

Lemma upper_trimEnd (s : string) :
  mapChars upperChar (trimEnd s) = trimEnd (mapChars upperChar s).
Proof.
  induction s as [|c r IH]; simpl; [reflexivity|].
  rewrite <- IH. destruct (upperChar_props c) as (_ & Hs & _).
  destruct (trimEnd r) as [|c' r']; simpl.
  - rewrite Hs. destruct (isSpace c); reflexivity.
  - reflexivity.
Qed.

Lemma upper_trim (s : string) : toUpperCase (trim s) = trim (toUpperCase s).
Proof.
  unfold toUpperCase, trim. rewrite upper_trimEnd, upper_trimStart. reflexivity.
Qed.

(** After the symbol corrections every character is plain. *)
Lemma symbols_plain (x : string) :
  forallChars plainChar (mapChars fixAt (mapChars fixDollar (trim (toUpperCase x)))) = true.
Proof.
  rewrite <- upper_trim. unfold toUpperCase. rewrite !mapChars_mapChars.
  apply forallChars_mapChars. intros c. apply fixes_plain.
Qed.

Lemma plain_normal (c : ascii) : plainChar c = true -> isSpace c = false -> normalChar c = true.
Proof.
  unfold plainChar, normalChar. intros Hp Hs. rewrite Hp, Hs. reflexivity.
Qed.

Lemma collapse_chars (s : string) :
  forallChars plainChar s = true ->
  forall k, k <= spanLen isSpace s -> forallChars normalChar (replaceAll mSpaces k s) = true.
Proof.
  induction s as [|c r IH]; intros Hp k Hk; simpl in *; [reflexivity|].
  apply andb_true_iff in Hp. destruct Hp as [Hc Hr].
  destruct k as [|k].
  - unfold mSpaces. simpl. destruct (isSpace c) eqn:E; simpl.
    + apply IH; [exact Hr|apply Nat.le_refl].
    + rewrite (plain_normal c Hc E). apply IH; [exact Hr|apply Nat.le_0_l].
  - destruct (isSpace c); [|lia]. apply IH; [exact Hr|lia].
Qed.

Lemma firstSteps_length (x : string) : String.length (firstSteps x) <= String.length x.
Proof.
  unfold firstSteps.
  pose proof (subseq_length _ _ (subseq_trim
    (replaceAll mSpaces 0 (mapChars fixAt (mapChars fixDollar (trim (toUpperCase x))))))) as H1.
  pose proof (collapse_length (mapChars fixAt (mapChars fixDollar (trim (toUpperCase x)))) 0
                (Nat.le_0_l _)) as H2.
  rewrite !length_mapChars in H2.
  pose proof (subseq_length _ _ (subseq_trim (toUpperCase x))) as H3.
  unfold toUpperCase in H3 at 2. rewrite length_mapChars in H3. lia.
Qed.

Lemma firstSteps_normal (x : string) : forallChars normalChar (firstSteps x) = true.
Proof.
  unfold firstSteps, trim. apply trimEnd_chars, trimStart_chars.
  apply collapse_chars; [apply symbols_plain|apply Nat.le_0_l].
Qed.

Lemma mapChars_chars (p : ascii -> bool) (f : ascii -> ascii) (s : string) :
  (forall c, p c = true -> p (f c) = true) ->
  forallChars p s = true -> forallChars p (mapChars f s) = true.
Proof.
  intros Hf. induction s as [|c r IH]; [reflexivity|].
  cbn [forallChars mapChars]. intros H. apply andb_true_iff in H. destruct H as [Hc Hr].
  rewrite (Hf c Hc), (IH Hr). reflexivity.
Qed.

Lemma collapse_keeps (p : ascii -> bool) (s : string) (k : nat) :
  p " "%char = true -> forallChars p s = true ->
  forallChars p (replaceAll mSpaces k s) = true.
Proof.
  intros Hsp. revert k. induction s as [|a r IH]; intros k H; [reflexivity|].
  cbn [forallChars] in H. apply andb_true_iff in H. destruct H as [Ha Hr].
  destruct k as [|k]; cbn [replaceAll]; [|apply IH; exact Hr].
  unfold mSpaces. destruct (spanLen isSpace (String a r)) as [|n].
  - cbn [forallChars]. rewrite Ha. apply IH. exact Hr.
  - change (" " ++ replaceAll (fun s0 => match spanLen isSpace s0 with
                                         | O => None
                                         | S n0 => Some (S n0, " ")
                                         end) n r)
      with (String " " (replaceAll mSpaces n r)).
    cbn [forallChars]. rewrite Hsp. apply IH. exact Hr.
Qed.

Lemma firstSteps_ascii (x : string) : isAscii x = true -> isAscii (firstSteps x) = true.
Proof.
  intros H. unfold firstSteps. apply isAscii_trim. unfold isAscii.
  apply collapse_keeps; [reflexivity|].
  apply mapChars_chars.
  { intros c Hc. unfold fixAt. destruct (Ascii.eqb c "@"); [reflexivity|exact Hc]. }
  apply mapChars_chars.
  { intros c Hc. unfold fixDollar. destruct (Ascii.eqb c "$"); [reflexivity|exact Hc]. }
  apply isAscii_trim, isAscii_toUpperCase. exact H.
Qed.

Lemma isAscii_normalize (x : string) :
  isAscii x = true -> isAscii (normalizeNKBACode x) = true.
Proof.
  intros H. rewrite normalize_steps. destruct (String.eqb x ""); [reflexivity|].
  unfold isAscii. apply subseq_chars with (1 := laterSteps_subseq (firstSteps x)).
  apply firstSteps_ascii. exact H.
Qed.

Lemma normalize_shape (x : string) :
  String.length (normalizeNKBACode x) <= String.length x
  /\ forallChars normalChar (normalizeNKBACode x) = true.
Proof.
  rewrite normalize_steps. destruct (String.eqb x ""); [simpl; split; [lia|reflexivity]|].
  split.
  - pose proof (subseq_length _ _ (laterSteps_subseq (firstSteps x))).
    pose proof (firstSteps_length x). lia.
  - apply subseq_chars with (1 := laterSteps_subseq (firstSteps x)).
    apply firstSteps_normal.
Qed.

(** X14: normalising an ASCII code never lengthens it, and the result is an
    ASCII text made of normal characters only: no lower-case letter, no
    "$", no "@", and no white space other than the space. *)
Theorem normalize_never_lengthens (x : string) :
  isAscii x = true ->
  String.length (normalizeNKBACode x) <= String.length x
  /\ forallChars normalChar (normalizeNKBACode x) = true
  /\ isAscii (normalizeNKBACode x) = true.
Proof.
  intros Ha. destruct (normalize_shape x) as [Hlen Hnormal].
  split; [exact Hlen|]. split; [exact Hnormal|]. apply isAscii_normalize. exact Ha.
Qed.

Lemma normalize_never_lengthens_witness :
  String.length (normalizeNKBACode "vdb 24 ah-3") <= 11
  /\ isAscii (normalizeNKBACode "vdb 24 ah-3") = true.
Proof.
  destruct (normalize_never_lengthens "vdb 24 ah-3" eq_refl) as (Hlen & _ & Hascii).
  split; [exact Hlen|exact Hascii].
Defined.

(** ** Repeated normalisation *)

Lemma mapChars_fixed (f : ascii -> ascii) (s : string) :
  forallChars (fun c => Ascii.eqb (f c) c) s = true -> mapChars f s = s.
Proof.
  induction s as [|c r IH]; simpl; [reflexivity|].
  intros H. apply andb_true_iff in H. destruct H as [Hc Hr].
  apply Ascii.eqb_eq in Hc. rewrite Hc, (IH Hr). reflexivity.
Qed.

Lemma normal_facts (c : ascii) :
  normalChar c = true ->
  isLower c = false /\ fixDollar c = c /\ fixAt c = c /\ (isSpace c = true -> c = " "%char).
Proof.
  destruct c as [[] [] [] [] [] [] [] []]; vm_compute; intros H;
    try discriminate H; repeat split; intros E; try reflexivity; discriminate E.
Qed.

Lemma mSpaces_deletes (s : string) (n : nat) (rep : string) :
  forallChars normalChar s = true -> mSpaces s = Some (n, rep) -> subseq rep (take n s).
Proof.
  unfold mSpaces. destruct s as [|c r]; simpl; [discriminate|].
  intros Hn. apply andb_true_iff in Hn. destruct Hn as [Hc _].
  destruct (isSpace c) eqn:E; [|discriminate].
  intros H.
  assert (Hk : n = S (spanLen isSpace r)) by (injection H; intros; symmetry; assumption).
  assert (Hr : rep = " ") by (injection H; intros; symmetry; assumption).
  rewrite Hk, Hr. simpl.
  destruct (normal_facts c Hc) as (_ & _ & _ & Hsp). rewrite (Hsp E).
  apply subseq_keep. apply subseq_empty.
Qed.

Lemma firstSteps_subseq (y : string) :
  forallChars normalChar y = true -> subseq (firstSteps y) y.
Proof.
  intros Hy. unfold firstSteps.
  assert (Hup : toUpperCase y = y).
  { apply toUpperCase_id. apply forallChars_impl with (2 := Hy).
    intros c Hc. destruct (normal_facts c Hc) as (Hl & _). rewrite Hl. reflexivity. }
  rewrite Hup.
  assert (Ht : forallChars normalChar (trim y) = true)
    by (apply subseq_chars with (1 := subseq_trim y); exact Hy).
  assert (Hd : mapChars fixDollar (trim y) = trim y).
  { apply mapChars_fixed. apply forallChars_impl with (2 := Ht).
    intros c Hc. destruct (normal_facts c Hc) as (_ & H & _). rewrite H. apply Ascii.eqb_refl. }
  assert (Ha : mapChars fixAt (trim y) = trim y).
  { apply mapChars_fixed. apply forallChars_impl with (2 := Ht).
    intros c Hc. destruct (normal_facts c Hc) as (_ & _ & H & _). rewrite H.
    apply Ascii.eqb_refl. }
  rewrite Hd, Ha.
  apply subseq_trans with (replaceAll mSpaces 0 (trim y)); [apply subseq_trim|].
  apply subseq_trans with (trim y); [|apply subseq_trim].
  apply (replaceAll_subseq (fun s => forallChars normalChar s = true)) with (k := 0).
  - intros c r H. simpl in H. apply andb_true_iff in H. tauto.
  - apply mSpaces_deletes.
  - exact Ht.
Qed.

Lemma normalize_subseq (y : string) :
  forallChars normalChar y = true -> subseq (normalizeNKBACode y) y.
Proof.
  intros Hy. rewrite normalize_steps. destruct (String.eqb y ""); [apply subseq_empty|].
  apply subseq_trans with (firstSteps y);
    [apply laterSteps_subseq|apply firstSteps_subseq; exact Hy].
Qed.

Lemma normalize_fixed_or_shorter (y : string) :
  forallChars normalChar y = true ->
  normalizeNKBACode y = y \/ String.length (normalizeNKBACode y) < String.length y.
Proof.
  intros Hy. pose proof (normalize_subseq y Hy) as H.
  pose proof (subseq_length _ _ H) as Hl.
  destruct (Nat.eq_dec (String.length (normalizeNKBACode y)) (String.length y)) as [E|E].
  - left. apply subseq_same_length; assumption.
  - right. lia.
Qed.

Lemma iterate_settles (x : string) (k : nat) :
  let y := iterate (S k) normalizeNKBACode x in
  forallChars normalChar y = true
  /\ (normalizeNKBACode y = y \/ String.length y + k <= String.length x).
Proof.
  induction k as [|k IH]; simpl in *.
  - destruct (normalize_shape x) as [Hl Hn]. split; [exact Hn|]. right. lia.
  - destruct IH as [Hn [Hfix|Hlen]].
    + rewrite Hfix. split; [exact Hn|]. left. exact Hfix.
    + split; [apply normalize_shape|].
      destruct (normalize_fixed_or_shorter _ Hn) as [Hfix|Hshort].
      * left. rewrite Hfix. exact Hfix.
      * right. lia.
Qed.

(** X15: on an ASCII code made of normal characters (in particular on the
    result of normalising an ASCII code) the normaliser only deletes
    characters, so that a pass either leaves such a code as it is or
    shortens it; hence repeated normalisation of an ASCII code settles:
    after at most [length x + 1] passes the code is a fixed point of the
    normaliser. *)
Theorem normalize_settles (x : string) :
  isAscii x = true ->
  (forall y, isAscii y = true -> forallChars normalChar y = true ->
     subseq (normalizeNKBACode y) y
     /\ (normalizeNKBACode y = y \/ String.length (normalizeNKBACode y) < String.length y))
  /\ normalizeNKBACode (iterate (S (String.length x)) normalizeNKBACode x)
     = iterate (S (String.length x)) normalizeNKBACode x.
Proof.
  intros _. split.
  - intros y _ Hy. split; [apply normalize_subseq|apply normalize_fixed_or_shorter]; exact Hy.
  - destruct (iterate_settles x (String.length x)) as [_ [Hfix|Hlen]]; [exact Hfix|].
    assert (E : iterate (S (String.length x)) normalizeNKBACode x = "").
    { destruct (iterate (S (String.length x)) normalizeNKBACode x); [reflexivity|].
      simpl in Hlen. lia. }
    rewrite E. reflexivity.
Qed.

Lemma normalize_settles_witness :
  subseq (normalizeNKBACode "B15L-FE") "B15L-FE"
  /\ (normalizeNKBACode "B15L-FE" = "B15L-FE"
      \/ String.length (normalizeNKBACode "B15L-FE") < String.length "B15L-FE").
Proof.
  apply (proj1 (normalize_settles "B15L-FE" eq_refl)); reflexivity.
Defined.

(** One pass is not always enough: the finished-end marker hides the
    hand of the door from the step that would strip it. *)
Example normalize_needs_a_second_pass :
  normalizeNKBACode "B15L-FE" = "B15L" /\ normalizeNKBACode "B15L" = "B15".
Proof. split; vm_compute; reflexivity. Qed.

(** ** Case and surrounding white space *)

Lemma normalize_as_steps (x : string) : normalizeNKBACode x = laterSteps (firstSteps x).
Proof.
  rewrite normalize_steps. destruct (String.eqb x "") eqn:E; [|reflexivity].
  apply String.eqb_eq in E. subst x. reflexivity.
Qed.

Lemma mapChars_ext (f g : ascii -> ascii) (s : string) :
  (forall c, f c = g c) -> mapChars f s = mapChars g s.
Proof.
  intros H. induction s as [|c r IH]; simpl; [reflexivity|]. rewrite H, IH. reflexivity.
Qed.

Lemma upper_of_lower (c : ascii) : upperChar (lowerChar c) = upperChar c.
Proof. destruct c as [[] [] [] [] [] [] [] []]; reflexivity. Qed.

Lemma upper_of_upper (c : ascii) : upperChar (upperChar c) = upperChar c.
Proof. destruct c as [[] [] [] [] [] [] [] []]; reflexivity. Qed.

Lemma trimEnd_trimEnd (s : string) : trimEnd (trimEnd s) = trimEnd s.
Proof.
  induction s as [|c r IH]; simpl; [reflexivity|].
  destruct (trimEnd r) as [|c' r'] eqn:E.
  - destruct (isSpace c) eqn:Ec; simpl; [reflexivity|]. rewrite Ec. reflexivity.
  - change (trimEnd (String c (String c' r')))
      with (match trimEnd (String c' r') with
            | EmptyString => if isSpace c then EmptyString else String c EmptyString
            | r'' => String c r''
            end).
    rewrite IH. reflexivity.
Qed.

Lemma trimStart_head (s : string) :
  match trimStart s with
  | EmptyString => True
  | String c _ => isSpace c = false
  end.
Proof.
  induction s as [|c r IH]; simpl; [exact I|].
  destruct (isSpace c) eqn:E; [exact IH|exact E].
Qed.

Lemma trimStart_trimEnd (t : string) :
  match t with EmptyString => True | String c _ => isSpace c = false end ->
  trimStart (trimEnd t) = trimEnd t.
Proof.
  destruct t as [|c r]; simpl; [reflexivity|]. intros Hc.
  destruct (trimEnd r); rewrite ?Hc; simpl; rewrite Hc; reflexivity.
Qed.

Lemma trim_trim (s : string) : trim (trim s) = trim s.
Proof.
  unfold trim. rewrite (trimStart_trimEnd (trimStart s) (trimStart_head s)).
  apply trimEnd_trimEnd.
Qed.

(** X16: on an ASCII code the normaliser does not depend on the letter
    case of the code nor on white space around it. *)
Theorem normalize_ignores_case_and_padding (x : string) :
  isAscii x = true ->
  normalizeNKBACode (toLowerCase x) = normalizeNKBACode x
  /\ normalizeNKBACode (toUpperCase x) = normalizeNKBACode x
  /\ normalizeNKBACode (trim x) = normalizeNKBACode x.
Proof.
  intros _. rewrite !normalize_as_steps. unfold firstSteps.
  assert (Hl : toUpperCase (toLowerCase x) = toUpperCase x).
  { unfold toUpperCase, toLowerCase. rewrite mapChars_mapChars.
    apply mapChars_ext. apply upper_of_lower. }
  assert (Hu : toUpperCase (toUpperCase x) = toUpperCase x).
  { unfold toUpperCase. rewrite mapChars_mapChars.
    apply mapChars_ext. apply upper_of_upper. }
  rewrite Hl, Hu, upper_trim, trim_trim. auto.
Qed.

Lemma normalize_ignores_case_and_padding_witness :
  normalizeNKBACode "  vdb24ah-3 " = normalizeNKBACode (toUpperCase "  vdb24ah-3 ").
Proof.
  symmetry. apply (normalize_ignores_case_and_padding "  vdb24ah-3 " eq_refl).
Defined.

(** ** The depth of the calls of [add] *)

Lemma addF_step (fuel : nat) (k : string) (c : Category) (a : bool) (st : Keys) :
  addF (S fuel) k c a st = addStep (addF fuel) k c a st.
Proof. reflexivity. Qed.

Lemma startsWith_empty (s : string) : startsWith s "" = true.
Proof. destruct s; reflexivity. Qed.

Lemma includes_dash (s : string) : includes s "-" = negb (forallChars notDash s).
Proof.
  induction s as [|c r IH]; [reflexivity|].
  change (includes (String c r) "-") with (startsWith (String c r) "-" || includes r "-").
  change (startsWith (String c r) "-") with (Ascii.eqb "-" c && startsWith r "").
  change (forallChars notDash (String c r)) with (notDash c && forallChars notDash r).
  rewrite IH, startsWith_empty. unfold notDash.
  rewrite (Ascii.eqb_sym "-" c).
  destruct (Ascii.eqb c "-"); reflexivity.
Qed.

Lemma notDash_beforeChar (s : string) : forallChars notDash (beforeChar "-" s) = true.
Proof.
  induction s as [|c r IH]; simpl; [reflexivity|].
  destruct (Ascii.eqb c "-") eqn:E; simpl; [reflexivity|].
  unfold notDash at 1. rewrite E. simpl. exact IH.
Qed.

Lemma notDash_upper (s : string) :
  forallChars notDash s = true -> forallChars notDash (removeSpaces (toUpperCase s)) = true.
Proof.
  intros H. rewrite removeSpaces_filter. apply forallChars_filter.
  unfold toUpperCase. induction s as [|c r IH]; simpl in *; [reflexivity|].
  apply andb_true_iff in H. destruct H as [Hc Hr].
  destruct (upperChar_props c) as (_ & _ & Hd). unfold notDash at 1. rewrite Hd.
  unfold notDash in Hc. rewrite Hc. simpl. apply IH. exact Hr.
Qed.

Lemma no_dash_in_base (s : string) :
  includes (removeSpaces (toUpperCase (beforeChar "-" s))) "-" = false.
Proof.
  rewrite includes_dash, notDash_upper; [reflexivity|apply notDash_beforeChar].
Qed.

Section AddStepCalls.

Variables r1 r2 : string -> Category -> bool -> Keys -> Keys.

Ltac splitConditions :=
  repeat match goal with
  | |- context [if ?b then _ else _] => destruct b eqn:?
  | |- context [match ?x with Some _ => _ | None => _ end] => destruct x as [[? ?]|] eqn:?
  end.

(** A call without neighbours on a key without dash calls nothing. *)
Lemma addStep_leaf (k : string) (c : Category) (st : Keys) :
  includes (removeSpaces (toUpperCase k)) "-" = false ->
  addStep r1 k c false st = addStep r2 k c false st.
Proof.
  intros Hd. unfold addStep. cbv zeta. rewrite Hd. reflexivity.
Qed.

(** A call without neighbours calls [add] on the part before the dash
    only. *)
Lemma addStep_plain (k : string) (c : Category) (st : Keys) :
  (forall b c' st', includes (removeSpaces (toUpperCase b)) "-" = false ->
                    r1 b c' false st' = r2 b c' false st') ->
  addStep r1 k c false st = addStep r2 k c false st.
Proof.
  intros H. unfold addStep. cbv zeta.
  rewrite !(H (beforeChar "-" (removeSpaces (toUpperCase k)))) by apply no_dash_in_base.
  reflexivity.
Qed.

(** A call with neighbours on a key without dash calls [add] on the
    neighbours only, without neighbours. *)
Lemma addStep_widths (k : string) (c : Category) (st : Keys) :
  (forall x c' st', r1 x c' false st' = r2 x c' false st') ->
  includes (removeSpaces (toUpperCase k)) "-" = false ->
  addStep r1 k c true st = addStep r2 k c true st.
Proof.
  intros H Hd. unfold addStep. cbv zeta. rewrite Hd.
  splitConditions; rewrite ?H; reflexivity.
Qed.

Lemma addStep_full (k : string) (c : Category) (a : bool) (st : Keys) :
  (forall x c' st', r1 x c' false st' = r2 x c' false st') ->
  (forall b c' st', includes (removeSpaces (toUpperCase b)) "-" = false ->
                    r1 b c' true st' = r2 b c' true st') ->
  addStep r1 k c a st = addStep r2 k c a st.
Proof.
  intros H Hb. unfold addStep. cbv zeta. destruct a.
  - rewrite !(Hb (beforeChar "-" (removeSpaces (toUpperCase k)))) by apply no_dash_in_base.
    splitConditions; rewrite ?H; reflexivity.
  - rewrite !(H (beforeChar "-" (removeSpaces (toUpperCase k)))). reflexivity.
Qed.

End AddStepCalls.

Lemma addF_leaf (n : nat) (k : string) (c : Category) (st : Keys) :
  includes (removeSpaces (toUpperCase k)) "-" = false ->
  addF (S n) k c false st = addF 1 k c false st.
Proof.
  intros Hd. rewrite !addF_step. apply addStep_leaf. exact Hd.
Qed.

Lemma addF_plain (n : nat) (k : string) (c : Category) (st : Keys) :
  addF (S (S n)) k c false st = addF 2 k c false st.
Proof.
  rewrite (addF_step (S n)), (addF_step 1). apply addStep_plain.
  intros b c' st' Hb. rewrite (addF_leaf n b c' st' Hb). reflexivity.
Qed.

Lemma addF_widths (n : nat) (k : string) (c : Category) (st : Keys) :
  includes (removeSpaces (toUpperCase k)) "-" = false ->
  addF (S (S (S n))) k c true st = addF 3 k c true st.
Proof.
  intros Hd. rewrite (addF_step (S (S n))), (addF_step 2). apply addStep_widths; [|exact Hd].
  intros x c' st'. apply addF_plain.
Qed.

(** X17: the calls of [add] nest at most four deep (the key, the part
    before its dash, a neighbour width, the part before the dash of a
    negative neighbour width): more fuel than four changes nothing, for
    any key, category and state. *)
Theorem add_calls_nest_four_deep
    (n : nat) (k : string) (c : Category) (a : bool) (st : Keys) :
  addF (4 + n) k c a st = add k c a st.
Proof.
  unfold add. change (4 + n) with (S (S (S (S n)))).
  rewrite (addF_step (S (S (S n)))), (addF_step 3). apply addStep_full.
  - intros x c' st'. rewrite (addF_plain (S n)), (addF_plain 1). reflexivity.
  - intros b c' st' Hb. rewrite (addF_widths n b c' st' Hb). reflexivity.
Qed.

(** ** Rows the matcher cannot see *)

Lemma lookup_lookupRows {V : Type} (k : string) (cat : dict V) :
  lookupForm k = true -> lookup k (lookupRows cat) = lookup k cat.
Proof.
  intros Hk. induction cat as [|[k' v] r IH]; simpl; [reflexivity|].
  destruct (lookupForm k') eqn:E; simpl.
  - rewrite IH. reflexivity.
  - destruct (String.eqb k k') eqn:Ek; [|exact IH].
    apply String.eqb_eq in Ek. subst k'. rewrite Hk in E. discriminate.
Qed.

Lemma firstPresent_lookupRows {V : Type} (cat : dict V) (cands : list string) :
  Forall (fun k => lookupForm k = true) cands ->
  firstPresent (lookupRows cat) cands = firstPresent cat cands.
Proof.
  induction 1 as [|k r Hk Hr IH]; simpl; [reflexivity|].
  rewrite (lookup_lookupRows k cat Hk), IH. reflexivity.
Qed.

Lemma firstShortening_lookupRows (cat : dict (dict float)) (l : list (string * string)) :
  Forall (fun p => lookupForm (fst p) = true) l ->
  firstShortening (lookupRows cat) l = firstShortening cat l.
Proof.
  induction 1 as [|[a b] r Hk Hr IH]; simpl; [reflexivity|].
  simpl in Hk. rewrite (lookup_lookupRows a cat Hk), IH. reflexivity.
Qed.

Lemma lookupForm_app (a b : string) :
  lookupForm a = true -> lookupForm b = true -> lookupForm (a ++ b) = true.
Proof.
  unfold lookupForm. intros Ha Hb. rewrite forallChars_app, Ha, Hb. reflexivity.
Qed.

Lemma lookupForm_uint (d : Decimal.uint) : lookupForm (NilEmpty.string_of_uint d) = true.
Proof. induction d; simpl; auto. Qed.

Lemma lookupForm_intToString (z : Z) : lookupForm (intToString z) = true.
Proof.
  unfold intToString. destruct (Z.to_int z); simpl; apply lookupForm_uint.
Qed.

Lemma forallChars_removeChar (p : ascii -> bool) (c : ascii) (s : string) :
  forallChars p s = true -> forallChars p (removeChar c s) = true.
Proof.
  induction s as [|a r IH]; simpl; [auto|].
  intros H. apply andb_true_iff in H. destruct H as [Ha Hr].
  destruct (Ascii.eqb a c); simpl; [|rewrite Ha]; auto.
Qed.

Lemma forallChars_stripTrailing (p q : ascii -> bool) (s : string) :
  forallChars p s = true -> forallChars p (stripTrailing q s) = true.
Proof.
  induction s as [|a r IH]; simpl; [auto|].
  intros H. apply andb_true_iff in H. destruct H as [Ha Hr]. specialize (IH Hr).
  destruct (stripTrailing q r).
  - destruct (q a); simpl; [reflexivity|]. rewrite Ha. reflexivity.
  - simpl. rewrite Ha. exact IH.
Qed.

Lemma shortenings_lookupForm (s : string) (n : nat) :
  lookupForm s = true -> Forall (fun p => lookupForm (fst p) = true) (shortenings s n).
Proof.
  intros Hs. induction n as [|n IH]; simpl; [constructor|].
  destruct (Nat.ltb 2 n); constructor; [|exact IH].
  simpl. apply forallChars_take. exact Hs.
Qed.

(** X18: the matcher sees only the rows of the catalogue whose key is in
    lookup form: a row whose key holds white space or a lower-case letter
    can be removed without changing any result of [findCatalogPrice],
    strict or loose.  (The normaliser used at ingestion keeps single
    spaces, as in "SB33 BUTT"; such a row is left to the prefix scan of
    pass 5.) *)
Theorem matcher_sees_lookup_form_rows_only
    (sku : string) (cat : dict (dict float)) (tierId : string) (strict : bool) :
  findCatalogPrice sku (lookupRows cat) tierId strict = findCatalogPrice sku cat tierId strict.
Proof.
  unfold findCatalogPrice. cbv zeta.
  pose proof (lookupForm_normalizeLookup sku) as Hc.
  set (cleanSku := normalizeLookup sku) in *.
  assert (Hn : lookupForm (removeChar "-" cleanSku) = true)
    by (apply forallChars_removeChar; exact Hc).
  assert (Hi : lookupForm (stripTrailing isDigit cleanSku ++ "-"
                           ++ drop (String.length (stripTrailing isDigit cleanSku)) cleanSku)
               = true).
  { apply lookupForm_app; [apply forallChars_stripTrailing; exact Hc|].
    apply (lookupForm_app "-"); [reflexivity|]. apply forallChars_drop. exact Hc. }
  rewrite (lookup_lookupRows _ cat Hc), (lookup_lookupRows _ cat Hn),
    (lookup_lookupRows _ cat Hi).
  rewrite (firstShortening_lookupRows cat _ (shortenings_lookupForm cleanSku _ Hc)).
  assert (Hw : forall p h sfx, wallMatch cleanSku = Some (p, h, sfx) ->
               forall l, firstPresent (lookupRows cat)
                           (flat_map (fun nh => (p ++ intToString nh ++ sfx)
                                                :: (if nonEmpty sfx then [p ++ intToString nh]
                                                    else [])) l)
                         = firstPresent cat
                             (flat_map (fun nh => (p ++ intToString nh ++ sfx)
                                                  :: (if nonEmpty sfx then [p ++ intToString nh]
                                                      else [])) l)).
  { intros p h sfx Hm l. apply firstPresent_lookupRows.
    unfold wallMatch in Hm. destruct (_ && _); [|discriminate].
    assert (Hp : lookupForm p = true).
    { replace p with (take 3 cleanSku) by (injection Hm; intros; assumption).
      apply forallChars_take. exact Hc. }
    assert (Hs : lookupForm sfx = true).
    { replace sfx with (drop 5 cleanSku) by (injection Hm; intros; assumption).
      apply forallChars_drop. exact Hc. }
    clear Hm. induction l as [|z l IH]; simpl; [constructor|].
    constructor.
    - apply lookupForm_app; [exact Hp|]. apply lookupForm_app; [|exact Hs].
      apply lookupForm_intToString.
    - destruct (nonEmpty sfx); simpl; [|exact IH].
      constructor; [|exact IH]. apply lookupForm_app; [exact Hp|].
      apply lookupForm_intToString. }
  destruct (wallMatch cleanSku) as [[[p h] sfx]|] eqn:Ew.
  - rewrite (Hw p h sfx eq_refl).
    destruct (coreMatch cleanSku) as [core|] eqn:Ecore; [|reflexivity].
    assert (Hcore : lookupForm core = true).
    { unfold coreMatch in Ecore. destruct (_ && _); [|discriminate].
      injection Ecore as <-. apply forallChars_take. exact Hc. }
    rewrite (lookup_lookupRows _ cat Hcore). reflexivity.
  - destruct (coreMatch cleanSku) as [core|] eqn:Ecore; [|reflexivity].
    assert (Hcore : lookupForm core = true).
    { unfold coreMatch in Ecore. destruct (_ && _); [|discriminate].
      injection Ecore as <-. apply forallChars_take. exact Hc. }
    rewrite (lookup_lookupRows _ cat Hcore). reflexivity.
Qed.

(** ** Pass 5: the scan of the whole catalogue *)

Lemma find_first_key (p : string -> bool) (ks : list string) (k : string) :
  find p ks = Some k ->
  exists before after,
    ks = (before ++ k :: after)%list /\ p k = true /\ Forall (fun x => p x = false) before.
Proof.
  induction ks as [|x r IH]; simpl; [discriminate|].
  destruct (p x) eqn:Ex.
  - intros E. injection E as ->. exists [], r. auto.
  - intros E. destruct (IH E) as (b & a & -> & Hk & Hb).
    exists (x :: b), a. auto.
Qed.

(** X19: for an ASCII code and a catalogue with ASCII keys, what pass 5
    returns is read from the FIRST key of the catalogue, in the order of
    the catalogue, whose lookup form starts with the lookup form of the
    code and is at most three characters longer: no key before
    it passes that test, whatever the lengths of the keys after it.  The
    match carries that key as matched SKU and its source wraps the text
    "Catalog (Global Prefix Match 'key')" in the marks of the row reader;
    for a tier that is not named like a property every object inherits,
    its price is a column of the row of that key. *)
Theorem global_prefix_match_takes_first_close_key
    (original : string) (cat : dict (dict float)) (tierName : string) (m : Match) :
  isAscii original = true -> Forall (fun k => isAscii k = true) (keys cat) ->
  inherited tierName = false ->
  globalPrefixMatch original cat tierName = Some m ->
  exists before after row col,
    keys cat = (before ++ matchedSku m :: after)%list
    /\ closeKey original (matchedSku m) = true
    /\ Forall (fun k => closeKey original k = false) before
    /\ lookup (matchedSku m) cat = Some row
    /\ lookup col row = Some (price m)
    /\ In (m_source m)
          (rowSources ("Catalog (Global Prefix Match '" ++ matchedSku m ++ "')") col).
Proof.
  intros _ _ Hi. unfold globalPrefixMatch. cbv zeta.
  destruct (nonEmpty _ && _); [|discriminate].
  change (fun k : string =>
            startsWith (normalizeLookup k) (normalizeLookup original)
            && Nat.leb (String.length (normalizeLookup k))
                       (String.length (normalizeLookup original) + 3))
    with (closeKey original).
  destruct (find (closeKey original) (keys cat)) as [[|c k]|] eqn:Ef; try discriminate.
  destruct (lookup (String c k) cat) as [row|] eqn:El; [|discriminate].
  intros Hm. apply (getPriceFromItem_Some _ _ _ _ _ Hi) in Hm.
  destruct Hm as [Hk [col [Hp Hs]]].
  destruct (find_first_key _ _ _ Ef) as (b & a & Hks & Hc & Hb).
  rewrite Hk. exists b, a, row, col. repeat split; assumption.
Qed.

Lemma global_prefix_match_takes_first_close_key_witness :
  exists before after,
    ["B15-LONG"; "B15-L"; "B15R"] = (before ++ "B15-L" :: after)%list
    /\ Forall (fun k => closeKey "B15" k = false) before.
Proof.
  destruct (global_prefix_match_takes_first_close_key "B15"
              [("B15-LONG", [("Standard", 300%float)]);
               ("B15-L", [("Standard", 210%float)]);
               ("B15R", [("Standard", 200%float)])] "Standard"
              {| price := 210; m_source := "Catalog (Catalog (Global Prefix Match 'B15-L') Tier)";
                 matchedSku := "B15-L" |})
    as (b & a & row & col & Hks & Hc & Hb & _).
  - reflexivity.
  - repeat constructor.
  - reflexivity.
  - vm_compute. reflexivity.
  - exists b, a. split; [exact Hks|exact Hb].
Defined.

(** ** The log of applied options *)

Lemma logTotal_snoc (log : list AppliedOption) (a : AppliedOption) :
  logTotal (log ++ [a]) = (logTotal log + ao_price a)%float.
Proof. unfold logTotal. rewrite fold_left_app. reflexivity. Qed.

Lemma charge_balanced (ch : Charges) (name : string) (p : float) (sec : option string) :
  balanced ch -> balanced (charge ch name p sec).
Proof.
  unfold balanced, charge. simpl. intros ->. rewrite logTotal_snoc. reflexivity.
Qed.

Lemma fold_balanced {A : Type} (step : Charges -> A -> Charges) (l : list A) :
  (forall ch a, balanced ch -> balanced (step ch a)) ->
  forall ch, balanced ch -> balanced (fold_left step l ch).
Proof.
  intros Hstep. induction l as [|a r IH]; intros ch Hch; simpl; [assumption|].
  apply IH, Hstep, Hch.
Qed.

Lemma chargesOf_balanced (host : Host) (manufacturer : Manufacturer) (tierId : string)
    (specs : option ProjectSpecs) (roomSpecs : option (dict ProjectSpecs)) (it : CabinetItem) :
  balanced (chargesOf host manufacturer tierId specs roomSpecs it).
Proof.
  unfold chargesOf. cbv zeta. apply fold_balanced.
  { intros ch opt Hch. unfold applyPercentageOption.
    destruct (pricingType opt); try assumption.
    destruct (_ && _); [assumption|]. apply charge_balanced, Hch. }
  apply fold_balanced.
  { intros ch opt Hch. unfold applyFixedOption.
    destruct (applies _ opt); [|assumption]. cbv zeta.
    destruct (_ || _); [|assumption]. apply charge_balanced, Hch. }
  unfold applyModifications. apply fold_balanced.
  { intros ch m Hch. apply charge_balanced, Hch. }
  reflexivity.
Qed.

(** X20: on every line of the output the options price is the rounded
    total of the prices in the log of applied options, added from the left
    in the order of the log: nothing is charged without an entry and no
    entry is left out of the price. *)
Theorem options_price_is_the_log_total
    (host : Host) (manufacturer : Manufacturer) (tierId : string)
    (specs : option ProjectSpecs) (financials : option ProjectFinancials)
    (roomSpecs : option (dict ProjectSpecs))
    (items : list CabinetItem) (l : PricingLineItem) :
  In l (calculateProjectPricing host manufacturer tierId specs financials roomSpecs items) ->
  optionsPrice l = Num.round (logTotal (appliedOptions l)).
Proof.
  intros Hin. apply In_calculate in Hin. destruct Hin as [it [_ [_ ->]]].
  pose proof (chargesOf_balanced host manufacturer tierId specs roomSpecs it) as Hb.
  unfold priceItem. destruct (baseOf _ _ _ _ _ _) as [[b s] k]. simpl.
  rewrite Hb. reflexivity.
Qed.

Lemma options_price_is_the_log_total_witness :
  optionsPrice (priceItem sampleHost (testMfg [paintedOption] (oneRow "B15" 200)) "standard"
                  (specsSelecting "opt-1") None None (testItem "B15" Base 15 1))
  = Num.round (logTotal [percentageEntry sampleHost 200 paintedOption]).
Proof.
  rewrite (options_price_is_the_log_total sampleHost (testMfg [paintedOption] (oneRow "B15" 200))
             "standard" (specsSelecting "opt-1") None None [testItem "B15" Base 15 1]
             (priceItem sampleHost (testMfg [paintedOption] (oneRow "B15" 200)) "standard"
                (specsSelecting "opt-1") None None (testItem "B15" Base 15 1))).
  - vm_compute. reflexivity.
  - vm_compute. left. reflexivity.
Defined.

Lemma applyModifications_log (mods : list ItemModification) (ch : Charges) :
  snd (applyModifications mods ch) = (snd ch ++ map modificationEntry mods)%list.
Proof.
  unfold applyModifications. revert ch.
  induction mods as [|m r IH]; intros ch; simpl; [rewrite app_nil_r; reflexivity|].
  rewrite IH. simpl. rewrite <- app_assoc. reflexivity.
Qed.

Lemma zero_lt_le (x : float) : (0 <? x)%float = true -> (0 <=? x)%float = true.
Proof.
  rewrite FloatAxioms.ltb_spec, FloatAxioms.leb_spec.
  unfold SFltb, SFleb. destruct (SFcompare _ _) as [[| |]|]; try discriminate; reflexivity.
Qed.

Lemma zero_eq_le (x : float) : PrimFloat.eqb x 0 = true -> (0 <=? x)%float = true.
Proof.
  rewrite FloatAxioms.eqb_spec, FloatAxioms.leb_spec.
  change (Prim2SF 0) with (S754_zero false).
  destruct (Prim2SF x) as [s|s| |s m e]; try discriminate; try reflexivity.
  all: destruct s; discriminate.
Qed.

Lemma fixed_loop_log (ty : CabinetType) (opts : list ManufacturerOption) (ch : Charges) :
  exists rest,
    snd (fold_left (applyFixedOption ty) opts ch) = (snd ch ++ rest)%list
    /\ Forall (fromFixedLoop ty opts) rest.
Proof.
  revert ch. induction opts as [|o r IH]; intros ch; simpl.
  { exists []. rewrite app_nil_r. auto. }
  destruct (IH (applyFixedOption ty ch o)) as (rest & Hlog & Hall).
  assert (Hweak : Forall (fromFixedLoop ty (o :: r)) rest).
  { eapply Forall_impl; [|exact Hall].
    intros a (opt & Hin & Ha). exists opt. split; [right; exact Hin|exact Ha]. }
  rewrite Hlog. unfold applyFixedOption.
  destruct (applies ty o) eqn:Happ; [|exists rest; auto]. cbv zeta.
  destruct (_ || _) eqn:Hcond; [|exists rest; auto].
  exists (fixedEntry o :: rest). simpl. rewrite <- app_assoc. split; [reflexivity|].
  constructor; [|exact Hweak].
  exists o. split; [left; reflexivity|]. split; [exact Happ|]. split; [reflexivity|].
  simpl. apply orb_true_iff in Hcond. destruct Hcond as [H|H].
  - apply zero_lt_le, H.
  - apply andb_true_iff in H. destruct H as [H _].
    destruct (pricingType o); [apply zero_eq_le, H|reflexivity|reflexivity].
Qed.

Lemma percentage_loop_log (host : Host) (base : float) (opts : list ManufacturerOption)
    (ch : Charges) :
  exists rest,
    snd (fold_left (applyPercentageOption host base) opts ch) = (snd ch ++ rest)%list
    /\ Forall (fromPercentageLoop host base opts) rest.
Proof.
  revert ch. induction opts as [|o r IH]; intros ch; simpl.
  { exists []. rewrite app_nil_r. auto. }
  destruct (IH (applyPercentageOption host base ch o)) as (rest & Hlog & Hall).
  assert (Hweak : Forall (fromPercentageLoop host base (o :: r)) rest).
  { eapply Forall_impl; [|exact Hall].
    intros a (opt & Hin & Ha). exists opt. split; [right; exact Hin|exact Ha]. }
  rewrite Hlog. unfold applyPercentageOption.
  destruct (pricingType o) eqn:Hp; try (exists rest; auto; fail).
  destruct (_ && _); [exists rest; auto|].
  exists (percentageEntry host base o :: rest). simpl. rewrite <- app_assoc.
  split; [reflexivity|]. constructor; [|exact Hweak].
  exists o. auto using in_eq.
Qed.

(** X21: the log of applied options of an item has three parts, in this
    order: one entry for each modification of the item, in their order and
    marked "PDF Extraction"; then entries of step 2, each from an option
    in force that applies to the type of the item, none with a negative
    price; then entries of step 4, each from a percentage option in force
    and priced as the unrounded base price times its rate. *)
Theorem applied_options_log_has_three_parts
    (host : Host) (manufacturer : Manufacturer) (tierId : string)
    (specs : option ProjectSpecs) (roomSpecs : option (dict ProjectSpecs)) (it : CabinetItem) :
  exists fixedPart percentagePart,
    snd (chargesOf host manufacturer tierId specs roomSpecs it)
    = (map modificationEntry (modifications it) ++ fixedPart ++ percentagePart)%list
    /\ Forall (fromFixedLoop (type it) (activeOptions manufacturer specs roomSpecs it)) fixedPart
    /\ Forall (fromPercentageLoop host
                 (fst (fst (baseOf host manufacturer tierId specs roomSpecs it)))
                 (activeOptions manufacturer specs roomSpecs it)) percentagePart.
Proof.
  unfold chargesOf. cbv zeta.
  destruct (percentage_loop_log host
              (fst (fst (baseOf host manufacturer tierId specs roomSpecs it)))
              (activeOptions manufacturer specs roomSpecs it)
              (fold_left (applyFixedOption (type it))
                 (activeOptions manufacturer specs roomSpecs it)
                 (applyModifications (modifications it) (0%float, []))))
    as (pctPart & Hp & Hpall).
  destruct (fixed_loop_log (type it) (activeOptions manufacturer specs roomSpecs it)
              (applyModifications (modifications it) (0%float, [])))
    as (fixedPart & Hf & Hfall).
  exists fixedPart, pctPart. split; [|split; assumption].
  rewrite Hp, Hf, applyModifications_log. simpl. rewrite <- app_assoc. reflexivity.
Qed.

(** ** The type classifier of the plan analyser *)

Lemma startsWith_longer (p q s : string) :
  startsWith s p = false -> startsWith s (p ++ q) = false.
Proof.
  revert s. induction p as [|a p IH]; intros s; simpl.
  - rewrite startsWith_empty. discriminate.
  - destruct s as [|b r]; [reflexivity|].
    intros H. apply andb_false_iff in H. apply andb_false_iff.
    destruct H as [H|H]; [left; exact H|right; apply IH; exact H].
Qed.

Ltac shadowed c p q E :=
  let H := fresh "Hdead" in
  assert (H : startsWith c (p ++ q) = false) by (apply startsWith_longer; exact E);
  simpl append in H; rewrite H; clear H.

Ltac decide_on c p :=
  destruct (startsWith c p) eqn:?;
  [rewrite ?orb_true_r; simpl; rewrite ?orb_true_r; reflexivity
  |rewrite ?orb_false_r; simpl].

(** X22: twelve of the twenty-eight prefixes that [getTypeFromCode] tests
    never change the type: each extends a shorter prefix that is tested
    before it (WDC, WBC, BEC, BBC, BTK, BC, DCB, WF, TF) or in the same
    group (VSB, VDB, UF).  The classifier is the one that tests V, then W
    and DC, then B, SB, SKB, DB, LS, K, SHB and EZR, then T, O and P, then
    F and U.  So a code in WF or TF is typed Wall or Tall and not Filler,
    and a code in DCB is typed Wall and not Base. *)
Theorem type_is_decided_by_sixteen_prefixes (code : string) :
  getTypeFromCode code = typeByLeadingLetters code.
Proof.
  unfold getTypeFromCode, typeByLeadingLetters. cbv zeta.
  set (c := trim (toUpperCase code)).
  destruct (nonEmpty c) eqn:Hc; simpl.
  2:{ unfold nonEmpty in Hc. apply negb_false_iff, String.eqb_eq in Hc. rewrite Hc. reflexivity. }
  destruct (startsWith c "V") eqn:EV; [rewrite orb_true_r; reflexivity|].
  shadowed c "V" "SB" EV. shadowed c "V" "DB" EV. simpl.
  destruct (startsWith c "W") eqn:EW; [reflexivity|].
  shadowed c "W" "DC" EW. shadowed c "W" "BC" EW. shadowed c "W" "F" EW.
  destruct (startsWith c "DC") eqn:EDC; [reflexivity|].
  shadowed c "DC" "B" EDC. simpl.
  destruct (startsWith c "B") eqn:EB; [reflexivity|].
  shadowed c "B" "EC" EB. shadowed c "B" "BC" EB. shadowed c "B" "TK" EB.
  shadowed c "B" "C" EB. rewrite ?orb_false_r. simpl.
  decide_on c "SB". decide_on c "SKB". decide_on c "DB". decide_on c "LS".
  decide_on c "K". decide_on c "SHB". decide_on c "EZR".
  destruct (startsWith c "T") eqn:ET; [reflexivity|].
  shadowed c "T" "F" ET. simpl.
  decide_on c "O". decide_on c "P". decide_on c "F".
  destruct (startsWith c "U") eqn:EU; [rewrite orb_true_r; reflexivity|].
  shadowed c "U" "F" EU. reflexivity.
Qed.

(** A wall filler is typed as a wall cabinet, a tall filler as a tall
    cabinet and a diagonal corner base as a wall cabinet. *)
Example fillers_typed_as_cabinets :
  getTypeFromCode "WF342" = Some Wall
  /\ getTypeFromCode "TF396" = Some Tall
  /\ getTypeFromCode "DCB36" = Some Wall.
Proof. repeat split; vm_compute; reflexivity. Qed.

(** ** ASCII codes give ASCII keys *)

Lemma isAscii_app (a b : string) :
  isAscii a = true -> isAscii b = true -> isAscii (a ++ b) = true.
Proof.
  unfold isAscii. intros Ha Hb. rewrite forallChars_app, Ha, Hb. reflexivity.
Qed.

Lemma isAscii_take (n : nat) (s : string) : isAscii s = true -> isAscii (take n s) = true.
Proof. apply forallChars_take. Qed.

Lemma isAscii_drop (n : nat) (s : string) : isAscii s = true -> isAscii (drop n s) = true.
Proof. apply forallChars_drop. Qed.

Lemma isAscii_beforeChar (c : ascii) (s : string) :
  isAscii s = true -> isAscii (beforeChar c s) = true.
Proof.
  unfold isAscii. induction s as [|a r IH]; [reflexivity|].
  cbn [forallChars beforeChar]. intros H. apply andb_true_iff in H. destruct H as [Ha Hr].
  destruct (Ascii.eqb a c); [reflexivity|]. cbn [forallChars]. rewrite Ha. exact (IH Hr).
Qed.

Lemma isAscii_afterChar (c : ascii) (s : string) :
  isAscii s = true -> isAscii (afterChar c s) = true.
Proof.
  unfold isAscii. induction s as [|a r IH]; [reflexivity|].
  cbn [forallChars afterChar]. intros H. apply andb_true_iff in H. destruct H as [Ha Hr].
  destruct (Ascii.eqb a c); [exact Hr|exact (IH Hr)].
Qed.

Lemma isAscii_uint (d : Decimal.uint) : isAscii (NilEmpty.string_of_uint d) = true.
Proof. induction d; simpl; auto. Qed.

Lemma isAscii_intToString (z : Z) : isAscii (intToString z) = true.
Proof.
  unfold intToString. destruct (Z.to_int z); simpl; apply isAscii_uint.
Qed.

Lemma isAscii_replaceWord (w rep s : string) :
  isAscii rep = true -> isAscii s = true -> isAscii (replaceWord w rep s) = true.
Proof.
  intros Hrep. unfold replaceWord. induction s as [|a r IH]; intros Hs.
  - cbn [replaceFirst]. unfold mLit. destruct (startsWith "" w); [|reflexivity].
    apply isAscii_app; [exact Hrep|apply isAscii_drop; reflexivity].
  - cbn [replaceFirst]. unfold mLit at 1. destruct (startsWith (String a r) w).
    + apply isAscii_app; [exact Hrep|apply isAscii_drop; exact Hs].
    + unfold isAscii in *. cbn [forallChars] in *.
      apply andb_true_iff in Hs. destruct Hs as [Ha Hr]. rewrite Ha. exact (IH Hr).
Qed.

Lemma isAscii_firstDigitRun (s : string) :
  isAscii s = true -> isAscii (firstDigitRun s) = true.
Proof.
  induction s as [|a r IH]; [reflexivity|]. intros Hs.
  cbn [firstDigitRun]. destruct (isDigit a).
  - apply isAscii_take. exact Hs.
  - apply IH. unfold isAscii in *. cbn [forallChars] in Hs.
    apply andb_true_iff in Hs. apply Hs.
Qed.

Lemma lettersDigitsPrefix_ascii (s l d : string) :
  lettersDigitsPrefix s = Some (l, d) -> isAscii s = true ->
  isAscii l = true /\ isAscii d = true.
Proof.
  unfold lettersDigitsPrefix. cbv zeta.
  destruct (spanLen isAZ s) as [|n]; [discriminate|].
  destruct (spanLen isDigit (drop (S n) s)) as [|m]; [discriminate|].
  intros H Hs.
  assert (Hl : l = take (S n) s) by (injection H; intros; symmetry; assumption).
  assert (Hd : d = take (S m) (drop (S n) s)) by (injection H; intros; symmetry; assumption).
  rewrite Hl, Hd. split.
  - apply isAscii_take. exact Hs.
  - apply isAscii_take, isAscii_drop. exact Hs.
Qed.

Lemma lettersDigits_ascii (s l d : string) :
  lettersDigits s = Some (l, d) -> isAscii s = true ->
  isAscii l = true /\ isAscii d = true.
Proof.
  unfold lettersDigits. destruct (lettersDigitsPrefix s) as [[l' d']|] eqn:E; [|discriminate].
  destruct (Nat.eqb _ _); [|discriminate].
  intros H. injection H as <- <-. apply lettersDigitsPrefix_ascii. exact E.
Qed.

Lemma widthMatch_ascii (s l d : string) :
  widthMatch s = Some (l, d) -> isAscii s = true -> isAscii l = true.
Proof.
  unfold widthMatch. destruct (lettersDigits s) as [[l' d']|] eqn:E; [|discriminate].
  destruct (_ && _); [|discriminate].
  intros H Hs. injection H as <- <-. apply (lettersDigits_ascii _ _ _ E Hs).
Qed.

Lemma complexMatch_ascii (s p q : string) :
  complexMatch s = Some (p, q) -> isAscii s = true -> isAscii p = true.
Proof.
  unfold complexMatch. cbv zeta. destruct (_ && _); [|discriminate].
  intros H Hs. injection H as <- <-. apply isAscii_take. exact Hs.
Qed.

Lemma middleLetterMatch_ascii (s k : string) :
  middleLetterMatch s = Some k -> isAscii s = true -> isAscii k = true.
Proof.
  unfold middleLetterMatch. cbv zeta. destruct (_ && _); [|discriminate].
  intros H Hs. injection H as <-.
  apply isAscii_app; [apply forallChars_stripTrailing, isAscii_beforeChar; exact Hs|].
  apply (isAscii_app "-"); [reflexivity|apply isAscii_afterChar; exact Hs].
Qed.

Lemma asciiKeys_push (c : Category) (k : string) (st : Keys) :
  isAscii k = true -> asciiKeys st -> asciiKeys (push c k st).
Proof.
  unfold asciiKeys. intros Hk Hst. apply Forall_forall. intros x Hx.
  apply allKeys_push in Hx. destruct Hx as [->|Hx]; [exact Hk|].
  rewrite Forall_forall in Hst. apply Hst. exact Hx.
Qed.

Ltac asciiSide :=
  repeat first
    [ assumption
    | reflexivity
    | apply isAscii_intToString
    | apply isAscii_app
    | apply isAscii_removeSpaces
    | apply isAscii_toUpperCase
    | apply isAscii_trim
    | apply isAscii_beforeChar
    | apply isAscii_normalize
    | apply isAscii_replaceWord
    | apply isAscii_firstDigitRun
    | apply forallChars_removeChar ].

Section AsciiAdd.

Variable rec : string -> Category -> bool -> Keys -> Keys.
Hypothesis rec_ascii :
  forall k c a st, isAscii k = true -> asciiKeys st -> asciiKeys (rec k c a st).

Lemma addStep_ascii (k : string) (c : Category) (a : bool) (st : Keys) :
  isAscii k = true -> asciiKeys st -> asciiKeys (addStep rec k c a st).
Proof.
  intros Hk Hst. unfold addStep.
  destruct (negb (nonEmpty k)); [exact Hst|]. cbv zeta.
  set (upper := removeSpaces (toUpperCase k)).
  assert (Hu : isAscii upper = true) by (subst upper; asciiSide).
  destruct (has upper (processed st)); [exact Hst|].
  pose proof (asciiKeys_push c upper st Hu Hst) as H1.
  set (st1 := push c upper st) in *.
  assert (H2 : asciiKeys
                 match lettersDigits upper with
                 | Some (l, d) =>
                     if has (l ++ "-" ++ d) (processed st1) then st1
                     else push c (l ++ "-" ++ d) st1
                 | None => st1
                 end).
  { destruct (lettersDigits upper) as [[l d]|] eqn:E; [|exact H1].
    destruct (lettersDigits_ascii _ _ _ E Hu) as [Hl Hd].
    destruct (has _ _); [exact H1|]. apply asciiKeys_push; [asciiSide|exact H1]. }
  set (st2 := match lettersDigits upper with Some _ => _ | None => _ end) in *.
  assert (H3 : asciiKeys
                 (if includes upper "-"
                  then if cosmeticSuffix (afterChar "-" upper)
                       then rec (beforeChar "-" upper) c a st2 else st2
                  else st2)).
  { destruct (includes upper "-"); [|exact H2].
    destruct (cosmeticSuffix _); [|exact H2]. apply rec_ascii; [asciiSide|exact H2]. }
  set (st3 := if includes upper "-" then _ else _) in *.
  destruct a; [|exact H3].
  destruct (widthMatch upper) as [[prefix wStr]|] eqn:E; [|exact H3].
  pose proof (widthMatch_ascii _ _ _ E Hu) as Hp.
  destruct (has prefix neighborFamilies); [|exact H3].
  assert (Hnear : forall p n s, isAscii p = true -> asciiKeys s ->
                                asciiKeys (rec (p ++ intToString n) Similar false s)).
  { intros p n s Hq Hs. apply rec_ascii; [asciiSide|exact Hs]. }
  repeat match goal with
  | |- asciiKeys (if ?b then _ else _) => destruct b
  | |- asciiKeys (rec (_ ++ intToString _) Similar false _) => apply Hnear; [asciiSide|]
  | |- asciiKeys st3 => exact H3
  end.
Qed.

End AsciiAdd.

Lemma addF_ascii (fuel : nat) :
  forall k c a st, isAscii k = true -> asciiKeys st -> asciiKeys (addF fuel k c a st).
Proof.
  induction fuel as [|fuel IH]; intros k c a st Hk Hst; [exact Hst|].
  rewrite addF_step. apply addStep_ascii; assumption.
Qed.

Lemma add_ascii (k : string) (c : Category) (a : bool) (st : Keys) :
  isAscii k = true -> asciiKeys st -> asciiKeys (add k c a st).
Proof. apply addF_ascii. Qed.

Lemma fold_ascii {X : Type} (f : Keys -> X -> Keys) (l : list X) :
  (forall st x, asciiKeys st -> asciiKeys (f st x)) ->
  forall st, asciiKeys st -> asciiKeys (fold_left f l st).
Proof.
  intros Hf. induction l as [|x r IH]; simpl; auto.
Qed.

Lemma when_ascii (b : bool) (f : Keys -> Keys) (st : Keys) :
  (forall s, asciiKeys s -> asciiKeys (f s)) -> asciiKeys st -> asciiKeys (when b f st).
Proof. intros Hf Hst. unfold when. destruct b; auto. Qed.

Section AsciiStrategies.

Variable host : Host.
Variable it : CabinetItem.
Hypothesis host_ascii : forall x, isAscii (numberToString host x) = true.
Hypothesis original_ascii : isAscii (originalCode it) = true.
Hypothesis normalized_ascii : isAscii (normalizedCode it) = true.

Ltac asciiArg :=
  repeat first
    [ assumption
    | reflexivity
    | apply host_ascii
    | apply isAscii_intToString
    | apply isAscii_app
    | apply isAscii_removeSpaces
    | apply isAscii_toUpperCase
    | apply isAscii_trim
    | apply isAscii_beforeChar
    | apply isAscii_normalize
    | apply isAscii_replaceWord
    | apply isAscii_firstDigitRun
    | apply forallChars_removeChar
    | match goal with
      | H : complexMatch _ = Some (?p, _) |- isAscii ?p = true =>
          apply (complexMatch_ascii _ _ _ H)
      | H : middleLetterMatch _ = Some ?k |- isAscii ?k = true =>
          apply (middleLetterMatch_ascii _ _ H)
      | H : lettersDigitsPrefix _ = Some (?l, _) |- isAscii ?l = true =>
          apply (proj1 (lettersDigitsPrefix_ascii _ _ _ H ltac:(asciiArg)))
      | H : lettersDigitsPrefix _ = Some (_, ?d) |- isAscii ?d = true =>
          apply (proj2 (lettersDigitsPrefix_ascii _ _ _ H ltac:(asciiArg)))
      end ].

Ltac asciiStrategy :=
  cbv zeta;
  repeat match goal with
  | |- asciiKeys _ => assumption
  | |- asciiKeys (add _ _ _ _) => apply add_ascii; [asciiArg|]
  | |- asciiKeys (fold_left _ _ _) => apply fold_ascii; [intros ? ? ?|]
  | |- asciiKeys (when _ _ _) => apply when_ascii; [intros ? ?; cbv beta|]
  | |- asciiKeys (match ?x with _ => _ end) => destruct x eqn:?
  | p : (_ * _)%type |- _ => destruct p
  end.

Lemma strategy0_ascii st : asciiKeys st -> asciiKeys (strategy0 it st).
Proof. intros H. unfold strategy0. asciiStrategy. Qed.

Lemma strategy1_ascii st : asciiKeys st -> asciiKeys (strategy1 it st).
Proof. intros H. unfold strategy1. asciiStrategy. Qed.

Lemma strategy1_5_ascii st : asciiKeys st -> asciiKeys (strategy1_5 it st).
Proof. intros H. unfold strategy1_5. asciiStrategy. Qed.

Lemma strategy2_ascii st : asciiKeys st -> asciiKeys (strategy2 it st).
Proof. intros H. unfold strategy2. asciiStrategy. Qed.

Lemma strategy3_ascii st : asciiKeys st -> asciiKeys (strategy3 it st).
Proof. intros H. unfold strategy3. asciiStrategy. Qed.

Lemma strategy4_ascii st : asciiKeys st -> asciiKeys (strategy4 it st).
Proof. intros H. unfold strategy4. asciiStrategy. Qed.

Lemma strategy5_ascii st : asciiKeys st -> asciiKeys (strategy5 it st).
Proof. intros H. unfold strategy5. asciiStrategy. Qed.

Lemma strategy6_ascii st : asciiKeys st -> asciiKeys (strategy6 host it st).
Proof. intros H. unfold strategy6. asciiStrategy. Qed.

Lemma strategy7_ascii st : asciiKeys st -> asciiKeys (strategy7 it st).
Proof. intros H. unfold strategy7. asciiStrategy. Qed.

Lemma strategy8_ascii st : asciiKeys st -> asciiKeys (strategy8 it st).
Proof. intros H. unfold strategy8. asciiStrategy. Qed.

Lemma smartKeysState_ascii : asciiKeys (smartKeysState host it).
Proof.
  unfold smartKeysState.
  apply strategy8_ascii, strategy7_ascii, strategy6_ascii, strategy5_ascii, strategy4_ascii,
    strategy3_ascii, strategy2_ascii, strategy1_5_ascii, strategy1_ascii, strategy0_ascii.
  constructor.
Qed.

End AsciiStrategies.

Lemma sampleHost_ascii (x : float) : isAscii (numberToString sampleHost x) = true.
Proof.
  unfold sampleHost, numberToString, Num.toFixed0.
  destruct (Prim2SF x) as [s|s| |s m e]; try reflexivity.
  destruct (_ <? _)%Z; [|reflexivity].
  apply isAscii_app; [destruct s; reflexivity|apply isAscii_intToString].
Qed.

(** X11: for an item whose codes are ASCII texts, every key the generator
    returns is an ASCII text in the form the matcher looks up: it has no
    white space and no lower-case letter, and the lookup normalisation
    leaves it as it is, so that passes 2 and 3 probe the catalogue for the
    keys as generated.  (The host's conversion of a number to text is
    taken to give ASCII text, as [Number::toString] does.) *)
Theorem smart_keys_are_in_lookup_form (host : Host) (it : CabinetItem) (k : string) :
  (forall x, isAscii (numberToString host x) = true) ->
  isAscii (originalCode it) = true -> isAscii (normalizedCode it) = true ->
  In k (fst (generateSmartKeys host it) ++ snd (generateSmartKeys host it)) ->
  isAscii k = true /\ lookupForm k = true /\ normalizeLookup k = k.
Proof.
  intros Hh Ho Hn. rewrite generateSmartKeys_state. simpl. intros Hin.
  assert (Ha : isAscii k = true).
  { pose proof (smartKeysState_ascii host it Hh Ho Hn) as Hall.
    unfold asciiKeys in Hall. rewrite Forall_forall in Hall. apply Hall. exact Hin. }
  assert (H : lookupForm k = true).
  { assert (Hall : Forall (fun k => lookupForm k = true) (allKeys (smartKeysState host it))).
    { apply (smartKeysState_inv
               (fun st => Forall (fun k => lookupForm k = true) (allKeys st))
               (fun k => lookupForm k = true)).
      - apply lookupForm_upper.
      - apply lookupForm_hyphenated.
      - intros c x st _ Hx Hst. apply Forall_forall. intros y Hy.
        apply allKeys_push in Hy. destruct Hy as [->|Hy]; [exact Hx|].
        rewrite Forall_forall in Hst. auto.
      - constructor. }
    rewrite Forall_forall in Hall. apply Hall. exact Hin. }
  split; [exact Ha|]. split; [exact H|apply normalizeLookup_id; assumption].
Qed.

Lemma smart_keys_are_in_lookup_form_witness :
  normalizeLookup "SB-33" = "SB-33".
Proof.
  refine (proj2 (proj2 (smart_keys_are_in_lookup_form sampleHost
                          (testItem "sb 33 butt" Base 0 1) "SB-33"
                          sampleHost_ascii eq_refl eq_refl _))).
  vm_compute. auto 10.
Defined.

(** ** A code whose normal form is in the catalogue: the strict passes *)

Lemma strictPasses_match (host : Host) (it : CabinetItem) (cat : dict (dict float))
    (tierName : string) (m : Match) :
  strictPasses host it cat tierName = Some m -> matchCatalog host it cat tierName = Some m.
Proof.
  unfold strictPasses, matchCatalog. destruct (generateSmartKeys host it) as [ex si].
  cbn [fst snd].
  destruct (findCatalogPrice (originalCode it) cat tierName true); [auto|].
  cbn [orTry].
  destruct (firstStrict cat tierName _ ex); [auto|]. cbn [orTry].
  destruct (firstStrict cat tierName _ si); [auto|]. discriminate.
Qed.

(** X13: if the ASCII code of an item, once normalised by
    [normalizeNKBACode] (and freed of the spaces that may be left in it),
    is a key of the catalogue other than "UNKNOWN" whose row has a column,
    and the tier in force is not named like a property every object
    inherits, then
    one of the first three passes (the strict ones) matches the item: the
    normalised code is among the generated keys.  The line is made from
    that match: its normalised code, source and rounded base price are
    those of the match, the source starts with "Catalog (" and the price
    is the value of a column of the catalogue. *)
Theorem normalized_code_in_catalog_is_matched
    (host : Host) (manufacturer : Manufacturer) (tierId : string)
    (specs : option ProjectSpecs) (financials : option ProjectFinancials)
    (roomSpecs : option (dict ProjectSpecs)) (it : CabinetItem) (row : dict float) :
  let u := removeSpaces (toUpperCase (normalizeNKBACode (originalCode it))) in
  let tier := effectiveTierName manufacturer tierId specs roomSpecs it in
  let l := priceItem host manufacturer tierId specs financials roomSpecs it in
  isAscii (originalCode it) = true -> inherited tier = false ->
  u <> "" -> u <> "UNKNOWN" ->
  lookup u (catalog manufacturer) = Some row -> row <> [] ->
  exists m,
    strictPasses host it (catalog manufacturer) tier = Some m
    /\ li_normalizedCode l = matchedSku m
    /\ source l = m_source m
    /\ basePrice l = Num.round (price m)
    /\ startsWith (source l) "Catalog (" = true
    /\ exists key row' col,
         lookup key (catalog manufacturer) = Some row' /\ lookup col row' = Some (price m).
Proof.
  intros u tier l Ho Hi Hne Hunk Hrow Hcols.
  assert (Ha : isAscii u = true)
    by (apply isAscii_removeSpaces, isAscii_toUpperCase, isAscii_normalize; exact Ho).
  assert (Hclean : nonEmpty (normalizeNKBACode (originalCode it)) = true).
  { unfold nonEmpty. destruct (String.eqb _ "") eqn:E; [|reflexivity].
    apply String.eqb_eq in E. exfalso. apply Hne. subst u. rewrite E. reflexivity. }
  pose proof (cleanCode_is_a_key host it Hclean) as Hkey. fold u in Hkey.
  assert (Hfind : exists m0, findCatalogPrice u (catalog manufacturer) tier true = Some m0).
  { unfold findCatalogPrice. cbv zeta.
    assert (Hu : normalizeLookup u = u)
      by (apply normalizeLookup_id; [exact Ha|apply lookupForm_upper]).
    rewrite Hu.
    assert (E1 : nonEmpty u = true).
    { unfold nonEmpty. destruct (String.eqb u "") eqn:E; [|reflexivity].
      apply String.eqb_eq in E. contradiction. }
    assert (E2 : String.eqb u "UNKNOWN" = false) by (apply String.eqb_neq; exact Hunk).
    rewrite E1, E2, Hrow. simpl.
    destruct (getPriceFromItem row tier u "Exact") as [m0|] eqn:Hm; [eauto|].
    apply getPriceFromItem_None_empty in Hm. contradiction. }
  destruct Hfind as [m0 Hfind].
  assert (Hstrict : exists m, strictPasses host it (catalog manufacturer) tier = Some m).
  { unfold strictPasses. rewrite generateSmartKeys_state. cbn [fst snd].
    destruct (findCatalogPrice (originalCode it) (catalog manufacturer) tier true);
      [simpl; eauto|].
    unfold allKeys in Hkey. apply in_app_or in Hkey. destruct Hkey as [Hk|Hk].
    - destruct (firstStrict_hit _ tier (fun key => "Catalog (Exact Match '" ++ key ++ "')")
                  _ u m0 Hk Hfind) as [m' Hm'].
      rewrite Hm'. simpl. eauto.
    - destruct (firstStrict _ tier (fun key => "Catalog (Exact Match '" ++ key ++ "')") _);
        [simpl; eauto|].
      destruct (firstStrict_hit _ tier (fun key => "Catalog (Similar Match '" ++ key ++ "')")
                  _ u m0 Hk Hfind) as [m' Hm'].
      rewrite Hm'. simpl. eauto. }
  destruct Hstrict as [m Hstrict]. exists m.
  pose proof (strictPasses_match _ _ _ _ _ Hstrict) as Hm.
  destruct (priceItem_of_match host manufacturer tierId specs financials roomSpecs it m Hm)
    as (Hn & Hb & Hs).
  fold l in Hn, Hb, Hs.
  split; [exact Hstrict|]. split; [exact Hn|]. split; [exact Hs|]. split; [exact Hb|]. split.
  - rewrite Hs. apply matchCatalog_source with (1 := Hm).
  - apply (matchCatalog_fromCatalog _ _ _ _ _ Hi Hm).
Qed.

Lemma normalized_code_in_catalog_is_matched_witness :
  exists m,
    strictPasses sampleHost (testItem "VDB24AH-3" Base 24 1)
      [("VDB24", [("Standard", 400%float)]); ("VDB24-3", [("Standard", 450%float)])]
      "Standard" = Some m
    /\ source (priceItem sampleHost
                 (testMfg [] [("VDB24", [("Standard", 400%float)]);
                              ("VDB24-3", [("Standard", 450%float)])])
                 "standard" None None None (testItem "VDB24AH-3" Base 24 1))
       = m_source m.
Proof.
  destruct (normalized_code_in_catalog_is_matched sampleHost
              (testMfg [] [("VDB24", [("Standard", 400%float)]);
                           ("VDB24-3", [("Standard", 450%float)])])
              "standard" None None None (testItem "VDB24AH-3" Base 24 1)
              [("Standard", 400%float)]) as (m & Hstrict & _ & Hs & _).
  - vm_compute. reflexivity.
  - vm_compute. reflexivity.
  - vm_compute. discriminate.
  - vm_compute. discriminate.
  - vm_compute. reflexivity.
  - discriminate.
  - exists m. split; [exact Hstrict|exact Hs].
Defined.
